(** * Market-data ingestion pipeline: buffers, normalizers, aggregators,
      connectors and the causal-API dispatcher

    A shallow embedding of the TypeScript sources of the data-connector
    service, and the properties its specification states about them.

    Conventions of the embedding.
    - A JavaScript [number] that the code treats as an integer (epoch
      milliseconds, counts, sizes) is a [Z].  Prices are [Z] too: the code only
      compares them, takes [Math.max]/[Math.min] and prints them, which is
      exact on every finite number.  [NaN] has no term in [Z]: the candle
      builder is given a second time over prices of type [number], which has
      it ([NumberCandleBuilder]), and the dispatcher's printing is stated for
      integers of at most 2^53 - 1 in size ([printsAsDigits]).
    - An ISO-8601 date string ([tick.ts], [candle.datetime]) is represented by
      the instant it denotes, in epoch milliseconds; [toISOString] renders it
      where the code prints it.
    - An optional or nullable field is an [option]; [undefined] and [null]
      are both [None], except where the code does arithmetic on the field
      (the times of a backfill result), where [null] acts as 0.
    - A [Map] whose iteration order the code relies on is an association list
      in insertion order; the [Map] of buffers, which is only looked up and
      updated by key, is a [gmap].
    - A call that can throw returns an [outcome]; inside the aggregator, where
      the only possible exception is a missing buffer, [None] stands for it
      (the state a method leaves behind when it throws is not tracked there;
      [Throwing] gives [forceFinalizeAll] with the exceptions of the finalize
      methods and of the listeners, and the state they leave behind).
    - In the aggregator a timeframe lasts a whole, positive number of seconds,
      and the instants of ticks lie inside the range of [Date] with a window
      to spare, so that a window start is always a date and
      [new Date(startTime).toISOString()] in the finalize methods does not
      throw; [positiveSeconds] and [datedOps] say so where a statement is
      about the calls returning.  Where the code turns a raw number into a
      date (normalizers, dispatcher) the range is checked. *)

From Stdlib Require Import ZArith Ascii String DecimalString DecimalZ DecimalPos.
From stdpp Require Import base option list strings gmap.

Local Open Scope string_scope.
Local Open Scope list_scope.
Local Open Scope Z_scope.

(** ** JavaScript primitives used by the sources *)

Module JS.

(** The completion of a call: a value, or an exception with its message. *)
Inductive outcome (A : Type) : Type :=
| Returned (a : A)
| Thrown (e : string).
Arguments Returned {A} a.
Arguments Thrown {A} e.

(** Truthiness of an optional number: [undefined], [null] and [0] are falsy. *)
Definition truthy_num (x : option Z) : bool :=
  match x with
  | Some v => negb (v =? 0)
  | None => false
  end.

(** Truthiness of an optional string: absent and the empty string are falsy. *)
Definition truthy_str (x : option string) : bool :=
  match x with
  | Some s => negb (String.eqb s "")
  | None => false
  end.

(** [a || b] on optional numbers. *)
Definition or_num (a b : option Z) : option Z :=
  if truthy_num a then a else b.

(** [x || 0] where a number is expected. *)
Definition or_zero (x : option Z) : Z :=
  match or_num x (Some 0) with
  | Some v => v
  | None => 0
  end.

(** [Array.prototype.slice(start)] with one argument: a negative [start]
    counts from the end, and both ends are clamped. *)
Definition Array_slice {A : Type} (l : list A) (start : Z) : list A :=
  let len := Z.of_nat (length l) in
  let k := if start <? 0 then Z.max (len + start) 0 else Z.min start len in
  drop (Z.to_nat k) l.

(** [s.startsWith(p)]. *)
Definition startsWith (s p : string) : bool := String.prefix p s.
Arguments startsWith : simpl never.

(** [String(n)] for an integer [n]: decimal digits, a leading [-] when
    negative. *)
Definition Number_toString (n : Z) : string :=
  NilZero.string_of_int (Z.to_int n).

(** The largest time value a [Date] holds; beyond it the date is invalid
    and [toISOString] throws a [RangeError]. *)
Definition Date_max : Z := 8640000000000000.

Definition Date_valid (t : Z) : bool :=
  (- Date_max <=? t) && (t <=? Date_max).

(** An insertion-ordered [Map] with string keys. *)
Definition Map (V : Type) : Type := list (string * V).

Fixpoint Map_get {V : Type} (m : Map V) (k : string) : option V :=
  match m with
  | [] => None
  | (k', v) :: m' => if String.eqb k' k then Some v else Map_get m' k
  end.

(** [set] keeps the position of a key that is already present and appends
    a new key at the end. *)
Fixpoint Map_set {V : Type} (m : Map V) (k : string) (v : V) : Map V :=
  match m with
  | [] => [(k, v)]
  | (k', v') :: m' =>
      if String.eqb k' k then (k', v) :: m' else (k', v') :: Map_set m' k v
  end.

Fixpoint Map_delete {V : Type} (m : Map V) (k : string) : Map V :=
  match m with
  | [] => []
  | (k', v') :: m' =>
      if String.eqb k' k then m' else (k', v') :: Map_delete m' k
  end.

Definition Map_keys {V : Type} (m : Map V) : list string := m.*1.

End JS.

Import JS.

(** ** Shared data types (types/index.ts) *)

Module Types.

(** A tick.  [ts] is the instant that the ISO string of the code denotes.
    [price] is a number that is an integer: fractions and [NaN] have no term
    of this type, and what depends on a [NaN] price is stated on
    [NumberCandleBuilder], whose prices are of type [number]. *)
Record NormalizedTick : Type := {
  ts : Z;
  price : Z;
  size : option Z;
  symbol : string;
  exchange : string
}.

Record Candle : Type := {
  datetime : Z;
  open : Z;
  high : Z;
  low : Z;
  close : Z;
  volume : option Z
}.

Record UnivariateDataPoint : Type := {
  dp_datetime : Z;
  dp_value : Z
}.

Record TimeframeConfig : Type := {
  seconds : Z;
  label : string;
  bufferSize : Z
}.

Inductive HealthStatus : Type :=
| connected
| disconnected
| error.

Record RateLimitInfo : Type := {
  remaining : Z;
  reset : string
}.

Record ConnectorHealth : Type := {
  status : HealthStatus;
  lastMessageTime : option Z;
  errorCount : Z;
  uptime : Z;
  rateLimitInfo : option RateLimitInfo
}.

End Types.

Import Types.

(** ** Rolling window buffer (core/buffer.ts, core/univariateBuffer.ts)

    [Buffer] and [UnivariateBuffer] are the same class up to the record type
    they hold; the embedding is written once over that type. *)

Module RollingBuffer.
Section WithRecord.
Context {Rec : Type}.

Record t : Type := {
  maxSize : Z;
  records : list Rec;
  timeframeLabel : string
}.

Definition new (maxSize : Z) (timeframeLabel : string) : t :=
  {| maxSize := maxSize; records := []; timeframeLabel := timeframeLabel |}.

(** [push]: append, then drop the oldest record when over capacity. *)
Definition push (b : t) (r : Rec) : t :=
  let pushed := records b ++ [r] in
  {| maxSize := maxSize b;
     records := if maxSize b <? Z.of_nat (length pushed)
                then tail pushed else pushed;
     timeframeLabel := timeframeLabel b |}.

Definition getAll (b : t) : list Rec := records b.

(** [getLast]: [slice(-count)] of the stored array; the array itself is
    not touched. *)
Definition getLast (b : t) (count : Z) : list Rec :=
  Array_slice (records b) (- count).

Definition size (b : t) : Z := Z.of_nat (length (records b)).

Definition isFull (b : t) : bool := maxSize b <=? size b.

Definition clear (b : t) : t :=
  {| maxSize := maxSize b; records := [];
     timeframeLabel := timeframeLabel b |}.

Definition getOldest (b : t) : option Rec := head (records b).

Definition getNewest (b : t) : option Rec := last (records b).

End WithRecord.
Arguments t Rec : clear implicits.
End RollingBuffer.

Definition Buffer : Type := RollingBuffer.t Candle.
Definition UnivariateBuffer : Type := RollingBuffer.t UnivariateDataPoint.

(** The records a reader expects from [getLast n]: the [min n size] most
    recent ones, oldest first. *)
Definition most_recent {Rec : Type} (n : Z) (l : list Rec) : list Rec :=
  drop (length l - Z.to_nat (Z.min n (Z.of_nat (length l)))) l.

(** ** Timeframe aggregators (core/candleBuilder.ts, core/univariateBuilder.ts)

    [CandleBuilder] and [UnivariateBuilder] are the same class up to the
    in-progress record: how it is created from the first tick of a window,
    how a further tick updates it, and what is pushed when it is finalized.
    The class is embedded once over these three operations and instantiated
    twice below. *)

(** A [for ... of] loop whose body can throw: the state after the last
    iteration, or [None] as soon as one iteration throws. *)
Fixpoint forEach {A S : Type} (body : A -> S -> option S) (l : list A) (s : S)
  : option S :=
  match l with
  | [] => Some s
  | x :: l' => s' ← body x s; forEach body l' s'
  end.

(** The in-progress entries that a timeframe's prefix test selects, and the
    others. *)
Definition matching {V : Type} (tf : TimeframeConfig) (m : Map V) : Map V :=
  List.filter (fun e => startsWith e.1 (label tf)) m.

Definition others {V : Type} (tf : TimeframeConfig) (m : Map V) : Map V :=
  List.filter (fun e => negb (startsWith e.1 (label tf))) m.

(** Pushing several records in turn. *)
Definition pushAll {Rec : Type} (b : RollingBuffer.t Rec) (rs : list Rec)
  : RollingBuffer.t Rec :=
  foldl RollingBuffer.push b rs.

Module Aggregator.
Section WithRecords.
Context {InProgress Rec : Type}.
(** [create tick windowStart timestamp]: the object literal of the
    [if (!candle)] branch. *)
Variable create : NormalizedTick -> Z -> Z -> InProgress.
(** [update candle tick timestamp]: the assignments of the [else] branch. *)
Variable update : InProgress -> NormalizedTick -> Z -> InProgress.
(** [finalize candle]: the record built by the finalize method. *)
Variable finalize : InProgress -> Rec.

(** [notified] logs, in order, the arguments with which every registered
    listener has been called. *)
Record t : Type := {
  buffers : gmap string (RollingBuffer.t Rec);
  inProgress : Map InProgress;
  timeframes : list TimeframeConfig;
  symbol : string;
  notified : list (Rec * string)
}.

Definition with_inProgress (st : t) (m : Map InProgress) : t :=
  {| buffers := buffers st; inProgress := m; timeframes := timeframes st;
     symbol := symbol st; notified := notified st |}.

Definition new (symbol : string) (timeframes : list TimeframeConfig) : t :=
  {| buffers :=
       foldl (fun bs tf =>
                <[label tf := RollingBuffer.new (bufferSize tf) (label tf)]> bs)
             ∅ timeframes;
     inProgress := [];
     timeframes := timeframes;
     symbol := symbol;
     notified := [] |}.

(** [Math.floor(timestamp / ms) * ms].  For 0 seconds the code divides by
    zero and the window start is [NaN], where [Z.div] gives 0: statements
    about whole runs ask for [positiveSeconds]. *)
Definition getWindowStart (timestamp : Z) (seconds : Z) : Z :=
  let ms := seconds * 1000 in
  Z.div timestamp ms * ms.

(** The key [`${tf.label}_${windowStart}`]. *)
Definition key (tf : TimeframeConfig) (windowStart : Z) : string :=
  label tf +:+ "_" +:+ Number_toString windowStart.

(** [this.buffers.get(tf.label)!] is [undefined] when no buffer has that
    label, and the push on it throws.  This is the code for a start time that
    is a date and listeners that return: before the push the code prints the
    start time with [toISOString], which throws a [RangeError] on any other
    time, and after the push it calls the listeners, one of which may throw.
    [Throwing.finalizeRecord] has both exceptions. *)
Definition finalizeRecord (st : t) (candle : InProgress) (tf : TimeframeConfig)
  : option t :=
  let final := finalize candle in
  buffer ← buffers st !! label tf;
  Some {| buffers := <[label tf := RollingBuffer.push buffer final]> (buffers st);
          inProgress := inProgress st;
          timeframes := timeframes st;
          symbol := symbol st;
          notified := notified st ++ [(final, label tf)] |}.

(** The body of the loop over the keys to evict, which [updateRecord] and
    [forceFinalizeAll] both contain: look the key up, finalize, delete. *)
Definition finalizeKey (tf : TimeframeConfig) (oldKey : string) (st : t)
  : option t :=
  oldCandle ← Map_get (inProgress st) oldKey;
  st' ← finalizeRecord st oldCandle tf;
  Some (with_inProgress st' (Map_delete (inProgress st') oldKey)).

(** [Array.from(map.keys()).filter(k => k.startsWith(tf.label))] *)
Definition keysOf (tf : TimeframeConfig) (st : t) : list string :=
  List.filter (fun k => startsWith k (label tf)) (Map_keys (inProgress st)).

Definition updateRecord (tick : NormalizedTick) (timestamp : Z)
    (tf : TimeframeConfig) (st : t) : option t :=
  let windowStart := getWindowStart timestamp (seconds tf) in
  let key := key tf windowStart in
  match Map_get (inProgress st) key with
  | None =>
      let existingKeys := keysOf tf st in
      st' ← forEach (finalizeKey tf) existingKeys st;
      Some (with_inProgress st'
              (Map_set (inProgress st') key (create tick windowStart timestamp)))
  | Some candle =>
      Some (with_inProgress st
              (Map_set (inProgress st) key (update candle tick timestamp)))
  end.

Definition addTick (tick : NormalizedTick) (st : t) : option t :=
  if negb (String.eqb (Types.symbol tick) (symbol st)) then Some st
  else
    let timestamp := ts tick in
    forEach (updateRecord tick timestamp) (timeframes st) st.

Definition forceFinalizeAll (st : t) : option t :=
  forEach (fun tf st => forEach (finalizeKey tf) (keysOf tf st) st)
          (timeframes st) st.

Definition getBuffer (st : t) (timeframeLabel : string)
  : option (RollingBuffer.t Rec) :=
  buffers st !! timeframeLabel.

(** The state the eviction loop of a timeframe leaves when the timeframe's
    buffer is [buf]: the selected entries are finalized into it, in map
    order, and removed from the map. *)
Definition evicted (tf : TimeframeConfig) (buf : RollingBuffer.t Rec) (st : t)
  : t :=
  let gone := map finalize (matching tf (inProgress st)).*2 in
  {| buffers := <[label tf := pushAll buf gone]> (buffers st);
     inProgress := others tf (inProgress st);
     timeframes := timeframes st;
     symbol := symbol st;
     notified := notified st ++ map (fun r => (r, label tf)) gone |}.

(** What a caller can do to an aggregator, and the states it can reach. *)
Inductive op : Type :=
| AddTick (tick : NormalizedTick)
| ForceFinalizeAll.

Definition step (o : op) (st : t) : option t :=
  match o with
  | AddTick tick => addTick tick st
  | ForceFinalizeAll => forceFinalizeAll st
  end.

Definition run (ops : list op) (st : t) : option t := forEach step ops st.

End WithRecords.
Arguments t InProgress Rec : clear implicits.
Arguments new {InProgress Rec} symbol timeframes.
End Aggregator.

Module CandleBuilder.

Record CandleInProgress : Type := {
  open : Z;
  high : Z;
  low : Z;
  close : Z;
  volume : Z;
  startTime : Z;
  lastUpdate : Z
}.

Definition create (tick : NormalizedTick) (windowStart timestamp : Z)
  : CandleInProgress :=
  {| open := price tick;
     high := price tick;
     low := price tick;
     close := price tick;
     volume := or_zero (size tick);
     startTime := windowStart;
     lastUpdate := timestamp |}.

Definition update (candle : CandleInProgress) (tick : NormalizedTick)
    (timestamp : Z) : CandleInProgress :=
  {| open := open candle;
     high := Z.max (high candle) (price tick);
     low := Z.min (low candle) (price tick);
     close := price tick;
     volume := volume candle + or_zero (size tick);
     startTime := startTime candle;
     lastUpdate := timestamp |}.

Definition finalize (candle : CandleInProgress) : Candle :=
  {| Types.datetime := startTime candle;
     Types.open := open candle;
     Types.high := high candle;
     Types.low := low candle;
     Types.close := close candle;
     Types.volume := Some (volume candle) |}.

Definition t : Type := Aggregator.t CandleInProgress Candle.

Definition new (symbol : string) (timeframes : list TimeframeConfig) : t :=
  Aggregator.new symbol timeframes.
Definition finalizeCandle : t -> CandleInProgress -> TimeframeConfig -> option t :=
  Aggregator.finalizeRecord finalize.
Definition updateCandle
  : NormalizedTick -> Z -> TimeframeConfig -> t -> option t :=
  Aggregator.updateRecord create update finalize.
Definition addTick : NormalizedTick -> t -> option t :=
  Aggregator.addTick create update finalize.
Definition forceFinalizeAll : t -> option t :=
  Aggregator.forceFinalizeAll finalize.
Definition getBuffer : t -> string -> option Buffer := Aggregator.getBuffer.
Definition run : list Aggregator.op -> t -> option t :=
  Aggregator.run create update finalize.

End CandleBuilder.

Module UnivariateBuilder.

Record DataPointInProgress : Type := {
  value : Z;
  startTime : Z;
  lastUpdate : Z;
  count : Z;
  sum : Z
}.

Definition create (tick : NormalizedTick) (windowStart timestamp : Z)
  : DataPointInProgress :=
  {| value := price tick;
     startTime := windowStart;
     lastUpdate := timestamp;
     count := 1;
     sum := price tick |}.

Definition update (dataPoint : DataPointInProgress) (tick : NormalizedTick)
    (timestamp : Z) : DataPointInProgress :=
  {| value := price tick;
     startTime := startTime dataPoint;
     lastUpdate := timestamp;
     count := count dataPoint + 1;
     sum := sum dataPoint + price tick |}.

Definition finalize (dataPoint : DataPointInProgress) : UnivariateDataPoint :=
  {| dp_datetime := startTime dataPoint;
     dp_value := value dataPoint |}.

Definition t : Type := Aggregator.t DataPointInProgress UnivariateDataPoint.

Definition new (symbol : string) (timeframes : list TimeframeConfig) : t :=
  Aggregator.new symbol timeframes.
Definition finalizeDataPoint
  : t -> DataPointInProgress -> TimeframeConfig -> option t :=
  Aggregator.finalizeRecord finalize.
Definition updateDataPoint
  : NormalizedTick -> Z -> TimeframeConfig -> t -> option t :=
  Aggregator.updateRecord create update finalize.
Definition addTick : NormalizedTick -> t -> option t :=
  Aggregator.addTick create update finalize.
Definition forceFinalizeAll : t -> option t :=
  Aggregator.forceFinalizeAll finalize.
Definition getBuffer : t -> string -> option UnivariateBuffer :=
  Aggregator.getBuffer.
Definition run : list Aggregator.op -> t -> option t :=
  Aggregator.run create update finalize.

End UnivariateBuilder.

(** *** Notions used to state the properties of the aggregators *)

(** A state in which every configured timeframe has its buffer, every
    in-progress record satisfies [goodIP] and every buffered record satisfies
    [goodRec]. *)
Definition invariant {InProgress Rec : Type} (goodIP : InProgress -> Prop)
    (goodRec : Rec -> Prop) (st : Aggregator.t InProgress Rec) : Prop :=
  (forall tf, tf ∈ Aggregator.timeframes st ->
              is_Some (Aggregator.buffers st !! label tf))
  /\ Forall (fun e => goodIP e.2) (Aggregator.inProgress st)
  /\ (forall l b, Aggregator.buffers st !! l = Some b ->
                  Forall goodRec (RollingBuffer.records b)).

(** The ordering the specification asks of a finalized candle, and the same
    ordering on a candle in progress. *)
Definition wellFormed (c : Candle) : Prop :=
  low c <= Z.min (open c) (close c)
  /\ Z.min (open c) (close c) <= Z.max (open c) (close c)
  /\ Z.max (open c) (close c) <= high c.

Definition wellFormedInProgress (c : CandleBuilder.CandleInProgress) : Prop :=
  CandleBuilder.low c <= Z.min (CandleBuilder.open c) (CandleBuilder.close c)
  /\ Z.max (CandleBuilder.open c) (CandleBuilder.close c)
     <= CandleBuilder.high c.

(** Two timeframes whose keys the prefix test cannot confuse: the label of
    the first is not a prefix of the second's label followed by the
    separator, nor the other way round. *)
Definition separated (a b : TimeframeConfig) : bool :=
  negb (startsWith (label b +:+ "_") (label a))
  && negb (startsWith (label a) (label b +:+ "_")).

(** A network in which two entries with the same label are the same
    timeframe and two entries with different labels are separated. *)
Definition network_ok (tfs : list TimeframeConfig) : bool :=
  forallb (fun a =>
             forallb (fun b =>
                        if String.eqb (label a) (label b)
                        then seconds a =? seconds b
                        else separated a b) tfs) tfs.

(** What the specification asks of the records of a buffer, [ms] being the
    timeframe's length in milliseconds: each consecutive pair is strictly
    increasing in time and a whole number of windows apart. *)
Definition ordered (ms : Z) (l : list Candle) : Prop :=
  forall i r1 r2,
    l !! i = Some r1 -> l !! S i = Some r2 ->
    datetime r1 < datetime r2 /\ (ms | datetime r2 - datetime r1).

(** The ticks arrive in window order for a timeframe: no tick of the
    aggregator's symbol falls in a window that starts before the window of
    the tick of that symbol before it ([last]). *)
Fixpoint windowsInOrder (symbol : string) (tf : TimeframeConfig)
    (last : option Z) (ticks : list NormalizedTick) : bool :=
  match ticks with
  | [] => true
  | tick :: ticks' =>
      if String.eqb (Types.symbol tick) symbol
      then
        let w := Aggregator.getWindowStart (ts tick) (seconds tf) in
        match last with
        | Some w0 => w0 <=? w
        | None => true
        end && windowsInOrder symbol tf (Some w) ticks'
      else windowsInOrder symbol tf last ticks'
  end.

(** The state of an aggregator as seen from one timeframe [tf] whose ticks
    arrive in window order, [w] being the window of the last tick taken:
    the timeframe's buffer is ordered and lies before [w], and exactly one
    candle, that of [w], is in progress for it. *)
Definition tracks (sym : string) (tfs : list TimeframeConfig)
    (tf : TimeframeConfig) (w : option Z) (st : CandleBuilder.t) : Prop :=
  Aggregator.timeframes st = tfs
  /\ Aggregator.symbol st = sym
  /\ (forall b, b ∈ tfs -> is_Some (Aggregator.buffers st !! label b))
  /\ exists buf,
      Aggregator.buffers st !! label tf = Some buf
      /\ ordered (seconds tf * 1000) (RollingBuffer.records buf)
      /\ Forall (fun c => (seconds tf * 1000 | datetime c))
                (RollingBuffer.records buf)
      /\ match w with
         | None =>
             matching tf (Aggregator.inProgress st) = []
             /\ RollingBuffer.records buf = []
         | Some ws =>
             (exists c,
                 matching tf (Aggregator.inProgress st)
                 = [(Aggregator.key tf ws, c)]
                 /\ CandleBuilder.startTime c = ws)
             /\ (seconds tf * 1000 | ws)
             /\ Forall (fun c => datetime c < ws) (RollingBuffer.records buf)
         end.

(** ** Tick normalizers *)

(** [new Date(ms).toISOString()]: the instant itself when the date is valid,
    a [RangeError] otherwise. *)
Definition toISOString_of_ms (ms : Z) : outcome Z :=
  if Date_valid ms then Returned ms else Thrown "RangeError: Invalid time value".

(** connectors/bloomberg/normalizer.ts *)
Module BloombergNormalizer.
Section WithDate.
(** [Date.parse]: the instant a date string denotes, [None] when the string
    is not a date. *)
Variable Date_parse : string -> option Z.

Record BloombergTickData : Type := {
  LAST_PRICE : option Z;
  BID : option Z;
  ASK : option Z;
  VOLUME : option Z;
  LAST_TRADE : option Z;
  TIME : option string
}.

(** [now] is the reading of the wall clock that [new Date()] takes. *)
Definition normalize (now : Z) (data : BloombergTickData) (security : string)
  : outcome (option NormalizedTick) :=
  let price :=
    or_num (or_num (or_num (LAST_TRADE data) (LAST_PRICE data)) (BID data))
           (ASK data) in
  match price with
  | None => Returned None
  | Some price =>
      let timestamp :=
        if truthy_str (TIME data)
        then match Date_parse (default "" (TIME data)) with
             | Some t => toISOString_of_ms t
             | None => Thrown "RangeError: Invalid time value"
             end
        else toISOString_of_ms now in
      match timestamp with
      | Thrown e => Thrown e
      | Returned timestamp =>
          Returned (Some {| ts := timestamp;
                            price := price;
                            size := VOLUME data;
                            symbol := security;
                            exchange := "bloomberg" |})
      end
  end.

End WithDate.
End BloombergNormalizer.

(** The price the specification asks of the subscription-session normalizer:
    the first field that is not null among LAST_TRADE, LAST_PRICE, BID, ASK. *)
Definition first_non_null (data : BloombergNormalizer.BloombergTickData)
  : option Z :=
  match BloombergNormalizer.LAST_TRADE data with
  | Some v => Some v
  | None =>
      match BloombergNormalizer.LAST_PRICE data with
      | Some v => Some v
      | None =>
          match BloombergNormalizer.BID data with
          | Some v => Some v
          | None => BloombergNormalizer.ASK data
          end
      end
  end.

(** connectors/accuweather/normalizer.ts *)
Module AccuWeatherNormalizer.
Section WithDate.
Variable Date_parse : string -> option Z.

Record MetricValue : Type := { Value : option Z; Unit : option string }.
Record TemperatureField : Type := { Metric : option MetricValue }.

Record AccuWeatherCurrentConditions : Type := {
  LocalObservationDateTime : option string;
  EpochTime : option Z;
  Temperature : option TemperatureField;
  RelativeHumidity : option Z
}.

(** [raw.Temperature?.Metric?.Value] *)
Definition temperature_value (raw : AccuWeatherCurrentConditions) : option Z :=
  t ← Temperature raw; m ← Metric t; Value m.

Definition normalize (now : Z) (raw : AccuWeatherCurrentConditions)
    (locationKey : string) : outcome (option NormalizedTick) :=
  if negb (truthy_num (temperature_value raw)) then Returned None
  else
    let timestamp :=
      if truthy_str (LocalObservationDateTime raw)
      then match Date_parse (default "" (LocalObservationDateTime raw)) with
           | Some t => toISOString_of_ms t
           | None => Thrown "RangeError: Invalid time value"
           end
      else if truthy_num (EpochTime raw)
      then toISOString_of_ms (default 0 (EpochTime raw) * 1000)
      else toISOString_of_ms now in
    match timestamp with
    | Thrown e => Thrown e
    | Returned timestamp =>
        Returned (Some {| ts := timestamp;
                          price := default 0 (temperature_value raw);
                          symbol := locationKey;
                          exchange := "accuweather";
                          size := RelativeHumidity raw |})
    end.

End WithDate.
End AccuWeatherNormalizer.

(** connectors/binance/normalizer.ts *)
Module BinanceNormalizer.
Section WithParse.
(** [parseFloat], taken as given. *)
Variable parseFloat : string -> Z.

(** The fields of a trade or aggregated-trade event that the normalizer
    reads; both interfaces declare them with the same types. *)
Record BinanceTradeData : Type := {
  e : string;
  s : string;
  p : string;
  q : string;
  T : Z
}.

Definition normalizeTrade (data : BinanceTradeData)
  : outcome (option NormalizedTick) :=
  if String.eqb (s data) "" || String.eqb (p data) "" || (T data =? 0)
  then Returned None
  else
    match toISOString_of_ms (T data) with
    | Thrown err => Thrown err
    | Returned timestamp =>
        Returned (Some {| ts := timestamp;
                          price := parseFloat (p data);
                          size := Some (parseFloat (q data));
                          symbol := s data;
                          exchange := "binance" |})
    end.

Definition normalizeAggTrade (data : BinanceTradeData)
  : outcome (option NormalizedTick) :=
  if String.eqb (s data) "" || String.eqb (p data) "" || (T data =? 0)
  then Returned None
  else
    match toISOString_of_ms (T data) with
    | Thrown err => Thrown err
    | Returned timestamp =>
        Returned (Some {| ts := timestamp;
                          price := parseFloat (p data);
                          size := Some (parseFloat (q data));
                          symbol := s data;
                          exchange := "binance" |})
    end.

(** [normalize] on a message that is an object. *)
Definition normalize (data : BinanceTradeData)
  : outcome (option NormalizedTick) :=
  if String.eqb (e data) "trade" then normalizeTrade data
  else if String.eqb (e data) "aggTrade" then normalizeAggTrade data
  else Returned None.

End WithParse.
End BinanceNormalizer.

(** connectors/polygon/normalizer.ts *)
Module PolygonNormalizer.

(** [pm_p] is [None] when the field is not of type number. *)
Record PolygonTradeMessage : Type := {
  pm_ev : string;
  pm_sym : string;
  pm_p : option Z;
  pm_s : option Z;
  pm_t : Z
}.

Definition normalize (raw : PolygonTradeMessage)
  : outcome (option NormalizedTick) :=
  if negb (String.eqb (pm_ev raw) "T") then Returned None
  else
    match pm_p raw with
    | None => Returned None
    | Some p =>
        if String.eqb (pm_sym raw) "" || (pm_t raw =? 0) then Returned None
        else
          match toISOString_of_ms (pm_t raw) with
          | Thrown err => Thrown err
          | Returned timestamp =>
              Returned (Some {| ts := timestamp;
                                price := p;
                                size := Some (or_zero (pm_s raw));
                                symbol := pm_sym raw;
                                exchange := "polygon" |})
          end
    end.

End PolygonNormalizer.

(** ** Connectors: health snapshots *)

(** [this.startTime ? Date.now() - this.startTime : 0] *)
Definition uptimeOf (startTime now : Z) : Z :=
  if startTime =? 0 then 0 else now - startTime.

(** [this.lastMessageTime || undefined] *)
Definition lastMessageOf (lastMessageTime : option Z) : option Z :=
  lastMessageTime.

(** connectors/binance/binanceConnector.ts *)
Module BinanceConnector.

Record t : Type := {
  candleBuilder : CandleBuilder.t;
  startTime : Z;
  errorCount : Z;
  lastMessageTime : option Z;
  isConnected : bool;
  messageCount : Z
}.

Definition health (this : t) (now : Z) : ConnectorHealth :=
  let uptime := uptimeOf (startTime this) now in
  Build_ConnectorHealth
    (if isConnected this then connected else disconnected)
    (lastMessageOf (lastMessageTime this))
    (errorCount this)
    uptime
    None.

End BinanceConnector.

(** connectors/polygon/polygonConnector.ts *)
Module PolygonConnector.

Record t : Type := {
  candleBuilder : CandleBuilder.t;
  startTime : Z;
  errorCount : Z;
  lastMessageTime : option Z;
  isConnected : bool
}.

Definition health (this : t) (now : Z) : ConnectorHealth :=
  let uptime := uptimeOf (startTime this) now in
  Build_ConnectorHealth
    (if isConnected this then connected else disconnected)
    (lastMessageOf (lastMessageTime this))
    (errorCount this)
    uptime
    None.

End PolygonConnector.

(** connectors/bloomberg/bloombergConnector.ts *)
Module BloombergConnector.

Record t : Type := {
  candleBuilder : CandleBuilder.t;
  startTime : Z;
  errorCount : Z;
  lastMessageTime : option Z;
  isConnected : bool;
  messageCount : Z
}.

Definition health (this : t) (now : Z) : ConnectorHealth :=
  let uptime := uptimeOf (startTime this) now in
  Build_ConnectorHealth
    (if isConnected this then connected else disconnected)
    (lastMessageOf (lastMessageTime this))
    (errorCount this)
    uptime
    None.

End BloombergConnector.

(** ** Polling-REST connector (accuweatherConnector.ts, pollingLoop.ts) *)

(** What the polling code reads of a [fetch] response.  [resp_body] is the
    result of [response.json()]: it throws on a body that is not JSON, and
    yields [None] for a JSON value that is not an array. *)
Record Response : Type := {
  resp_status : Z;
  resp_ok : bool;
  resp_statusText : string;
  resp_headers : list (string * string);
  resp_body : outcome (option (list AccuWeatherNormalizer.AccuWeatherCurrentConditions))
}.

Definition Headers_get (r : Response) (name : string) : option string :=
  Map_get (resp_headers r) name.

Definition Headers_has (r : Response) (name : string) : bool :=
  bool_decide (is_Some (Headers_get r name)).

Module AccuWeatherConnector.
Section WithEnvironment.
Variable Date_parse : string -> option Z.
(** [parseInt]; [None] is [NaN]. *)
Variable parseInt : string -> option Z.

(** [rateLimitRemaining] is [None] when it holds [NaN]. *)
Record t : Type := {
  univariateBuilder : UnivariateBuilder.t;
  locationKey : string;
  startTime : Z;
  errorCount : Z;
  lastMessageTime : option Z;
  isConnected : bool;
  rateLimitRemaining : option Z;
  rateLimitReset : option string;
  lastFetchedData : option AccuWeatherNormalizer.AccuWeatherCurrentConditions
}.

Definition with_rateLimit (this : t) (remaining : option Z)
    (reset : option string) : t :=
  {| univariateBuilder := univariateBuilder this;
     locationKey := locationKey this;
     startTime := startTime this;
     errorCount := errorCount this;
     lastMessageTime := lastMessageTime this;
     isConnected := isConnected this;
     rateLimitRemaining := remaining;
     rateLimitReset := reset;
     lastFetchedData := lastFetchedData this |}.

Definition with_errorCount (this : t) (n : Z) : t :=
  {| univariateBuilder := univariateBuilder this;
     locationKey := locationKey this;
     startTime := startTime this;
     errorCount := n;
     lastMessageTime := lastMessageTime this;
     isConnected := isConnected this;
     rateLimitRemaining := rateLimitRemaining this;
     rateLimitReset := rateLimitReset this;
     lastFetchedData := lastFetchedData this |}.

(** [fetchCurrentConditions], given the response that [fetch] resolves to. *)
Definition fetchCurrentConditions (this : t) (response : Response)
  : t * outcome AccuWeatherNormalizer.AccuWeatherCurrentConditions :=
  let remaining :=
    if Headers_has response "RateLimit-Remaining"
    then parseInt (match Headers_get response "RateLimit-Remaining" with
                   | Some h => if String.eqb h "" then "-1" else h
                   | None => "-1"
                   end)
    else rateLimitRemaining this in
  let reset :=
    if Headers_has response "RateLimit-Reset"
    then Headers_get response "RateLimit-Reset"
    else rateLimitReset this in
  let this := with_rateLimit this remaining reset in
  if resp_status response =? 429 then (this, Thrown "Rate limit exceeded")
  else if negb (resp_ok response)
  then (this, Thrown ("HTTP " +:+ Number_toString (resp_status response)
                        +:+ ": " +:+ resp_statusText response))
  else
    match resp_body response with
    | Thrown e => (this, Thrown e)
    | Returned None => (this, Thrown "Invalid response format")
    | Returned (Some []) => (this, Thrown "Invalid response format")
    | Returned (Some (first :: _)) => (this, Returned first)
    end.

Definition feedToCandleBuilder (this : t) (tick : NormalizedTick) : option t :=
  builder ← UnivariateBuilder.addTick tick (univariateBuilder this);
  Some {| univariateBuilder := builder;
          locationKey := locationKey this;
          startTime := startTime this;
          errorCount := errorCount this;
          lastMessageTime := Some (ts tick);
          isConnected := isConnected this;
          rateLimitRemaining := rateLimitRemaining this;
          rateLimitReset := rateLimitReset this;
          lastFetchedData := lastFetchedData this |}.

(** [onMessage]: anything thrown inside is caught and counted. *)
Definition onMessage (now : Z) (this : t)
    (raw : AccuWeatherNormalizer.AccuWeatherCurrentConditions) : t :=
  let this :=
    {| univariateBuilder := univariateBuilder this;
       locationKey := locationKey this;
       startTime := startTime this;
       errorCount := errorCount this;
       lastMessageTime := lastMessageTime this;
       isConnected := isConnected this;
       rateLimitRemaining := rateLimitRemaining this;
       rateLimitReset := rateLimitReset this;
       lastFetchedData := Some raw |} in
  match AccuWeatherNormalizer.normalize Date_parse now raw (locationKey this) with
  | Thrown _ => with_errorCount this (errorCount this + 1)
  | Returned None => this
  | Returned (Some tick) =>
      match feedToCandleBuilder this tick with
      | Some this' => this'
      | None =>
          with_errorCount
            {| univariateBuilder := univariateBuilder this;
               locationKey := locationKey this;
               startTime := startTime this;
               errorCount := errorCount this;
               lastMessageTime := Some (ts tick);
               isConnected := isConnected this;
               rateLimitRemaining := rateLimitRemaining this;
               rateLimitReset := rateLimitReset this;
               lastFetchedData := lastFetchedData this |}
            (errorCount this + 1)
      end
  end.

(** [poll]: one fetch; an error is counted and thrown again. *)
Definition poll (now : Z) (this : t) (response : Response) : t * outcome unit :=
  match fetchCurrentConditions this response with
  | (this, Returned data) => (onMessage now this data, Returned tt)
  | (this, Thrown e) => (with_errorCount this (errorCount this + 1), Thrown e)
  end.

Definition health (this : t) (now : Z) : ConnectorHealth :=
  let uptime := uptimeOf (startTime this) now in
  Build_ConnectorHealth
    (if isConnected this then connected else disconnected)
    (lastMessageOf (lastMessageTime this))
    (errorCount this)
    uptime
    (match rateLimitRemaining this with
     | Some remaining =>
         if 0 <=? remaining
         then Some {| remaining := remaining;
                      reset := match rateLimitReset this with
                               | Some r => if String.eqb r "" then "unknown" else r
                               | None => "unknown"
                               end |}
         else None
     | None => None
     end).

End WithEnvironment.
End AccuWeatherConnector.

Module PollingLoop.

Record PollingConfig : Type := {
  intervalMs : Z;
  maxRetries : option Z;
  retryDelayMs : option Z
}.

(** The constructor's [{ maxRetries: 3, retryDelayMs: 5000, ...config }]. *)
Definition new (config : PollingConfig) : PollingConfig :=
  {| intervalMs := intervalMs config;
     maxRetries := Some (default 3 (maxRetries config));
     retryDelayMs := Some (default 5000 (retryDelayMs config)) |}.

(** What the loop does that takes time, in order: a call of the poll
    function, a [sleep] between two attempts, and the [setTimeout] that
    schedules the next run of [poll]. *)
Inductive event : Type :=
| Attempt
| Sleep (ms : Z)
| SetTimeout (ms : Z).

Section WithPollFunction.
(** The state the poll function works on, and the poll function: its [n]-th
    call (from 0) is [pollFunction n]. *)
Context {W : Type}.
Variable pollFunction : nat -> W -> W * outcome unit.

(** The [for] loop of [pollWithRetry], with [fuel] iterations left to run;
    [calls] counts the calls of the poll function made so far. *)
Fixpoint retryLoop (config : PollingConfig) (fuel : nat) (attempt : Z)
    (calls : nat) (w : W) (lastError : option string)
  : W * list event * outcome unit :=
  match fuel with
  | O =>
      (w, [], match lastError with
              | Some e => Thrown e
              | None => Returned tt
              end)
  | S fuel' =>
      match pollFunction calls w with
      | (w', Returned _) => (w', [Attempt], Returned tt)
      | (w', Thrown e) =>
          let pause :=
            if attempt <? default 0 (maxRetries config) - 1
            then [Sleep (default 0 (retryDelayMs config))] else [] in
          let '(w'', events, result) :=
            retryLoop config fuel' (attempt + 1) (S calls) w' (Some e) in
          (w'', Attempt :: pause ++ events, result)
      end
  end.

Definition pollWithRetry (config : PollingConfig) (calls : nat) (w : W)
  : W * list event * outcome unit :=
  retryLoop config (Z.to_nat (default 0 (maxRetries config))) 0 calls w None.

(** One run of [poll] while the loop is running: [pollWithRetry], then, on
    success and on failure alike, the timer for the next run. *)
Definition poll (config : PollingConfig) (calls : nat) (w : W)
  : W * list event :=
  let '(w', events, _) := pollWithRetry config calls w in
  (w', events ++ [SetTimeout (intervalMs config)]).

End WithPollFunction.

(** The pause that separates the first attempt from whatever the loop does
    next: the second attempt of the same run, or the next run. *)
Definition delayAfterFirstAttempt (events : list event) : option Z :=
  match events with
  | Attempt :: Sleep ms :: _ => Some ms
  | Attempt :: SetTimeout ms :: _ => Some ms
  | _ => None
  end.

End PollingLoop.

(** ** Causal-API dispatcher (core/cilAdapter.ts, core/univariateAdapter.ts) *)

(** *** Rendering dates and numbers *)

Definition digit (d : Z) : ascii :=
  match d with
  | 0 => "0" | 1 => "1" | 2 => "2" | 3 => "3" | 4 => "4"
  | 5 => "5" | 6 => "6" | 7 => "7" | 8 => "8" | _ => "9"
  end%char.

(** The last [width] decimal digits of [n], zero-padded. *)
Fixpoint pad (width : nat) (n : Z) : string :=
  match width with
  | O => ""
  | S width' => pad width' (Z.div n 10) +:+ String (digit (Z.modulo n 10)) ""
  end.

(** Year, month and day of the proleptic Gregorian calendar for a count of
    days since 1970-01-01. *)
Definition civilFromDays (days : Z) : Z * Z * Z :=
  let z := days + 719468 in
  let era := Z.div z 146097 in
  let doe := z - era * 146097 in
  let yoe :=
    Z.div (doe - Z.div doe 1460 + Z.div doe 36524 - Z.div doe 146096) 365 in
  let doy := doe - (365 * yoe + Z.div yoe 4 - Z.div yoe 100) in
  let mp := Z.div (5 * doy + 2) 153 in
  let d := doy - Z.div (153 * mp + 2) 5 + 1 in
  let m := if mp <? 10 then mp + 3 else mp - 9 in
  let y := yoe + era * 400 + (if m <=? 2 then 1 else 0) in
  (y, m, d).

(** [Date.prototype.toISOString] on a valid time value:
    [YYYY-MM-DDTHH:mm:ss.sssZ], with a signed six-digit year outside
    0..9999. *)
Definition toISOString (ms : Z) : string :=
  let days := Z.div ms 86400000 in
  let rest := Z.modulo ms 86400000 in
  let '(y, m, d) := civilFromDays days in
  let year :=
    if (0 <=? y) && (y <=? 9999) then pad 4 y
    else (if y <? 0 then "-" else "+") +:+ pad 6 (Z.abs y) in
  year +:+ "-" +:+ pad 2 m +:+ "-" +:+ pad 2 d +:+ "T"
    +:+ pad 2 (Z.div rest 3600000) +:+ ":"
    +:+ pad 2 (Z.modulo (Z.div rest 60000) 60) +:+ ":"
    +:+ pad 2 (Z.modulo (Z.div rest 1000) 60) +:+ "."
    +:+ pad 3 (Z.modulo rest 1000) +:+ "Z".

(** [rows.join('\n')] *)
Definition newline : ascii := "010"%char.

Fixpoint join (rows : list string) : string :=
  match rows with
  | [] => ""
  | [r] => r
  | r :: rows' => r +:+ String newline (join rows')
  end.

(** The physical lines of a text: its pieces between line feeds. *)
Fixpoint lines_from (current : string) (s : string) : list string :=
  match s with
  | EmptyString => [current]
  | String c s' =>
      if Ascii.eqb c newline then current :: lines_from "" s'
      else lines_from (current +:+ String c "") s'
  end.

Definition lines (s : string) : list string := lines_from "" s.

(** *** The label grammar of [getTimeframeSeconds]: [/^(\d+)(s|m|h)$/] *)

Definition is_digit (c : ascii) : bool :=
  (48 <=? nat_of_ascii c)%nat && (nat_of_ascii c <=? 57)%nat.

Definition is_unit (c : ascii) : bool :=
  Ascii.eqb c "s" || Ascii.eqb c "m" || Ascii.eqb c "h".

(** Everything but the last character, and the last character. *)
Fixpoint split_last (s : string) : option (string * ascii) :=
  match s with
  | EmptyString => None
  | String c EmptyString => Some (EmptyString, c)
  | String c s' =>
      match split_last s' with
      | Some (d, u) => Some (String c d, u)
      | None => None
      end
  end.

(** The two groups of a match, [None] when the label does not match. *)
Definition label_match (label : string) : option (string * ascii) :=
  match split_last label with
  | Some (d, u) =>
      if negb (String.eqb d "")
         && forallb is_digit (list_ascii_of_string d)
         && is_unit u
      then Some (d, u) else None
  | None => None
  end.

(** [parseInt] on a string of decimal digits. *)
Definition parseDigits (d : string) : Z :=
  fold_left (fun acc c => acc * 10 + (Z.of_nat (nat_of_ascii c) - 48))
            (list_ascii_of_string d) 0.

Definition getTimeframeSeconds (label : string) : Z :=
  match label_match label with
  | None => 60
  | Some (d, unit) =>
      let value := parseDigits d in
      if Ascii.eqb unit "s" then value
      else if Ascii.eqb unit "m" then value * 60
      else if Ascii.eqb unit "h" then value * 3600
      else 60
  end.

(** [getNextDatetime]: the instant of the last record plus the seconds
    derived from the label; [toISOString] throws when the sum is not a valid
    date. *)
Definition getNextDatetime (lastDatetime : Z) (timeframeLabel : string)
  : outcome Z :=
  let timeframeSeconds := getTimeframeSeconds timeframeLabel in
  toISOString_of_ms (lastDatetime + timeframeSeconds * 1000).

Record CILResponse : Type := {
  r_datetime : string;
  chain_detected : Z;
  timestamp : option Z
}.

(** The two adapters are the same class up to the record type, the header
    line, how a record is printed, and the zeros of the placeholder row. *)
Module Dispatcher.
Section WithRecord.
Context {Rec : Type}.
Variable datetimeOf : Rec -> Z.
Variable header : string.
Variable row : Rec -> string.
Variable zeros : string.
(** The HTTP POST and the decoding of its JSON answer: the body received,
    or an exception (network failure, status outside 2xx, invalid JSON). *)
Variable post : string -> outcome CILResponse.

Record Config : Type := {
  apiUrl : string;
  apiKey : option string;
  rowCount : Z
}.

(** The constructor's [rowCount: config.rowCount || 5001]. *)
Definition new (config : Config) : Config :=
  {| apiUrl := apiUrl config;
     apiKey := apiKey config;
     rowCount := if rowCount config =? 0 then 5001 else rowCount config |}.

(** [buildCSVPayload]; reading [datetime] of the last record throws when
    there is no record. *)
Definition buildCSVPayload (records : list Rec) (timeframeLabel : string)
  : outcome string :=
  let rows := header :: map row records in
  match last records with
  | None => Thrown "TypeError: Cannot read properties of undefined"
  | Some lastRecord =>
      match getNextDatetime (datetimeOf lastRecord) timeframeLabel with
      | Thrown e => Thrown e
      | Returned nextDatetime =>
          Returned (join (rows ++ [toISOString nextDatetime +:+ zeros]))
      end
  end.

Definition parseResponse (now : Z) (response : CILResponse) : CILResponse :=
  {| r_datetime := r_datetime response;
     chain_detected := chain_detected response;
     timestamp := Some now |}.

(** [send]: the bodies posted, and the completion of the call. *)
Definition send (now : Z) (config : Config) (buffer : RollingBuffer.t Rec)
    (timeframeLabel : string) : list string * outcome (option CILResponse) :=
  let records := RollingBuffer.getLast buffer (rowCount config - 1) in
  if Z.of_nat (length records) <? rowCount config - 1 then ([], Returned None)
  else
    match buildCSVPayload records timeframeLabel with
    | Thrown e => ([], Thrown e)
    | Returned csvRows =>
        match post csvRows with
        | Returned response =>
            ([csvRows], Returned (Some (parseResponse now response)))
        | Thrown _ => ([csvRows], Returned None)
        end
    end.

End WithRecord.
Arguments Config : clear implicits.
End Dispatcher.

Module CILAdapter.

Definition header : string := "datetime,open,high,low,close".

(** The template literal of [buildCSVPayload].  It prints the datetime
    string of the record, which is [toISOString] of its instant when the
    record comes from an aggregator, and each number by the language's
    conversion to text, which is [Number_toString] for an integer of at most
    2^53 - 1 in size ([printsAsDigits]). *)
Definition row (candle : Candle) : string :=
  toISOString (datetime candle) +:+ "," +:+ Number_toString (open candle)
    +:+ "," +:+ Number_toString (high candle)
    +:+ "," +:+ Number_toString (low candle)
    +:+ "," +:+ Number_toString (close candle).

Definition zeros : string := ",0,0,0,0".

Definition buildCSVPayload : list Candle -> string -> outcome string :=
  Dispatcher.buildCSVPayload datetime header row zeros.

Definition sendToCIL (post : string -> outcome CILResponse)
  : Z -> Dispatcher.Config -> Buffer -> string
    -> list string * outcome (option CILResponse) :=
  Dispatcher.send datetime header row zeros post.

End CILAdapter.

Module UnivariateAdapter.

Definition header : string := "datetime,value".

(** As [CILAdapter.row], for [valuePrintsAsDigits]. *)
Definition row (dataPoint : UnivariateDataPoint) : string :=
  toISOString (dp_datetime dataPoint) +:+ ","
    +:+ Number_toString (dp_value dataPoint).

Definition zeros : string := ",0".

Definition buildCSVPayload
  : list UnivariateDataPoint -> string -> outcome string :=
  Dispatcher.buildCSVPayload dp_datetime header row zeros.

Definition sendToUnivariate (post : string -> outcome CILResponse)
  : Z -> Dispatcher.Config -> UnivariateBuffer -> string
    -> list string * outcome (option CILResponse) :=
  Dispatcher.send dp_datetime header row zeros post.

End UnivariateAdapter.

(** The poll function the polling-REST connector hands to its loop: the
    [n]-th call receives the [n]-th response of the service. *)
Definition accuweatherPoll (Date_parse : string -> option Z)
    (parseInt : string -> option Z) (now : Z) (responses : nat -> Response)
    (n : nat) (this : AccuWeatherConnector.t)
  : AccuWeatherConnector.t * outcome unit :=
  AccuWeatherConnector.poll Date_parse parseInt now this (responses n).

(** A text without a line feed. *)
Fixpoint no_newline (s : string) : bool :=
  match s with
  | EmptyString => true
  | String c s' => negb (Ascii.eqb c newline) && no_newline s'
  end.

(** ** Sample inputs *)

(** A tick, two timeframes, and an aggregator that has seen
    ticks in two windows. *)
Definition sampleTick (timestamp price : Z) : NormalizedTick :=
  {| ts := timestamp; price := price; size := Some 1;
     symbol := "BTCUSDT"; exchange := "binance" |}.

Definition tf1s : TimeframeConfig :=
  {| seconds := 1; label := "1s"; bufferSize := 5000 |}.

Definition tf5s : TimeframeConfig :=
  {| seconds := 5; label := "5s"; bufferSize := 5000 |}.

Definition sampleCandleBuilder : CandleBuilder.t :=
  default (CandleBuilder.new "BTCUSDT" [tf1s; tf5s])
    (CandleBuilder.run
       [Aggregator.AddTick (sampleTick 0 100);
        Aggregator.AddTick (sampleTick 300 101);
        Aggregator.AddTick (sampleTick 1200 105)]
       (CandleBuilder.new "BTCUSDT" [tf1s; tf5s])).

(** Two timeframes of which one label is a prefix of the other, and an
    aggregator over them that has seen one tick. *)
Definition tf1m : TimeframeConfig :=
  {| seconds := 60; label := "1m"; bufferSize := 5000 |}.

Definition tf1mo : TimeframeConfig :=
  {| seconds := 2592000; label := "1mo"; bufferSize := 5000 |}.

Definition monthlyBuilder : CandleBuilder.t :=
  default (CandleBuilder.new "BTCUSDT" [tf1m; tf1mo])
    (CandleBuilder.addTick (sampleTick 2592060000 100)
       (CandleBuilder.new "BTCUSDT" [tf1m; tf1mo])).

(** A daily timeframe, a buffer of two daily candles and a buffer of three
    minute candles. *)
Definition tf1d : TimeframeConfig :=
  {| seconds := 86400; label := "1d"; bufferSize := 5000 |}.

Definition candleAt (t : Z) : Candle :=
  {| datetime := t; open := 100; high := 110; low := 90; close := 105;
     volume := Some 12 |}.

Definition dailyBuffer : Buffer :=
  {| RollingBuffer.maxSize := 5000;
     RollingBuffer.records := [candleAt 0; candleAt 86400000];
     RollingBuffer.timeframeLabel := "1d" |}.

Definition minuteBuffer : Buffer :=
  {| RollingBuffer.maxSize := 5000;
     RollingBuffer.records :=
       [candleAt 1735725480000; candleAt 1735725540000;
        candleAt 1735725600000];
     RollingBuffer.timeframeLabel := "1m" |}.

Definition threeRows : Dispatcher.Config :=
  {| Dispatcher.apiUrl := "https://cil.example/v1";
     Dispatcher.apiKey := None;
     Dispatcher.rowCount := 3 |}.

Definition offline (body : string) : outcome CILResponse :=
  Thrown "TypeError: fetch failed".

(** The rate-limited response of the scenario: status 429, Retry-After 10. *)
Definition rateLimited : Response :=
  {| resp_status := 429;
     resp_ok := false;
     resp_statusText := "Too Many Requests";
     resp_headers := [("Retry-After", "10")];
     resp_body := Thrown "SyntaxError: Unexpected end of JSON input" |}.

Definition idleWeatherConnector : AccuWeatherConnector.t :=
  {| AccuWeatherConnector.univariateBuilder :=
       UnivariateBuilder.new "349727"
         [{| seconds := 60; label := "1m"; bufferSize := 5000 |}];
     AccuWeatherConnector.locationKey := "349727";
     AccuWeatherConnector.startTime := 1735725600000;
     AccuWeatherConnector.errorCount := 0;
     AccuWeatherConnector.lastMessageTime := None;
     AccuWeatherConnector.isConnected := true;
     AccuWeatherConnector.rateLimitRemaining := Some (-1);
     AccuWeatherConnector.rateLimitReset := None;
     AccuWeatherConnector.lastFetchedData := None |}.

(** ** Further code of the cited files *)

(** [Buffer.getOldestTimestamp] and [Buffer.getNewestTimestamp]: [null] on an
    empty buffer, else the datetime of the first and of the last record. *)
Definition getOldestTimestamp (b : Buffer) : option Z :=
  datetime <$> RollingBuffer.getOldest b.

Definition getNewestTimestamp (b : Buffer) : option Z :=
  datetime <$> RollingBuffer.getNewest b.

(** *** One timeframe on its own

    What [updateCandle] would do for a timeframe if it were alone: the
    candles it has finalized so far, oldest first, and the candle in
    progress.  A tick in the window of the candle in progress updates it;
    a tick in any other window finalizes it and opens a new one. *)
Definition laneStep (tf : TimeframeConfig)
    (lane : list Candle * option CandleBuilder.CandleInProgress)
    (tick : NormalizedTick)
  : list Candle * option CandleBuilder.CandleInProgress :=
  let w := Aggregator.getWindowStart (ts tick) (seconds tf) in
  match lane.2 with
  | Some c =>
      if CandleBuilder.startTime c =? w
      then (lane.1, Some (CandleBuilder.update c tick (ts tick)))
      else (lane.1 ++ [CandleBuilder.finalize c],
            Some (CandleBuilder.create tick w (ts tick)))
  | None => (lane.1, Some (CandleBuilder.create tick w (ts tick)))
  end.

(** The ticks an aggregator for [sym] takes. *)
Definition ticksOf (sym : string) (ticks : list NormalizedTick)
  : list NormalizedTick :=
  List.filter (fun tick => String.eqb (Types.symbol tick) sym) ticks.

Definition laneOf (sym : string) (tf : TimeframeConfig)
    (ticks : list NormalizedTick)
  : list Candle * option CandleBuilder.CandleInProgress :=
  foldl (laneStep tf) ([], None) (ticksOf sym ticks).

(** The entries of the in-progress map that hold a lane's candle. *)
Definition laneEntries (tf : TimeframeConfig)
    (current : option CandleBuilder.CandleInProgress)
  : Map CandleBuilder.CandleInProgress :=
  match current with
  | Some c => [(Aggregator.key tf (CandleBuilder.startTime c), c)]
  | None => []
  end.

(** An aggregator state that agrees with the lane of timeframe [tf]. *)
Definition follows (sym : string) (tfs : list TimeframeConfig)
    (tf : TimeframeConfig)
    (lane : list Candle * option CandleBuilder.CandleInProgress)
    (st : CandleBuilder.t) : Prop :=
  Aggregator.timeframes st = tfs
  /\ Aggregator.symbol st = sym
  /\ (forall b, b ∈ tfs -> is_Some (Aggregator.buffers st !! label b))
  /\ Aggregator.buffers st !! label tf
     = Some (pushAll (RollingBuffer.new (bufferSize tf) (label tf)) lane.1)
  /\ matching tf (Aggregator.inProgress st) = laneEntries tf lane.2.

(** The records for which the listeners have been called with a label. *)
Definition notifiedFor {Rec : Type} (l : string) (log : list (Rec * string))
  : list Rec :=
  map fst (List.filter (fun n => String.eqb n.2 l) log).

(** Every in-progress key begins with the label of a configured timeframe. *)
Definition keysConfigured {InProgress Rec : Type}
    (st : Aggregator.t InProgress Rec) : Prop :=
  Forall (fun e => exists tf, tf ∈ Aggregator.timeframes st
                              /\ startsWith e.1 (label tf) = true)
         (Aggregator.inProgress st).

(** Every buffer holds what results from pushing, into the buffer the
    constructor made, the records announced to the listeners under its
    label, in the order of the announcements. *)
Definition mirrorsListeners {InProgress Rec : Type}
    (initial : gmap string (RollingBuffer.t Rec))
    (st : Aggregator.t InProgress Rec) : Prop :=
  forall l,
    Aggregator.buffers st !! l
    = (fun b0 => pushAll b0 (notifiedFor l (Aggregator.notified st)))
        <$> initial !! l.

(** What holds of every state an aggregator reaches from its constructor. *)
Definition reachableFacts {InProgress Rec : Type}
    (initial : gmap string (RollingBuffer.t Rec))
    (st : Aggregator.t InProgress Rec) : Prop :=
  (forall tf, tf ∈ Aggregator.timeframes st ->
              is_Some (Aggregator.buffers st !! label tf))
  /\ keysConfigured st
  /\ mirrorsListeners initial st.

(** The price of the last tick of a run of ticks, and the like. *)
Definition lastTick (first : NormalizedTick) (rest : list NormalizedTick)
  : NormalizedTick :=
  List.last rest first.

(** [sendMultipleTimeframes] of the two adapters: the buffers are visited in
    the order of the map; a buffer below the threshold is skipped; the
    rejection of one [send] rejects the whole call, after the bodies posted so
    far.  [clock l] is the clock reading when the response for label [l] is
    parsed. *)
Fixpoint sendEach {Rec : Type}
    (send : RollingBuffer.t Rec -> string
            -> list string * outcome (option CILResponse))
    (rowCount : Z) (buffers : Map (RollingBuffer.t Rec))
    (results : Map (option CILResponse))
  : list string * outcome (Map (option CILResponse)) :=
  match buffers with
  | [] => ([], Returned results)
  | (timeframeLabel, buffer) :: rest =>
      if rowCount - 1 <=? RollingBuffer.size buffer then
        match send buffer timeframeLabel with
        | (posted, Returned result) =>
            let '(posted', out) :=
              sendEach send rowCount rest (Map_set results timeframeLabel result) in
            (posted ++ posted', out)
        | (posted, Thrown e) => (posted, Thrown e)
        end
      else sendEach send rowCount rest results
  end.

Definition CILAdapter_sendMultipleTimeframes
    (post : string -> outcome CILResponse) (clock : string -> Z)
    (config : Dispatcher.Config) (buffers : Map Buffer)
  : list string * outcome (Map (option CILResponse)) :=
  sendEach (fun buffer l => CILAdapter.sendToCIL post (clock l) config buffer l)
           (Dispatcher.rowCount config) buffers [].

Definition UnivariateAdapter_sendMultipleTimeframes
    (post : string -> outcome CILResponse) (clock : string -> Z)
    (config : Dispatcher.Config) (buffers : Map UnivariateBuffer)
  : list string * outcome (Map (option CILResponse)) :=
  sendEach (fun buffer l =>
              UnivariateAdapter.sendToUnivariate post (clock l) config buffer l)
           (Dispatcher.rowCount config) buffers [].

(** The buffers a batch sends: those holding at least [rowCount - 1]
    records. *)
Definition eligible {Rec : Type} (rowCount : Z)
    (buffers : Map (RollingBuffer.t Rec)) : Map (RollingBuffer.t Rec) :=
  List.filter (fun e => rowCount - 1 <=? RollingBuffer.size e.2) buffers.

(** Every buffer's last record is early enough for the placeholder's instant
    to be a date. *)
Definition placeholdersValid {Rec : Type} (datetimeOf : Rec -> Z)
    (buffers : Map (RollingBuffer.t Rec)) : Prop :=
  Forall (fun e =>
            forall lastRecord,
              last (RollingBuffer.records e.2) = Some lastRecord ->
              Date_valid (datetimeOf lastRecord
                          + getTimeframeSeconds e.1 * 1000) = true)
         buffers.

Definition emptyBuffer (l : string) : Buffer :=
  RollingBuffer.new 5000 l.

Definition oneRow : Dispatcher.Config :=
  {| Dispatcher.apiUrl := "https://cil.example/v1";
     Dispatcher.apiKey := None;
     Dispatcher.rowCount := 1 |}.

Definition accepted (body : string) : outcome CILResponse :=
  Returned {| r_datetime := "2025-01-01T10:01:00.000Z";
              chain_detected := 1;
              timestamp := None |}.

(** Three candle buffers, the second of them empty, and two univariate
    buffers. *)
Definition sampleCandleBuffers : Map Buffer :=
  [("1m", minuteBuffer); ("5m", emptyBuffer "5m"); ("1d", dailyBuffer)].

Definition sampleSeriesBuffers : Map UnivariateBuffer :=
  [("1h", {| RollingBuffer.maxSize := 100;
             RollingBuffer.records :=
               [{| dp_datetime := 0; dp_value := 21 |};
                {| dp_datetime := 3600000; dp_value := 22 |}];
             RollingBuffer.timeframeLabel := "1h" |});
   ("1d", RollingBuffer.new 100 "1d")].

(** Observations and trade messages used as examples. *)
Definition observation (temperature : Z)
  : AccuWeatherNormalizer.AccuWeatherCurrentConditions :=
  {| AccuWeatherNormalizer.LocalObservationDateTime := None;
     AccuWeatherNormalizer.EpochTime := Some 1735725600;
     AccuWeatherNormalizer.Temperature :=
       Some {| AccuWeatherNormalizer.Metric :=
                 Some {| AccuWeatherNormalizer.Value := Some temperature;
                         AccuWeatherNormalizer.Unit := Some "C" |} |};
     AccuWeatherNormalizer.RelativeHumidity := Some 40 |}.

Definition binanceTrade : BinanceNormalizer.BinanceTradeData :=
  {| BinanceNormalizer.e := "trade";
     BinanceNormalizer.s := "BTCUSDT";
     BinanceNormalizer.p := "100";
     BinanceNormalizer.q := "2";
     BinanceNormalizer.T := 1735725600000 |}.

Definition polygonTrade : PolygonNormalizer.PolygonTradeMessage :=
  {| PolygonNormalizer.pm_ev := "T";
     PolygonNormalizer.pm_sym := "AAPL";
     PolygonNormalizer.pm_p := Some 0;
     PolygonNormalizer.pm_s := None;
     PolygonNormalizer.pm_t := 1735725600000 |}.

(** The events of a run of [pollWithRetry] that makes [k] attempts: the
    attempts, each but the first preceded by a sleep of [retryDelayMs]. *)
Fixpoint retries (k : nat) (retryDelayMs : Z) : list PollingLoop.event :=
  match k with
  | O => []
  | S k' =>
      PollingLoop.Sleep retryDelayMs :: PollingLoop.Attempt
        :: retries k' retryDelayMs
  end.

Definition schedule (k : nat) (retryDelayMs : Z) : list PollingLoop.event :=
  match k with
  | O => []
  | S k' => PollingLoop.Attempt :: retries k' retryDelayMs
  end.

(** A rate-limited response that reports the quota left. *)
Definition quotaExhausted : Response :=
  {| resp_status := 429;
     resp_ok := false;
     resp_statusText := "Too Many Requests";
     resp_headers := [("RateLimit-Remaining", "0");
                      ("RateLimit-Reset", "1735729200")];
     resp_body := Thrown "SyntaxError: Unexpected end of JSON input" |}.

Definition parseCount (text : string) : option Z :=
  if String.eqb text "0" then Some 0
  else if String.eqb text "-1" then Some (-1)
  else None.

(** ** Subscriptions (connectors/bloomberg/subscriptionManager.ts) *)

(** An insertion-ordered [Map] with number keys. *)
Definition NumMap (V : Type) : Type := list (Z * V).

Fixpoint NumMap_get {V : Type} (m : NumMap V) (k : Z) : option V :=
  match m with
  | [] => None
  | (k', v) :: m' => if k' =? k then Some v else NumMap_get m' k
  end.

Fixpoint NumMap_set {V : Type} (m : NumMap V) (k : Z) (v : V) : NumMap V :=
  match m with
  | [] => [(k, v)]
  | (k', v') :: m' =>
      if k' =? k then (k', v) :: m' else (k', v') :: NumMap_set m' k v
  end.

Fixpoint NumMap_delete {V : Type} (m : NumMap V) (k : Z) : NumMap V :=
  match m with
  | [] => []
  | (k', v') :: m' => if k' =? k then m' else (k', v') :: NumMap_delete m' k
  end.

Module SubscriptionManager.

Record SecuritySubscription : Type := {
  security : string;
  fields : list string;
  options : Map string
}.

(** An element of the array [buildBloombergSubscriptions] returns. *)
Record Request : Type := {
  req_security : string;
  correlation : Z;
  req_fields : list string;
  req_options : Map string
}.

Record t : Type := {
  subscriptions : NumMap SecuritySubscription;
  nextCorrelationId : Z;
  securityToCorrelation : Map Z
}.

Definition new : t :=
  {| subscriptions := []; nextCorrelationId := 0; securityToCorrelation := [] |}.

(** [options || {}]: an object is truthy, so only a missing argument is
    replaced. *)
Definition addSubscription (this : t) (security : string)
    (fields : list string) (options : option (Map string)) : t * Z :=
  let correlationId := nextCorrelationId this in
  let subscription :=
    {| security := security; fields := fields;
       options := default [] options |} in
  ({| subscriptions :=
        NumMap_set (subscriptions this) correlationId subscription;
      nextCorrelationId := correlationId + 1;
      securityToCorrelation :=
        Map_set (securityToCorrelation this) security correlationId |},
   correlationId).

Definition getSubscription (this : t) (correlationId : Z)
  : option SecuritySubscription :=
  NumMap_get (subscriptions this) correlationId.

Definition getSecurityByCorrelation (this : t) (correlationId : Z)
  : option string :=
  match NumMap_get (subscriptions this) correlationId with
  | Some subscription => Some (security subscription)
  | None => None
  end.

(** [this.securityToCorrelation.get(security) || null]: the number 0 is
    falsy. *)
Definition getCorrelationBySecurity (this : t) (security : string) : option Z :=
  match Map_get (securityToCorrelation this) security with
  | Some correlationId =>
      if correlationId =? 0 then None else Some correlationId
  | None => None
  end.

Definition getAllSubscriptions (this : t) : list SecuritySubscription :=
  (subscriptions this).*2.

Definition buildBloombergSubscriptions (this : t) : list Request :=
  map (fun entry =>
         {| req_security := security entry.2;
            correlation := entry.1;
            req_fields := fields entry.2;
            req_options := options entry.2 |})
      (subscriptions this).

Definition removeSubscription (this : t) (security : string) : t * bool :=
  match Map_get (securityToCorrelation this) security with
  | None => (this, false)
  | Some correlationId =>
      ({| subscriptions := NumMap_delete (subscriptions this) correlationId;
          nextCorrelationId := nextCorrelationId this;
          securityToCorrelation :=
            Map_delete (securityToCorrelation this) security |},
       true)
  end.

Definition clear (this : t) : t := new.

Definition size (this : t) : Z := Z.of_nat (length (subscriptions this)).

(** What a caller can do to a manager. *)
Inductive op : Type :=
| Add (security : string) (fields : list string) (options : option (Map string))
| Remove (security : string)
| Clear.

Definition step (this : t) (o : op) : t :=
  match o with
  | Add security fields options => (addSubscription this security fields options).1
  | Remove security => (removeSubscription this security).1
  | Clear => clear this
  end.

Definition run (ops : list op) (this : t) : t := foldl step this ops.

End SubscriptionManager.

(** [BloombergConnector.addSecuritySubscription] (connectors/bloomberg/
    bloombergConnector.ts): the manager afterwards and the requests passed to
    [session.subscribe].  [configFields] is [this.config.fields];
    [hasSession] tells whether [getSession()] returns a session. *)
Definition addSecuritySubscription (configFields : list string)
    (isConnected hasSession : bool) (manager : SubscriptionManager.t)
    (security : string) (fields : option (list string))
  : SubscriptionManager.t * list (list SubscriptionManager.Request) :=
  let fieldsToUse := default configFields fields in
  let manager' :=
    (SubscriptionManager.addSubscription manager security fieldsToUse None).1 in
  if isConnected && hasSession then
    match SubscriptionManager.getCorrelationBySecurity manager' security with
    | Some correlationId =>
        (manager',
         [[{| SubscriptionManager.req_security := security;
              SubscriptionManager.correlation := correlationId;
              SubscriptionManager.req_fields := fieldsToUse;
              SubscriptionManager.req_options := [] |}]])
    | None => (manager', [])
    end
  else (manager', []).

(** What every manager reached from the constructor satisfies. *)
Definition consistent (this : SubscriptionManager.t) : Prop :=
  0 <= SubscriptionManager.nextCorrelationId this
  /\ Forall (fun entry => 0 <= entry.1 < SubscriptionManager.nextCorrelationId this)
            (SubscriptionManager.subscriptions this)
  /\ NoDup (SubscriptionManager.subscriptions this).*1
  /\ NoDup (Map_keys (SubscriptionManager.securityToCorrelation this))
  /\ (forall security correlationId,
         Map_get (SubscriptionManager.securityToCorrelation this) security
         = Some correlationId ->
         SubscriptionManager.getSecurityByCorrelation this correlationId
         = Some security).

(** ** Reconnection (connectors/polygon/websocketClient.ts,
    connectors/binance/websocketClient.ts)

    Of a client, the fields that [scheduleReconnect] reads and writes.  A
    call returns the delay of the timer it arms, if it arms one. *)
Module PolygonWebSocketClient.

Record t : Type := { reconnectAttempts : Z }.

Definition maxReconnectAttempts : Z := 10.
Definition reconnectDelay : Z := 1000.

Definition new : t := {| reconnectAttempts := 0 |}.

(** The handler of ['open']. *)
Definition onOpen (this : t) : t := {| reconnectAttempts := 0 |}.

Definition scheduleReconnect (this : t) : t * option Z :=
  if maxReconnectAttempts <=? reconnectAttempts this then (this, None)
  else
    let delay :=
      Z.min (reconnectDelay * 2 ^ reconnectAttempts this) 60000 in
    ({| reconnectAttempts := reconnectAttempts this + 1 |}, Some delay).

(** [k] times in a row, the socket closes and the reconnection that was
    scheduled, if any, fails: the delays of the timers armed. *)
Fixpoint closes (k : nat) (this : t) : t * list Z :=
  match k with
  | O => (this, [])
  | S k' =>
      let '(this', delay) := scheduleReconnect this in
      let '(this'', delays) := closes k' this' in
      (this'', option_list delay ++ delays)
  end.

End PolygonWebSocketClient.

Module BinanceWebSocketClient.

Record Config : Type := {
  reconnectDelay : option Z;
  maxReconnectAttempts : option Z
}.

(** The constructor's defaults. *)
Definition newConfig (config : Config) : Config :=
  {| reconnectDelay := Some (default 5000 (reconnectDelay config));
     maxReconnectAttempts := Some (default 10 (maxReconnectAttempts config)) |}.

(** [reconnectTimer] tells whether a reconnection timer is pending. *)
Record t : Type := { reconnectAttempts : Z; reconnectTimer : bool }.

Definition new : t := {| reconnectAttempts := 0; reconnectTimer := false |}.

Definition onOpen (this : t) : t :=
  {| reconnectAttempts := 0; reconnectTimer := reconnectTimer this |}.

Definition scheduleReconnect (config : Config) (this : t) : t * option Z :=
  if reconnectTimer this then (this, None)
  else if default 0 (maxReconnectAttempts config) <=? reconnectAttempts this
  then (this, None)
  else
    let delay :=
      Z.min (default 0 (reconnectDelay config) * 2 ^ reconnectAttempts this)
            60000 in
    ({| reconnectAttempts := reconnectAttempts this + 1;
        reconnectTimer := true |}, Some delay).

(** The timer's callback, before it calls [connect]. *)
Definition timerFires (this : t) : t :=
  {| reconnectAttempts := reconnectAttempts this; reconnectTimer := false |}.

(** [k] times in a row, the socket closes and the reconnection that was
    scheduled, if any, is attempted and fails. *)
Fixpoint closes (config : Config) (k : nat) (this : t) : t * list Z :=
  match k with
  | O => (this, [])
  | S k' =>
      let '(this', delay) := scheduleReconnect config this in
      let this' := match delay with
                   | Some _ => timerFires this'
                   | None => this'
                   end in
      let '(this'', delays) := closes config k' this' in
      (this'', option_list delay ++ delays)
  end.

End BinanceWebSocketClient.

(** The first [k] delays of the exponential backoff from [base], capped at
    one minute, [limit] of them at most. *)
Definition backoff (base limit : Z) (k : nat) : list Z :=
  map (fun i => Z.min (base * 2 ^ Z.of_nat i) 60000)
      (seq 0 (Nat.min k (Z.to_nat limit))).

(** ** REST backfill (connectors/polygon/restBackfill.ts) *)
Module PolygonRESTBackfill.

(** What [fetchWithRetry] reads of a response; [bf_json] is the result of
    [response.json()]. *)
Record Response (Body : Type) : Type := {
  bf_status : Z;
  bf_ok : bool;
  bf_statusText : string;
  bf_retryAfter : option string;
  bf_json : outcome Body
}.
Arguments bf_status {Body} _.
Arguments bf_ok {Body} _.
Arguments bf_statusText {Body} _.
Arguments bf_retryAfter {Body} _.
Arguments bf_json {Body} _.

(** What a call of [fetch] does: it rejects, or it resolves to a response. *)
Inductive fetched (Body : Type) : Type :=
| Rejected (e : string)
| Resolved (response : Response Body).
Arguments Rejected {Body} e.
Arguments Resolved {Body} response.

(** What [fetchWithRetry] does that takes time; the delay of a sleep is
    [None] when it is [NaN]. *)
Inductive event : Type :=
| Fetch
| Sleep (ms : option Z).

Section WithService.
Context {Body : Type}.
(** [parseInt]; [None] is [NaN]. *)
Variable parseInt : string -> option Z.
(** The [n]-th call of [fetch] (from 0) has the result [service n]. *)
Variable service : nat -> fetched Body.

(** [retryAfter ? parseInt(retryAfter) * 1000 : 5000] *)
Definition rateLimitDelay (response : Response Body) : option Z :=
  if truthy_str (bf_retryAfter response)
  then (fun seconds => seconds * 1000)
         <$> parseInt (default "" (bf_retryAfter response))
  else Some 5000.

(** The [for] loop of [fetchWithRetry], with [fuel] iterations left. *)
Fixpoint retryLoop (maxRetries : Z) (fuel : nat) (attempt : Z) (calls : nat)
    (lastError : option string) : list event * outcome Body :=
  match fuel with
  | O => ([], Thrown (default "Unknown error during backfill" lastError))
  | S fuel' =>
      let caught (e : string) :=
        let pause :=
          if attempt <? maxRetries - 1
          then [Sleep (Some (1000 * 2 ^ attempt))] else [] in
        let '(events, result) :=
          retryLoop maxRetries fuel' (attempt + 1) (S calls) (Some e) in
        (Fetch :: pause ++ events, result) in
      match service calls with
      | Rejected e => caught e
      | Resolved response =>
          if bf_status response =? 429 then
            let '(events, result) :=
              retryLoop maxRetries fuel' (attempt + 1) (S calls) lastError in
            (Fetch :: Sleep (rateLimitDelay response) :: events, result)
          else if negb (bf_ok response) then
            caught ("HTTP " +:+ Number_toString (bf_status response)
                      +:+ ": " +:+ bf_statusText response)
          else
            match bf_json response with
            | Returned body => ([Fetch], Returned body)
            | Thrown e => caught e
            end
      end
  end.

(** [fetchWithRetry(url, maxRetries)], when [calls] calls of [fetch] have
    been made before. *)
Definition fetchWithRetry (maxRetries : Z) (calls : nat)
  : list event * outcome Body :=
  retryLoop maxRetries (Z.to_nat maxRetries) 0 calls None.

End WithService.

(** An element of [response.results], for a service that sends each of
    these fields as a number, as [null], or not at all.  [r_price] is [None]
    when the field is not a number, [r_size] when it is missing or [null].
    The two times are [None] when the field is missing; a time sent as
    [null] is [Some 0], since [null] acts as the number 0 in both places
    where the code reads a time: [null || x] is [x], as [0 || x] is, and
    [null + 1] is 1. *)
Record Result : Type := {
  r_price : option Z;
  r_size : option Z;
  sip_timestamp : option Z;
  participant_timestamp : option Z
}.

(** The object literal that [fetchTradesInRange] builds of a result; a
    missing time is 0, which the normalizer drops like a missing one. *)
Definition toTrade (symbol : string) (r : Result)
  : PolygonNormalizer.PolygonTradeMessage :=
  {| PolygonNormalizer.pm_ev := "T";
     PolygonNormalizer.pm_sym := symbol;
     PolygonNormalizer.pm_p := r_price r;
     PolygonNormalizer.pm_s := r_size r;
     PolygonNormalizer.pm_t :=
       default 0 (or_num (sip_timestamp r) (participant_timestamp r)) |}.

(** The [while] loop of [fetchTradesInRange].  [page n current] is what the
    [n]-th call of [fetchWithRetry] comes to, made for the trades from
    [current] on: an exception, or the [results] of the response, [None]
    when the response has none.  [fuel] bounds the number of further
    iterations; the result is [None] when it does not suffice.  A last result
    without [sip_timestamp] makes the next timestamp [undefined + 1], that is
    [NaN], which ends the loop; a last result whose [sip_timestamp] is [null]
    ([Some 0]) makes it 1, from which the loop goes on. *)
Fixpoint fetchTradesLoop (page : nat -> Z -> outcome (option (list Result)))
    (symbol : string) (toTimestamp : Z) (fuel : nat) (n : nat)
    (currentTimestamp : Z)
    (allTrades : list PolygonNormalizer.PolygonTradeMessage)
  : option (outcome (list PolygonNormalizer.PolygonTradeMessage)) :=
  if currentTimestamp <? toTimestamp then
    match page n currentTimestamp with
    | Thrown e => Some (Thrown e)
    | Returned None => Some (Returned allTrades)
    | Returned (Some []) => Some (Returned allTrades)
    | Returned (Some (first :: rest)) =>
        let results := first :: rest in
        let allTrades := allTrades ++ map (toTrade symbol) results in
        if Z.of_nat (length results) <? 50000 then Some (Returned allTrades)
        else
          match sip_timestamp (List.last rest first) with
          | None => Some (Returned allTrades)
          | Some sip =>
              match fuel with
              | O => None
              | S fuel' =>
                  fetchTradesLoop page symbol toTimestamp fuel' (S n) (sip + 1)
                    allTrades
              end
          end
    end
  else Some (Returned allTrades).

Definition fetchTradesInRange (page : nat -> Z -> outcome (option (list Result)))
    (symbol : string) (fromTimestamp toTimestamp : Z) (fuel : nat)
  : option (outcome (list PolygonNormalizer.PolygonTradeMessage)) :=
  fetchTradesLoop page symbol toTimestamp fuel 0 fromTimestamp [].

(** [trades.map(normalize).filter(tick => tick !== null)]: the first
    exception ends the whole expression. *)
Fixpoint normalizeAll (trades : list PolygonNormalizer.PolygonTradeMessage)
  : outcome (list NormalizedTick) :=
  match trades with
  | [] => Returned []
  | trade :: rest =>
      match PolygonNormalizer.normalize trade with
      | Thrown e => Thrown e
      | Returned tick =>
          match normalizeAll rest with
          | Thrown e => Thrown e
          | Returned ticks => Returned (option_list tick ++ ticks)
          end
      end
  end.

(** [Array.prototype.sort] with the comparator [a.ts - b.ts]: the sort is
    stable, so its result is that of inserting the elements one by one, from
    the last to the first, each before the first element that is later. *)
Fixpoint insertByTs (tick : NormalizedTick) (sorted : list NormalizedTick)
  : list NormalizedTick :=
  match sorted with
  | [] => [tick]
  | first :: rest =>
      if ts tick <=? ts first then tick :: sorted
      else first :: insertByTs tick rest
  end.

Definition sortByTs (ticks : list NormalizedTick) : list NormalizedTick :=
  foldr insertByTs [] ticks.

(** [backfillTrades], given what [fetchTradesInRange] comes to: the trades
    it returns, or the exception it throws. *)
Definition backfillTrades (fromTimestamp toTimestamp : Z)
    (trades : outcome (list PolygonNormalizer.PolygonTradeMessage))
  : outcome (list NormalizedTick) :=
  match toISOString_of_ms fromTimestamp, toISOString_of_ms toTimestamp with
  | Thrown e, _ => Thrown e
  | _, Thrown e => Thrown e
  | Returned _, Returned _ =>
      match trades with
      | Thrown _ => Returned []
      | Returned trades =>
          match normalizeAll trades with
          | Thrown _ => Returned []
          | Returned ticks => Returned (sortByTs ticks)
          end
      end
  end.

End PolygonRESTBackfill.

(** A service that answers every request with status 429 and asks for ten
    seconds, and one that does so once and then answers. *)
Definition busy {Body : Type} : PolygonRESTBackfill.Response Body :=
  {| PolygonRESTBackfill.bf_status := 429;
     PolygonRESTBackfill.bf_ok := false;
     PolygonRESTBackfill.bf_statusText := "Too Many Requests";
     PolygonRESTBackfill.bf_retryAfter := Some "10";
     PolygonRESTBackfill.bf_json :=
       Thrown "SyntaxError: Unexpected end of JSON input" |}.

Definition alwaysBusy (n : nat) : PolygonRESTBackfill.fetched Z :=
  PolygonRESTBackfill.Resolved busy.

Definition busyOnce (n : nat) : PolygonRESTBackfill.fetched Z :=
  match n with
  | O => PolygonRESTBackfill.Resolved busy
  | _ =>
      PolygonRESTBackfill.Resolved
        {| PolygonRESTBackfill.bf_status := 200;
           PolygonRESTBackfill.bf_ok := true;
           PolygonRESTBackfill.bf_statusText := "OK";
           PolygonRESTBackfill.bf_retryAfter := None;
           PolygonRESTBackfill.bf_json := Returned 42 |}
  end.

Definition parseSeconds (text : string) : option Z :=
  if String.eqb text "10" then Some 10 else None.

(** No tick is followed, however far behind, by an earlier one. *)
Fixpoint inTimeOrder (ticks : list NormalizedTick) : Prop :=
  match ticks with
  | [] => True
  | first :: rest => Forall (fun later => ts first <= ts later) rest
                     /\ inTimeOrder rest
  end.

(** Trades as a backfill returns them, the later one first. *)
Definition backfilled : list PolygonNormalizer.PolygonTradeMessage :=
  [PolygonRESTBackfill.toTrade "AAPL"
     {| PolygonRESTBackfill.r_price := Some 190;
        PolygonRESTBackfill.r_size := Some 5;
        PolygonRESTBackfill.sip_timestamp := Some 1735725660000;
        PolygonRESTBackfill.participant_timestamp := None |};
   PolygonRESTBackfill.toTrade "AAPL"
     {| PolygonRESTBackfill.r_price := Some 189;
        PolygonRESTBackfill.r_size := None;
        PolygonRESTBackfill.sip_timestamp := None;
        PolygonRESTBackfill.participant_timestamp := Some 1735725600000 |};
   PolygonRESTBackfill.toTrade "AAPL"
     {| PolygonRESTBackfill.r_price := Some 191;
        PolygonRESTBackfill.r_size := Some 1;
        PolygonRESTBackfill.sip_timestamp := None;
        PolygonRESTBackfill.participant_timestamp := None |}].

(** A service that answers a request for the trades from [current] on with
    a full page of 50000 trades, all made at [current]. *)
Definition tradeAt (current : Z) : PolygonRESTBackfill.Result :=
  {| PolygonRESTBackfill.r_price := Some 190;
     PolygonRESTBackfill.r_size := Some 5;
     PolygonRESTBackfill.sip_timestamp := Some current;
     PolygonRESTBackfill.participant_timestamp := None |}.

Definition fullPage (n : nat) (current : Z)
  : outcome (option (list PolygonRESTBackfill.Result)) :=
  Returned (Some (tradeAt current :: replicate (Z.to_nat 49999) (tradeAt current))).

(** A service whose trades carry [null] for [sip_timestamp] and their time
    in [participant_timestamp], and which answers with full pages. *)
Definition nullSipTrade : PolygonRESTBackfill.Result :=
  {| PolygonRESTBackfill.r_price := Some 190;
     PolygonRESTBackfill.r_size := Some 5;
     PolygonRESTBackfill.sip_timestamp := Some 0;
     PolygonRESTBackfill.participant_timestamp := Some 1735725600000 |}.

Definition nullSipPage (n : nat) (current : Z)
  : outcome (option (list PolygonRESTBackfill.Result)) :=
  Returned (Some (nullSipTrade :: replicate (Z.to_nat 49999) nullSipTrade)).

(** ** Where the aggregator model stands for the code

    The model of the aggregators takes three things as given, which the
    statements about whole runs say when they need them: the timeframes have
    positive seconds (for 0 seconds the code's window start is [NaN], which
    [Z.div] does not give); the time of a tick and the start of each of its
    windows are instants of the Date range (the code's [toISOString] throws a
    [RangeError] on any other); and the registered listeners return. *)
Definition positiveSeconds (timeframes : list TimeframeConfig) : bool :=
  forallb (fun tf => 0 <? seconds tf) timeframes.

Definition datedTick (timeframes : list TimeframeConfig) (tick : NormalizedTick)
  : bool :=
  Date_valid (ts tick)
  && forallb (fun tf =>
                Date_valid (Aggregator.getWindowStart (ts tick) (seconds tf)))
             timeframes.

Definition datedOps (timeframes : list TimeframeConfig)
    (ops : list Aggregator.op) : bool :=
  forallb (fun o =>
             match o with
             | Aggregator.AddTick tick => datedTick timeframes tick
             | Aggregator.ForceFinalizeAll => true
             end) ops.

(** Every record in progress starts at an instant of the Date range. *)
Definition datedStarts {InProgress Rec : Type} (startOf : InProgress -> Z)
    (st : Aggregator.t InProgress Rec) : Prop :=
  Forall (fun e => Date_valid (startOf e.2) = true) (Aggregator.inProgress st).

(** ** [forceFinalizeAll] with what can throw in it
    (core/candleBuilder.ts, core/univariateBuilder.ts)

    The finalize method converts the start time to an ISO string first, a
    [RangeError] when the start time is not a date; it then pushes the record
    and calls the listeners, and only after it has returned does the caller
    delete the entry.  An exception ends the call and leaves the aggregator
    as the statements before it made it: the result is the aggregator after
    the call together with how the call ended.  [listeners final label] is
    how [this.listeners.forEach(...)] ends for these arguments. *)
Module Throwing.
Section WithListeners.
Context {InProgress Rec : Type}.
Variable startOf : InProgress -> Z.
Variable finalize : InProgress -> Rec.
Variable listeners : Rec -> string -> outcome unit.

Local Abbreviation state := (Aggregator.t InProgress Rec).

Definition finalizeRecord (st : state) (candle : InProgress)
    (tf : TimeframeConfig) : state * outcome unit :=
  match toISOString_of_ms (startOf candle) with
  | Thrown e => (st, Thrown e)
  | Returned _ =>
      let final := finalize candle in
      match Aggregator.buffers st !! label tf with
      | None => (st, Thrown "TypeError: Cannot read properties of undefined")
      | Some buffer =>
          ({| Aggregator.buffers :=
                <[label tf := RollingBuffer.push buffer final]>
                  (Aggregator.buffers st);
              Aggregator.inProgress := Aggregator.inProgress st;
              Aggregator.timeframes := Aggregator.timeframes st;
              Aggregator.symbol := Aggregator.symbol st;
              Aggregator.notified :=
                Aggregator.notified st ++ [(final, label tf)] |},
           listeners final (label tf))
      end
  end.

(** The loop over the keys of one timeframe. *)
Fixpoint finalizeKeys (tf : TimeframeConfig) (keys : list string) (st : state)
  : state * outcome unit :=
  match keys with
  | [] => (st, Returned tt)
  | key :: keys' =>
      match Map_get (Aggregator.inProgress st) key with
      | None => (st, Thrown "TypeError: Cannot read properties of undefined")
      | Some candle =>
          match finalizeRecord st candle tf with
          | (st', Thrown e) => (st', Thrown e)
          | (st', Returned _) =>
              finalizeKeys tf keys'
                (Aggregator.with_inProgress st'
                   (Map_delete (Aggregator.inProgress st') key))
          end
      end
  end.

(** The loop over the timeframes. *)
Fixpoint passes (timeframes : list TimeframeConfig) (st : state)
  : state * outcome unit :=
  match timeframes with
  | [] => (st, Returned tt)
  | tf :: timeframes' =>
      match finalizeKeys tf (Aggregator.keysOf tf st) st with
      | (st', Thrown e) => (st', Thrown e)
      | (st', Returned _) => passes timeframes' st'
      end
  end.

Definition forceFinalizeAll (st : state) : state * outcome unit :=
  passes (Aggregator.timeframes st) st.

End WithListeners.
End Throwing.

(** The two aggregators' [forceFinalizeAll] with listeners. *)
Definition CandleBuilder_forceFinalizeAll
    (listeners : Candle -> string -> outcome unit) (st : CandleBuilder.t)
  : CandleBuilder.t * outcome unit :=
  Throwing.forceFinalizeAll CandleBuilder.startTime CandleBuilder.finalize
    listeners st.

Definition UnivariateBuilder_forceFinalizeAll
    (listeners : UnivariateDataPoint -> string -> outcome unit)
    (st : UnivariateBuilder.t) : UnivariateBuilder.t * outcome unit :=
  Throwing.forceFinalizeAll UnivariateBuilder.startTime
    UnivariateBuilder.finalize listeners st.

(** Listeners that return, and a listener that throws. *)
Definition quiet {Rec : Type} (final : Rec) (timeframeLabel : string)
  : outcome unit :=
  Returned tt.

Definition failing {Rec : Type} (final : Rec) (timeframeLabel : string)
  : outcome unit :=
  Thrown "Error: listener failed".

(** An aggregator over one timeframe that has seen one tick. *)
Definition oneTickBuilder : CandleBuilder.t :=
  default (CandleBuilder.new "BTCUSDT" [tf1s])
    (CandleBuilder.addTick (sampleTick 500 100)
       (CandleBuilder.new "BTCUSDT" [tf1s])).

(** ** Prices that are not numbers (core/candleBuilder.ts)

    A tick's price is a JS number.  Everywhere else in this development a
    price is an integer; here it may also be [NaN], which [parseFloat] gives
    for a text that does not begin with a number.  [Math.max] and [Math.min]
    return [NaN] when an argument is [NaN], and [<=] is false on it. *)
Inductive number : Type :=
| Finite (z : Z)
| NaN.

Definition Math_max (a b : number) : number :=
  match a, b with
  | Finite x, Finite y => Finite (Z.max x y)
  | _, _ => NaN
  end.

Definition Math_min (a b : number) : number :=
  match a, b with
  | Finite x, Finite y => Finite (Z.min x y)
  | _, _ => NaN
  end.

Definition number_le (a b : number) : bool :=
  match a, b with
  | Finite x, Finite y => x <=? y
  | _, _ => false
  end.

Module NumberCandleBuilder.

Record NumberTick : Type := {
  n_ts : Z;
  n_price : number;
  n_size : option Z;
  n_symbol : string;
  n_exchange : string
}.

Record CandleInProgress : Type := {
  open : number;
  high : number;
  low : number;
  close : number;
  volume : Z;
  startTime : Z;
  lastUpdate : Z
}.

Record Candle : Type := {
  c_datetime : Z;
  c_open : number;
  c_high : number;
  c_low : number;
  c_close : number;
  c_volume : option Z
}.

Definition create (tick : NumberTick) (windowStart timestamp : Z)
  : CandleInProgress :=
  {| open := n_price tick;
     high := n_price tick;
     low := n_price tick;
     close := n_price tick;
     volume := or_zero (n_size tick);
     startTime := windowStart;
     lastUpdate := timestamp |}.

Definition update (candle : CandleInProgress) (tick : NumberTick)
    (timestamp : Z) : CandleInProgress :=
  {| open := open candle;
     high := Math_max (high candle) (n_price tick);
     low := Math_min (low candle) (n_price tick);
     close := n_price tick;
     volume := volume candle + or_zero (n_size tick);
     startTime := startTime candle;
     lastUpdate := timestamp |}.

Definition finalize (candle : CandleInProgress) : Candle :=
  {| c_datetime := startTime candle;
     c_open := open candle;
     c_high := high candle;
     c_low := low candle;
     c_close := close candle;
     c_volume := Some (volume candle) |}.

Definition t : Type := Aggregator.t CandleInProgress Candle.

Definition new (symbol : string) (timeframes : list TimeframeConfig) : t :=
  Aggregator.new symbol timeframes.

(** Of a tick, [addTick] and [updateCandle] themselves read the symbol and
    the time only, which [seen] keeps; the price is read where the candle is
    created or updated, here from the tick with its number. *)
Definition seen (tick : NumberTick) : NormalizedTick :=
  {| ts := n_ts tick; price := 0; size := n_size tick;
     symbol := n_symbol tick; exchange := n_exchange tick |}.

Definition addTick (tick : NumberTick) (st : t) : option t :=
  Aggregator.addTick (fun _ => create tick) (fun candle _ => update candle tick)
    finalize (seen tick) st.

Definition forceFinalizeAll : t -> option t :=
  Aggregator.forceFinalizeAll finalize.

Definition getBuffer : t -> string -> option (RollingBuffer.t Candle) :=
  Aggregator.getBuffer.

(** What a caller can do to the builder. *)
Inductive op : Type :=
| AddTick (tick : NumberTick)
| ForceFinalizeAll.

Definition step (o : op) (st : t) : option t :=
  match o with
  | AddTick tick => addTick tick st
  | ForceFinalizeAll => forceFinalizeAll st
  end.

Definition run (ops : list op) (st : t) : option t := forEach step ops st.

(** Calls in which every tick has a price other than [NaN], a time that is
    a date, and windows that start on dates. *)
Definition isNumber (n : number) : bool :=
  match n with
  | Finite _ => true
  | NaN => false
  end.

Definition pricedOps (timeframes : list TimeframeConfig) (ops : list op)
  : bool :=
  forallb (fun o =>
             match o with
             | AddTick tick =>
                 isNumber (n_price tick) && datedTick timeframes (seen tick)
             | ForceFinalizeAll => true
             end) ops.

(** The ordering the specification asks of a finalized candle, with the
    comparisons of the language, and the same ordering on a candle in
    progress. *)
Definition wellFormedInProgress (c : CandleInProgress) : bool :=
  number_le (low c) (Math_min (open c) (close c))
  && number_le (Math_max (open c) (close c)) (high c).

Definition wellFormed (c : Candle) : bool :=
  number_le (c_low c) (Math_min (c_open c) (c_close c))
  && number_le (Math_min (c_open c) (c_close c))
               (Math_max (c_open c) (c_close c))
  && number_le (Math_max (c_open c) (c_close c)) (c_high c).

(** A tick and a candle of the integer model as they are here. *)
Definition ofTick (tick : NormalizedTick) : NumberTick :=
  {| n_ts := ts tick; n_price := Finite (price tick); n_size := size tick;
     n_symbol := Types.symbol tick; n_exchange := exchange tick |}.

Definition ofInProgress (c : CandleBuilder.CandleInProgress) : CandleInProgress :=
  {| open := Finite (CandleBuilder.open c);
     high := Finite (CandleBuilder.high c);
     low := Finite (CandleBuilder.low c);
     close := Finite (CandleBuilder.close c);
     volume := CandleBuilder.volume c;
     startTime := CandleBuilder.startTime c;
     lastUpdate := CandleBuilder.lastUpdate c |}.

Definition ofCandle (c : Types.Candle) : Candle :=
  {| c_datetime := Types.datetime c;
     c_open := Finite (Types.open c);
     c_high := Finite (Types.high c);
     c_low := Finite (Types.low c);
     c_close := Finite (Types.close c);
     c_volume := Types.volume c |}.

End NumberCandleBuilder.

(** A trade whose price text is not a number, as the Binance normalizer
    passes it on ([!data.p] is false for a text that is not empty, and
    [parseFloat] of it is [NaN]), and the next trade. *)
Definition nanTick : NumberCandleBuilder.NumberTick :=
  {| NumberCandleBuilder.n_ts := 0;
     NumberCandleBuilder.n_price := NaN;
     NumberCandleBuilder.n_size := Some 1;
     NumberCandleBuilder.n_symbol := "BTCUSDT";
     NumberCandleBuilder.n_exchange := "binance" |}.

Definition nextTick : NumberCandleBuilder.NumberTick :=
  {| NumberCandleBuilder.n_ts := 1000;
     NumberCandleBuilder.n_price := Finite 100;
     NumberCandleBuilder.n_size := Some 1;
     NumberCandleBuilder.n_symbol := "BTCUSDT";
     NumberCandleBuilder.n_exchange := "binance" |}.

(** ** The pause after any attempt of a polling run *)

(** The pause that follows the [i]-th attempt (from 0) of a run: the sleep
    before the next attempt of the run or, after the last attempt, the delay
    of the timer for the next run. *)
Fixpoint pauseAfterAttempt (i : nat) (events : list PollingLoop.event)
  : option Z :=
  match events with
  | [] => None
  | PollingLoop.Attempt :: rest =>
      match i with
      | O =>
          match rest with
          | PollingLoop.Sleep ms :: _ => Some ms
          | PollingLoop.SetTimeout ms :: _ => Some ms
          | _ => None
          end
      | S i' => pauseAfterAttempt i' rest
      end
  | _ :: rest => pauseAfterAttempt i rest
  end.

(** A response on which [fetchCurrentConditions] throws: status 429, a
    status outside 2xx, or a body that is not a JSON array with an
    element. *)
Definition rejected (response : Response) : bool :=
  (resp_status response =? 429)
  || negb (resp_ok response)
  || match resp_body response with
     | Returned (Some (_ :: _)) => false
     | _ => true
     end.

(** A response the service is down with, and responses of which the second
    is rate-limited. *)
Definition unavailable : Response :=
  {| resp_status := 503;
     resp_ok := false;
     resp_statusText := "Service Unavailable";
     resp_headers := [];
     resp_body := Thrown "SyntaxError: Unexpected end of JSON input" |}.

Definition downThenLimited (n : nat) : Response :=
  match n with
  | O => unavailable
  | _ => rateLimited
  end.

(** ** Numbers that print as their digits

    The dispatcher prints a number with the language's conversion to text,
    which gives the decimal digits of an integer up to 2^53 - 1 in size, as
    [Number_toString] does; beyond that it rounds or uses an exponent. *)
Definition safeInteger (n : Z) : bool := Z.abs n <=? 9007199254740991.

Definition printsAsDigits (candle : Candle) : bool :=
  Date_valid (datetime candle)
  && safeInteger (open candle) && safeInteger (high candle)
  && safeInteger (low candle) && safeInteger (close candle).

Definition valuePrintsAsDigits (dataPoint : UnivariateDataPoint) : bool :=
  Date_valid (dp_datetime dataPoint) && safeInteger (dp_value dataPoint).

Definition hourlySeries : UnivariateBuffer :=
  {| RollingBuffer.maxSize := 100;
     RollingBuffer.records :=
       [{| dp_datetime := 0; dp_value := 21 |};
        {| dp_datetime := 3600000; dp_value := 22 |}];
     RollingBuffer.timeframeLabel := "1h" |}.

(** * Properties *)

(** ** Rolling window buffer *)

Section BufferFacts.
Context {Rec : Type}.
Implicit Types (b : RollingBuffer.t Rec) (l : list Rec).

Lemma Array_slice_negative l (n : Z) :
  0 < n -> Array_slice l (- n) = most_recent n l.
Proof.
  intros Hn. unfold Array_slice, most_recent.
  assert (Hneg : (- n <? 0) = true) by (apply Z.ltb_lt; lia).
  rewrite Hneg. f_equal. lia.
Qed.

(** For a positive count [getLast] is what its name says. *)
Lemma getLast_positive b (n : Z) :
  0 < n -> RollingBuffer.getLast b n = most_recent n (RollingBuffer.records b).
Proof. intros Hn. apply Array_slice_negative, Hn. Qed.

Lemma most_recent_length l (n : Z) :
  0 <= n -> Z.of_nat (length (most_recent n l)) = Z.min n (Z.of_nat (length l)).
Proof.
  intros Hn. unfold most_recent. rewrite length_drop. lia.
Qed.

Lemma most_recent_suffix l (n : Z) : most_recent n l `suffix_of` l.
Proof. unfold most_recent. apply suffix_drop. Qed.

Lemma push_length_bound b (r : Rec) :
  RollingBuffer.size b <= RollingBuffer.maxSize b ->
  RollingBuffer.size (RollingBuffer.push b r) <= RollingBuffer.maxSize b
  \/ RollingBuffer.maxSize b < 0.
Proof.
  unfold RollingBuffer.size, RollingBuffer.push. simpl.
  rewrite length_app. simpl. intros Hb.
  destruct (Z.ltb_spec (RollingBuffer.maxSize b)
              (Z.of_nat (length (RollingBuffer.records b) + 1))) as [Hlt | Hge].
  - destruct (RollingBuffer.records b) as [| x l] eqn:E; simpl in *.
    + lia.
    + rewrite length_app. simpl. lia.
  - rewrite length_app. simpl. lia.
Qed.

End BufferFacts.

(** C5 (where the code departs from it).  [getLast 0] hands back the whole
    buffer: [slice(-0)] is [slice(0)].  The specification asks for the
    [min 0 size] most recent records, which is none. *)
Theorem getLast_zero_returns_everything :
  forall (Rec : Type) (b : RollingBuffer.t Rec),
    RollingBuffer.getLast b 0 = RollingBuffer.records b
    /\ most_recent 0 (RollingBuffer.records b) = [].
Proof.
  intros Rec b. split.
  - unfold RollingBuffer.getLast, Array_slice. simpl.
    replace (Z.to_nat (Z.min 0 _)) with 0%nat by lia. reflexivity.
  - unfold most_recent.
    replace (Z.to_nat (Z.min 0 _)) with 0%nat by lia.
    rewrite Nat.sub_0_r. apply drop_all.
Qed.

(** ** Tick normalizers *)

Section NormalizerFacts.
Variable Date_parse : string -> option Z.
Variable parseFloat : string -> Z.

Lemma bloomberg_timed_ignores_clock (now1 now2 : Z)
    (data : BloombergNormalizer.BloombergTickData) (security : string) :
  truthy_str (BloombergNormalizer.TIME data) = true ->
  BloombergNormalizer.normalize Date_parse now1 data security
  = BloombergNormalizer.normalize Date_parse now2 data security.
Proof.
  intros Htime. unfold BloombergNormalizer.normalize.
  rewrite Htime. reflexivity.
Qed.

Lemma accuweather_timed_ignores_clock (now1 now2 : Z)
    (raw : AccuWeatherNormalizer.AccuWeatherCurrentConditions)
    (locationKey : string) :
  truthy_str (AccuWeatherNormalizer.LocalObservationDateTime raw)
  || truthy_num (AccuWeatherNormalizer.EpochTime raw) = true ->
  AccuWeatherNormalizer.normalize Date_parse now1 raw locationKey
  = AccuWeatherNormalizer.normalize Date_parse now2 raw locationKey.
Proof.
  intros Htime. unfold AccuWeatherNormalizer.normalize.
  destruct (truthy_str (AccuWeatherNormalizer.LocalObservationDateTime raw));
    [reflexivity |].
  simpl in Htime. rewrite Htime. reflexivity.
Qed.

End NormalizerFacts.

(** C6 (where the code departs from it).  The price is chosen with [||],
    which skips a field holding 0 as if it were absent: with LAST_TRADE = 0
    and LAST_PRICE = 5 the tick carries 5 although the first non-null field
    is 0, and with LAST_TRADE = 0 alone the message is dropped although a
    price field is present. *)
Theorem bloomberg_normalize_skips_zero_price :
  forall (Date_parse : string -> option Z) (now : Z),
    let m1 := {| BloombergNormalizer.LAST_PRICE := Some 5;
                 BloombergNormalizer.BID := None;
                 BloombergNormalizer.ASK := None;
                 BloombergNormalizer.VOLUME := Some 7;
                 BloombergNormalizer.LAST_TRADE := Some 0;
                 BloombergNormalizer.TIME := None |} in
    let m2 := {| BloombergNormalizer.LAST_PRICE := None;
                 BloombergNormalizer.BID := None;
                 BloombergNormalizer.ASK := None;
                 BloombergNormalizer.VOLUME := Some 7;
                 BloombergNormalizer.LAST_TRADE := Some 0;
                 BloombergNormalizer.TIME := None |} in
    Date_valid now = true ->
    BloombergNormalizer.normalize Date_parse now m1 "IBM US Equity"
    = Returned (Some {| ts := now; price := 5; size := Some 7;
                        symbol := "IBM US Equity"; exchange := "bloomberg" |})
    /\ first_non_null m1 = Some 0
    /\ BloombergNormalizer.normalize Date_parse now m2 "IBM US Equity"
       = Returned None
    /\ first_non_null m2 = Some 0.
Proof.
  intros Date_parse now m1 m2 Hnow.
  unfold BloombergNormalizer.normalize, toISOString_of_ms. simpl.
  rewrite Hnow. repeat split; reflexivity.
Qed.

Lemma bloomberg_normalize_skips_zero_price_witness :
  Date_valid 1735725600000 = true
  /\ BloombergNormalizer.normalize (fun _ => None) 1735725600000
       {| BloombergNormalizer.LAST_PRICE := None;
          BloombergNormalizer.BID := None;
          BloombergNormalizer.ASK := None;
          BloombergNormalizer.VOLUME := Some 7;
          BloombergNormalizer.LAST_TRADE := Some 0;
          BloombergNormalizer.TIME := None |} "IBM US Equity"
     = Returned None.
Proof.
  split; [reflexivity |].
  apply (bloomberg_normalize_skips_zero_price (fun _ => None) 1735725600000).
  reflexivity.
Defined.

(** C9, as stated, fails: a subscription-session message without TIME is
    stamped with the wall clock, so two calls on the same message differ. *)
Lemma bloomberg_normalize_reads_the_clock :
  let message := {| BloombergNormalizer.LAST_PRICE := Some 100;
                    BloombergNormalizer.BID := None;
                    BloombergNormalizer.ASK := None;
                    BloombergNormalizer.VOLUME := None;
                    BloombergNormalizer.LAST_TRADE := None;
                    BloombergNormalizer.TIME := None |} in
  BloombergNormalizer.normalize (fun _ => None) 1000 message "IBM US Equity"
  <> BloombergNormalizer.normalize (fun _ => None) 2000 message "IBM US Equity".
Proof. vm_compute. discriminate. Qed.

(** C9, amended.  Whatever the clock reads at the two calls, normalizing a
    message twice gives the same result for every streaming message (crypto
    and equities), for every subscription-session message that carries TIME,
    and for every weather observation that carries LocalObservationDateTime
    or EpochTime. *)
Theorem normalize_twice_equal_when_message_is_timed :
  forall (Date_parse : string -> option Z) (parseFloat : string -> Z)
         (now1 now2 : Z),
    (forall data security,
        truthy_str (BloombergNormalizer.TIME data) = true ->
        BloombergNormalizer.normalize Date_parse now1 data security
        = BloombergNormalizer.normalize Date_parse now2 data security)
    /\ (forall raw locationKey,
        truthy_str (AccuWeatherNormalizer.LocalObservationDateTime raw)
        || truthy_num (AccuWeatherNormalizer.EpochTime raw) = true ->
        AccuWeatherNormalizer.normalize Date_parse now1 raw locationKey
        = AccuWeatherNormalizer.normalize Date_parse now2 raw locationKey)
    /\ (forall first second,
        first = second ->
        BinanceNormalizer.normalize parseFloat first
        = BinanceNormalizer.normalize parseFloat second)
    /\ (forall first second,
        first = second ->
        PolygonNormalizer.normalize first = PolygonNormalizer.normalize second).
Proof.
  intros Date_parse parseFloat now1 now2. repeat split.
  - intros data security. apply bloomberg_timed_ignores_clock.
  - intros raw locationKey. apply accuweather_timed_ignores_clock.
  - intros first second ->. reflexivity.
  - intros first second ->. reflexivity.
Qed.

Lemma normalize_twice_equal_when_message_is_timed_witness :
  let message := {| BloombergNormalizer.LAST_PRICE := Some 100;
                    BloombergNormalizer.BID := None;
                    BloombergNormalizer.ASK := None;
                    BloombergNormalizer.VOLUME := None;
                    BloombergNormalizer.LAST_TRADE := None;
                    BloombergNormalizer.TIME := Some "2025-01-01T10:00:00Z" |} in
  truthy_str (BloombergNormalizer.TIME message) = true
  /\ BloombergNormalizer.normalize (fun _ => Some 1735725600000) 1000
       message "IBM US Equity"
     = BloombergNormalizer.normalize (fun _ => Some 1735725600000) 2000
         message "IBM US Equity".
Proof.
  intros message. split; [reflexivity |].
  apply (normalize_twice_equal_when_message_is_timed
           (fun _ => Some 1735725600000) (fun _ => 0) 1000 2000).
  reflexivity.
Defined.

(** ** Connectors *)

(** C10.  Whatever the state of a connector, and however many errors it has
    counted, the status of its health snapshot is [connected] or
    [disconnected], never [error]. *)
Theorem health_status_is_never_error :
  forall (now : Z),
    (forall c, status (BinanceConnector.health c now) = connected
               \/ status (BinanceConnector.health c now) = disconnected)
    /\ (forall c, status (PolygonConnector.health c now) = connected
                  \/ status (PolygonConnector.health c now) = disconnected)
    /\ (forall c, status (BloombergConnector.health c now) = connected
                  \/ status (BloombergConnector.health c now) = disconnected)
    /\ (forall c, status (AccuWeatherConnector.health c now) = connected
                  \/ status (AccuWeatherConnector.health c now) = disconnected).
Proof.
  intros now. repeat split; intros c.
  - unfold BinanceConnector.health. simpl.
    destruct (BinanceConnector.isConnected c); [left | right]; reflexivity.
  - unfold PolygonConnector.health. simpl.
    destruct (PolygonConnector.isConnected c); [left | right]; reflexivity.
  - unfold BloombergConnector.health. simpl.
    destruct (BloombergConnector.isConnected c); [left | right]; reflexivity.
  - unfold AccuWeatherConnector.health. simpl.
    destruct (AccuWeatherConnector.isConnected c); [left | right]; reflexivity.
Qed.

Section PollingFacts.
Context {W : Type}.
Variable pollFunction : nat -> W -> W * outcome unit.

(** After an attempt that throws, the loop pauses for the configured retry
    delay when another attempt is allowed, and otherwise goes straight to the
    timer of the next run.  [fuel] and [attempt] are those of the loop when
    it has [fuel] iterations left. *)
Lemma retryLoop_pause (config : PollingLoop.PollingConfig)
    (maxRetries retryDelayMs ms : Z) :
  PollingLoop.maxRetries config = Some maxRetries ->
  PollingLoop.retryDelayMs config = Some retryDelayMs ->
  forall (i fuel : nat) (attempt : Z) (calls : nat) (w : W)
         (lastError : option string),
    (forall j, (j <= i)%nat ->
               forall w0, exists w1 e,
                   pollFunction (calls + j)%nat w0 = (w1, Thrown e)) ->
    (i < fuel)%nat ->
    Z.of_nat fuel + attempt = maxRetries ->
    pauseAfterAttempt i
      ((PollingLoop.retryLoop pollFunction config fuel attempt calls w
          lastError).1.2 ++ [PollingLoop.SetTimeout ms])
    = Some (if attempt + Z.of_nat i + 1 <? maxRetries then retryDelayMs
            else ms).
Proof.
  intros Hmax Hdelay.
  induction i as [| i IH]; intros fuel attempt calls w lastError Hfail Hfuel
                                  Hleft.
  - destruct fuel as [| fuel]; [lia |].
    destruct (Hfail 0%nat (Nat.le_refl _) w) as (w1 & e & Hcall).
    rewrite Nat.add_0_r in Hcall.
    cbn [PollingLoop.retryLoop]. rewrite Hcall, Hmax, Hdelay.
    cbn [default from_option id].
    destruct (PollingLoop.retryLoop pollFunction config fuel (attempt + 1)
                (S calls) w1 (Some e)) as [[w2 events] result] eqn:Hrest.
    destruct (Z.ltb_spec attempt (maxRetries - 1)) as [Hmore | Hlast].
    + assert (Hlt : (attempt + Z.of_nat 0 + 1 <? maxRetries) = true)
        by (apply Z.ltb_lt; lia).
      rewrite Hlt. reflexivity.
    + assert (Hlt : (attempt + Z.of_nat 0 + 1 <? maxRetries) = false)
        by (apply Z.ltb_ge; lia).
      rewrite Hlt.
      assert (fuel = 0%nat) as -> by lia.
      simpl in Hrest. injection Hrest as _ <- _. reflexivity.
  - destruct fuel as [| fuel]; [lia |].
    destruct (Hfail 0%nat (Nat.le_0_l _) w) as (w1 & e & Hcall).
    rewrite Nat.add_0_r in Hcall.
    cbn [PollingLoop.retryLoop]. rewrite Hcall, Hmax, Hdelay.
    cbn [default from_option id].
    specialize (IH fuel (attempt + 1) (S calls) w1 (Some e)).
    destruct (PollingLoop.retryLoop pollFunction config fuel (attempt + 1)
                (S calls) w1 (Some e)) as [[w2 events] result] eqn:Hrest.
    assert (Hnext : pauseAfterAttempt i (events ++ [PollingLoop.SetTimeout ms])
                    = Some (if attempt + 1 + Z.of_nat i + 1 <? maxRetries
                            then retryDelayMs else ms)).
    { apply IH; [| lia | lia].
      intros j Hj w0. replace (S calls + j)%nat with (calls + S j)%nat by lia.
      apply Hfail. lia. }
    replace (attempt + Z.of_nat (S i) + 1) with (attempt + 1 + Z.of_nat i + 1)
      by lia.
    rewrite <- Hnext.
    destruct (attempt <? maxRetries - 1); reflexivity.
Qed.

Lemma poll_pause (config : PollingLoop.PollingConfig)
    (maxRetries retryDelayMs : Z) (i calls : nat) (w : W) :
  PollingLoop.maxRetries config = Some maxRetries ->
  PollingLoop.retryDelayMs config = Some retryDelayMs ->
  Z.of_nat i < maxRetries ->
  (forall j, (j <= i)%nat ->
             forall w0, exists w1 e,
                 pollFunction (calls + j)%nat w0 = (w1, Thrown e)) ->
  pauseAfterAttempt i (snd (PollingLoop.poll pollFunction config calls w))
  = Some (if Z.of_nat i + 1 <? maxRetries then retryDelayMs
          else PollingLoop.intervalMs config).
Proof.
  intros Hmax Hdelay Hi Hfail.
  pose proof (retryLoop_pause config maxRetries retryDelayMs
                (PollingLoop.intervalMs config) Hmax Hdelay i
                (Z.to_nat maxRetries) 0 calls w None Hfail) as Hpause.
  unfold PollingLoop.poll, PollingLoop.pollWithRetry.
  rewrite Hmax. cbn [default from_option id].
  destruct (PollingLoop.retryLoop pollFunction config (Z.to_nat maxRetries) 0
              calls w None) as [[w' events] result].
  simpl in *. apply Hpause; lia.
Qed.

End PollingFacts.

(** A response with status 429 makes [poll] throw, whatever its headers, and
    count one error. *)
Lemma accuweather_poll_429 (Date_parse : string -> option Z)
    (parseInt : string -> option Z) (now : Z)
    (this : AccuWeatherConnector.t) (response : Response) :
  resp_status response = 429 ->
  exists this',
    AccuWeatherConnector.poll Date_parse parseInt now this response
    = (this', Thrown "Rate limit exceeded")
    /\ AccuWeatherConnector.errorCount this'
       = AccuWeatherConnector.errorCount this + 1.
Proof.
  intros Hstatus.
  unfold AccuWeatherConnector.poll, AccuWeatherConnector.fetchCurrentConditions.
  rewrite Hstatus. simpl. eexists. split; reflexivity.
Qed.

Lemma accuweather_poll_rejected (Date_parse : string -> option Z)
    (parseInt : string -> option Z) (now : Z)
    (this : AccuWeatherConnector.t) (response : Response) :
  rejected response = true ->
  exists this' e,
    AccuWeatherConnector.poll Date_parse parseInt now this response
    = (this', Thrown e).
Proof.
  unfold rejected, AccuWeatherConnector.poll,
    AccuWeatherConnector.fetchCurrentConditions.
  destruct (resp_status response =? 429); [intros _; eauto |].
  destruct (resp_ok response); simpl; [| intros _; eauto].
  destruct (resp_body response) as [[[| first rest] |] | e]; simpl;
    try discriminate; intros _; eauto.
Qed.

(** C7, as stated, fails: with the default configuration, a first fetch
    answered with status 429 and [Retry-After: 10] is followed by the next
    attempt after the default retry delay, 5000 ms, not after 10000 ms. *)
Lemma rate_limited_retry_ignores_retry_after :
  let config := {| PollingLoop.intervalMs := 300000;
                   PollingLoop.maxRetries := None;
                   PollingLoop.retryDelayMs := None |} in
  let events :=
    snd (PollingLoop.poll
           (accuweatherPoll (fun _ => None) (fun _ => None) 1735725600000
              (fun _ => rateLimited))
           (PollingLoop.new config) 0 idleWeatherConnector) in
  resp_status rateLimited = 429
  /\ Headers_get rateLimited "Retry-After" = Some "10"
  /\ PollingLoop.delayAfterFirstAttempt events = Some 5000
  /\ PollingLoop.delayAfterFirstAttempt events <> Some 10000.
Proof.
  intros config events.
  split; [reflexivity |]. split; [reflexivity |].
  split; [vm_compute; reflexivity | vm_compute; discriminate].
Qed.

(** C7, amended.  In a run of the polling loop (one [pollWithRetry], with
    [maxRetries] attempts at most), when the fetch of the attempt numbered
    [i] from 0 is answered with status 429, whatever the headers of the
    response, the pause before the loop's next attempt is the configured
    retry delay if [i + 1] is below [maxRetries], and the polling interval
    otherwise; the attempts before it in the run have failed, or the run
    would have ended.  The fetch that [connect] makes on its own, outside the
    loop, sets no pause: answered with status 429 it throws
    [Rate limit exceeded], which [connect] throws in its turn, and counts one
    error. *)
Theorem rate_limited_poll_waits_retry_delay :
  forall (Date_parse : string -> option Z) (parseInt : string -> option Z)
         (now : Z),
    (forall (responses : nat -> Response) (config : PollingLoop.PollingConfig)
            (this : AccuWeatherConnector.t) (maxRetries retryDelayMs : Z)
            (calls i : nat),
        PollingLoop.maxRetries (PollingLoop.new config) = Some maxRetries ->
        PollingLoop.retryDelayMs (PollingLoop.new config) = Some retryDelayMs ->
        Z.of_nat i < maxRetries ->
        (forall j, (j < i)%nat -> rejected (responses (calls + j)%nat) = true) ->
        resp_status (responses (calls + i)%nat) = 429 ->
        pauseAfterAttempt i
          (snd (PollingLoop.poll
                  (accuweatherPoll Date_parse parseInt now responses)
                  (PollingLoop.new config) calls this))
        = Some (if Z.of_nat i + 1 <? maxRetries then retryDelayMs
                else PollingLoop.intervalMs config))
    /\ (forall (own : AccuWeatherConnector.t) (response : Response),
          resp_status response = 429 ->
          exists own',
            AccuWeatherConnector.poll Date_parse parseInt now own response
            = (own', Thrown "Rate limit exceeded")
            /\ AccuWeatherConnector.errorCount own'
               = AccuWeatherConnector.errorCount own + 1).
Proof.
  intros Date_parse parseInt now. split.
  - intros responses config this maxRetries retryDelayMs calls i Hmax Hdelay
           Hi Hbefore Hstatus.
    apply (poll_pause (accuweatherPoll Date_parse parseInt now responses)
             (PollingLoop.new config) maxRetries retryDelayMs i calls this
             Hmax Hdelay Hi).
    intros j Hj w0. unfold accuweatherPoll.
    destruct (decide (j = i)) as [-> | Hne].
    + destruct (accuweather_poll_429 Date_parse parseInt now w0 _ Hstatus)
        as (w1 & Hpoll & _).
      exists w1, "Rate limit exceeded". exact Hpoll.
    + apply accuweather_poll_rejected, Hbefore. lia.
  - intros own response Hstatus. apply accuweather_poll_429, Hstatus.
Qed.

Lemma rate_limited_poll_waits_retry_delay_witness :
  let config := {| PollingLoop.intervalMs := 300000;
                   PollingLoop.maxRetries := None;
                   PollingLoop.retryDelayMs := None |} in
  let events :=
    snd (PollingLoop.poll
           (accuweatherPoll (fun _ => None) (fun _ => None) 1735725600000
              downThenLimited)
           (PollingLoop.new config) 0 idleWeatherConnector) in
  rejected (downThenLimited 0) = true
  /\ resp_status (downThenLimited 1) = 429
  /\ resp_status (downThenLimited 2) = 429
  /\ pauseAfterAttempt 1 events = Some 5000
  /\ pauseAfterAttempt 2 events = Some 300000
  /\ exists own',
      AccuWeatherConnector.poll (fun _ => None) (fun _ => None) 1735725600000
        idleWeatherConnector rateLimited
      = (own', Thrown "Rate limit exceeded")
      /\ AccuWeatherConnector.errorCount own' = 1.
Proof.
  intros config events.
  pose proof (rate_limited_poll_waits_retry_delay (fun _ => None)
                (fun _ => None) 1735725600000) as [Hloop Hown].
  split; [reflexivity |]. split; [reflexivity |]. split; [reflexivity |].
  split; [| split].
  - apply (Hloop downThenLimited config idleWeatherConnector 3 5000 0%nat
             1%nat); [reflexivity | reflexivity | lia | | reflexivity].
    intros j Hj. assert (j = 0%nat) as -> by lia. reflexivity.
  - apply (Hloop downThenLimited config idleWeatherConnector 3 5000 0%nat
             2%nat); [reflexivity | reflexivity | lia | | reflexivity].
    intros j Hj. destruct j as [| [| j]]; [reflexivity | reflexivity | lia].
  - apply (Hown idleWeatherConnector rateLimited). reflexivity.
Defined.

(** ** Timeframe aggregators *)

Section MapFacts.
Context {V : Type}.
Implicit Types (m pre : Map V) (k : string) (v : V).

Lemma Map_get_app_skip pre m k :
  Forall (fun e => e.1 <> k) pre -> Map_get (pre ++ m) k = Map_get m k.
Proof.
  induction pre as [| [k' v'] pre IH]; intros Hpre; [reflexivity |].
  apply Forall_cons in Hpre as [Hk Hpre]. simpl in *.
  destruct (String.eqb_spec k' k); [contradiction | auto].
Qed.

Lemma Map_delete_app_skip pre m k :
  Forall (fun e => e.1 <> k) pre ->
  Map_delete (pre ++ m) k = pre ++ Map_delete m k.
Proof.
  induction pre as [| [k' v'] pre IH]; intros Hpre; [reflexivity |].
  apply Forall_cons in Hpre as [Hk Hpre]. simpl in *.
  destruct (String.eqb_spec k' k); [contradiction |].
  f_equal. auto.
Qed.

Lemma Map_get_In m k v : Map_get m k = Some v -> In (k, v) m.
Proof.
  induction m as [| [k' v'] m IH]; simpl; [discriminate |].
  destruct (String.eqb_spec k' k) as [-> | Hne].
  - intros [= ->]. left. reflexivity.
  - intros H. right. auto.
Qed.

Lemma Map_set_In m k v e : In e (Map_set m k v) -> In e m \/ e = (k, v).
Proof.
  induction m as [| [k' v'] m IH]; simpl.
  - intros [<- | []]. right. reflexivity.
  - destruct (String.eqb_spec k' k) as [-> | Hne]; simpl.
    + intros [<- | H]; [right; reflexivity | left; right; exact H].
    + intros [<- | H]; [left; left; reflexivity |].
      destruct (IH H) as [H' | H']; [left; right; exact H' | right; exact H'].
Qed.

(** Looking a key up only sees the entries a test on keys lets through,
    when the key passes the test. *)
Lemma Map_get_filter (P : string -> bool) m k :
  P k = true -> Map_get (List.filter (fun e => P e.1) m) k = Map_get m k.
Proof.
  intros HP. induction m as [| [k' v'] m IH]; [reflexivity |]. simpl.
  destruct (String.eqb_spec k' k) as [-> | Hne].
  - rewrite HP. simpl. rewrite String.eqb_refl. reflexivity.
  - destruct (P k'); simpl; [| exact IH].
    destruct (String.eqb_spec k' k); [contradiction | exact IH].
Qed.

Lemma Map_set_filter (P : string -> bool) m k v :
  P k = true ->
  List.filter (fun e => P e.1) (Map_set m k v)
  = Map_set (List.filter (fun e => P e.1) m) k v.
Proof.
  intros HP. induction m as [| [k' v'] m IH]; simpl.
  - rewrite HP. reflexivity.
  - destruct (String.eqb_spec k' k) as [-> | Hne]; simpl.
    + rewrite HP. simpl. rewrite String.eqb_refl. reflexivity.
    + destruct (P k'); simpl; [| exact IH].
      destruct (String.eqb_spec k' k); [contradiction |].
      f_equal. exact IH.
Qed.

Lemma Map_set_filter_out (P : string -> bool) m k v :
  P k = false ->
  List.filter (fun e => P e.1) (Map_set m k v)
  = List.filter (fun e => P e.1) m.
Proof.
  intros HP. induction m as [| [k' v'] m IH]; simpl.
  - rewrite HP. reflexivity.
  - destruct (String.eqb_spec k' k) as [-> | Hne]; simpl.
    + rewrite HP. reflexivity.
    + destruct (P k'); simpl; [f_equal |]; exact IH.
Qed.

End MapFacts.

Section AggregatorFacts.
Context {InProgress Rec : Type}.
Variable create : NormalizedTick -> Z -> Z -> InProgress.
Variable update : InProgress -> NormalizedTick -> Z -> InProgress.
Variable finalize : InProgress -> Rec.

Local Abbreviation state := (Aggregator.t InProgress Rec).
Implicit Types (st : state) (tf : TimeframeConfig) (m pre : Map InProgress).

Lemma keysOf_matching tf st :
  Aggregator.keysOf tf st = Map_keys (matching tf (Aggregator.inProgress st)).
Proof.
  unfold Aggregator.keysOf, matching, Map_keys.
  generalize (Aggregator.inProgress st). intros m.
  induction m as [| [k v] m IH]; [reflexivity |].
  simpl. destruct (startsWith k (label tf)); simpl; [f_equal |]; exact IH.
Qed.

Lemma finalizeKey_spec tf k v m pre bufs buf tfs sym note :
  Forall (fun e => startsWith e.1 (label tf) = false) pre ->
  startsWith k (label tf) = true ->
  bufs !! label tf = Some buf ->
  Aggregator.finalizeKey finalize tf k
    {| Aggregator.buffers := bufs; Aggregator.inProgress := pre ++ (k, v) :: m;
       Aggregator.timeframes := tfs; Aggregator.symbol := sym;
       Aggregator.notified := note |}
  = Some {| Aggregator.buffers :=
              <[label tf := RollingBuffer.push buf (finalize v)]> bufs;
            Aggregator.inProgress := pre ++ m;
            Aggregator.timeframes := tfs; Aggregator.symbol := sym;
            Aggregator.notified := note ++ [(finalize v, label tf)] |}.
Proof.
  intros Hpre HP Hbuf.
  assert (Hskip : Forall (fun e : string * InProgress => e.1 <> k) pre).
  { eapply Forall_impl; [exact Hpre |]. simpl. intros e He Heq.
    rewrite Heq in He. congruence. }
  unfold Aggregator.finalizeKey, Aggregator.finalizeRecord,
    Aggregator.with_inProgress. simpl.
  rewrite (Map_get_app_skip pre ((k, v) :: m) k Hskip). simpl.
  rewrite String.eqb_refl. simpl. rewrite Hbuf. simpl.
  rewrite (Map_delete_app_skip pre ((k, v) :: m) k Hskip). simpl.
  rewrite String.eqb_refl. reflexivity.
Qed.

(** The eviction loop, run on the keys that a timeframe's prefix test
    selects: every selected entry is finalized into that timeframe's buffer,
    in map order, and removed; the other entries stay, in order. *)
Lemma evict_spec tf m pre bufs buf tfs sym note :
  Forall (fun e => startsWith e.1 (label tf) = false) pre ->
  bufs !! label tf = Some buf ->
  forEach (Aggregator.finalizeKey finalize tf)
    (Map_keys (matching tf m))
    {| Aggregator.buffers := bufs; Aggregator.inProgress := pre ++ m;
       Aggregator.timeframes := tfs; Aggregator.symbol := sym;
       Aggregator.notified := note |}
  = Some {| Aggregator.buffers :=
              <[label tf := pushAll buf (map finalize (matching tf m).*2)]> bufs;
            Aggregator.inProgress := pre ++ others tf m;
            Aggregator.timeframes := tfs; Aggregator.symbol := sym;
            Aggregator.notified :=
              note ++ map (fun r => (r, label tf))
                          (map finalize (matching tf m).*2) |}.
Proof.
  revert pre bufs buf note.
  induction m as [| [k v] m IH]; intros pre bufs buf note Hpre Hbuf.
  - simpl. rewrite insert_id by exact Hbuf. rewrite !app_nil_r. reflexivity.
  - unfold matching, others in *. simpl List.filter.
    destruct (startsWith k (label tf)) eqn:HP; simpl negb; cbv iota.
    + change (forEach ?f (Map_keys ((k, v) :: ?r)) ?s)
        with (f k s ≫= forEach f (Map_keys r)).
      rewrite (finalizeKey_spec tf k v m pre bufs buf tfs sym note Hpre HP Hbuf).
      simpl mbind.
      rewrite (IH pre _ (RollingBuffer.push buf (finalize v)));
        [| exact Hpre | apply lookup_insert_eq].
      rewrite insert_insert_eq, <- app_assoc. reflexivity.
    + replace (pre ++ (k, v) :: m) with ((pre ++ [(k, v)]) ++ m)
        by (rewrite <- app_assoc; reflexivity).
      rewrite (IH (pre ++ [(k, v)]) bufs buf note); [| | exact Hbuf].
      * rewrite <- app_assoc. reflexivity.
      * apply Forall_app. split; [exact Hpre |].
        apply Forall_singleton. exact HP.
Qed.

Lemma evict_all tf st buf :
  Aggregator.buffers st !! label tf = Some buf ->
  forEach (Aggregator.finalizeKey finalize tf) (Aggregator.keysOf tf st) st
  = Some (Aggregator.evicted finalize tf buf st).
Proof.
  intros Hbuf. rewrite keysOf_matching. destruct st as [bufs m tfs sym note].
  exact (evict_spec tf m [] bufs buf tfs sym note (Forall_nil_2 _) Hbuf).
Qed.

(** The loop throws as soon as it has a key to evict and no buffer. *)
Lemma evict_without_buffer tf k ks st :
  Aggregator.buffers st !! label tf = None ->
  forEach (Aggregator.finalizeKey finalize tf) (k :: ks) st = None.
Proof.
  intros Hbuf. simpl. unfold Aggregator.finalizeKey.
  destruct (Map_get (Aggregator.inProgress st) k); [| reflexivity]. simpl.
  unfold Aggregator.finalizeRecord. rewrite Hbuf. reflexivity.
Qed.

Lemma others_all m tf : matching tf m = [] -> others tf m = m.
Proof.
  unfold matching, others. induction m as [| [k v] m IH]; [reflexivity |].
  simpl. destruct (startsWith k (label tf)); simpl; [discriminate |].
  intros H. f_equal. auto.
Qed.

Lemma matching_others tf m : matching tf (others tf m) = [].
Proof.
  unfold matching, others. induction m as [| [k v] m IH]; [reflexivity |].
  simpl. destruct (startsWith k (label tf)) eqn:HP; simpl; [exact IH |].
  rewrite HP. exact IH.
Qed.

Lemma matching_others_comm tf tf' m :
  matching tf m = [] -> matching tf (others tf' m) = [].
Proof.
  unfold matching, others. induction m as [| [k v] m IH]; [reflexivity |].
  simpl. destruct (startsWith k (label tf)) eqn:HP; simpl; [discriminate |].
  intros H. destruct (startsWith k (label tf')); simpl; [auto |].
  rewrite HP. auto.
Qed.

(** One pass of [forceFinalizeAll] for a timeframe, when it does not throw:
    what is left in progress is what the timeframe's test does not select. *)
Lemma pass_inProgress tf st st' :
  forEach (Aggregator.finalizeKey finalize tf) (Aggregator.keysOf tf st) st
  = Some st' ->
  Aggregator.inProgress st' = others tf (Aggregator.inProgress st)
  /\ Aggregator.timeframes st' = Aggregator.timeframes st.
Proof.
  destruct (Aggregator.buffers st !! label tf) as [buf |] eqn:Hbuf.
  - rewrite (evict_all tf st buf Hbuf). intros [= <-]. simpl.
    split; reflexivity.
  - rewrite keysOf_matching.
    destruct (matching tf (Aggregator.inProgress st)) as [| [k v] rest] eqn:Hm.
    + simpl. intros [= <-]. rewrite others_all by exact Hm.
      split; reflexivity.
    + change (Map_keys ((k, v) :: rest)) with (k :: Map_keys rest).
      rewrite (evict_without_buffer tf k _ _ Hbuf). discriminate.
Qed.

Lemma passes_clean (tfs : list TimeframeConfig) st st' :
  forEach (fun tf st =>
             forEach (Aggregator.finalizeKey finalize tf)
                     (Aggregator.keysOf tf st) st) tfs st = Some st' ->
  Aggregator.timeframes st' = Aggregator.timeframes st
  /\ (forall tf, matching tf (Aggregator.inProgress st) = [] ->
                 matching tf (Aggregator.inProgress st') = [])
  /\ Forall (fun tf => matching tf (Aggregator.inProgress st') = []) tfs.
Proof.
  revert st. induction tfs as [| tf tfs IH]; intros st; simpl.
  - intros [= <-]. repeat split; auto.
  - destruct (forEach (Aggregator.finalizeKey finalize tf)
                (Aggregator.keysOf tf st) st) as [st1 |] eqn:Hpass;
      [| discriminate].
    simpl. intros Hrest.
    destruct (pass_inProgress tf st st1 Hpass) as [Hm1 Htfs1].
    destruct (IH st1 Hrest) as (Htfs & Hkeep & Hall).
    split; [congruence |]. split.
    + intros tf' Hclean. apply Hkeep. rewrite Hm1.
      apply matching_others_comm, Hclean.
    + apply Forall_cons. split; [| exact Hall].
      apply Hkeep. rewrite Hm1. apply matching_others.
Qed.

Lemma passes_nothing_left (tfs : list TimeframeConfig) st :
  Forall (fun tf => matching tf (Aggregator.inProgress st) = []) tfs ->
  forEach (fun tf st =>
             forEach (Aggregator.finalizeKey finalize tf)
                     (Aggregator.keysOf tf st) st) tfs st = Some st.
Proof.
  induction tfs as [| tf tfs IH]; intros Hall; [reflexivity |].
  apply Forall_cons in Hall as [Htf Hall]. simpl.
  rewrite keysOf_matching, Htf. simpl. auto.
Qed.

(** A second [forceFinalizeAll] finds nothing to finalize. *)
Lemma forceFinalizeAll_twice st st' :
  Aggregator.forceFinalizeAll finalize st = Some st' ->
  Aggregator.forceFinalizeAll finalize st' = Some st'.
Proof.
  unfold Aggregator.forceFinalizeAll. intros Hfirst.
  destruct (passes_clean _ _ _ Hfirst) as (Htfs & _ & Hall).
  rewrite Htfs. apply passes_nothing_left, Hall.
Qed.

(** [updateRecord] when the timeframe has a buffer: either the tick's window
    has its candle, which is updated in place, or every entry the
    timeframe's test selects is evicted and a new candle is appended. *)
Lemma updateRecord_spec tick timestamp tf st buf :
  Aggregator.buffers st !! label tf = Some buf ->
  Aggregator.updateRecord create update finalize tick timestamp tf st
  = let windowStart := Aggregator.getWindowStart timestamp (seconds tf) in
    let key := Aggregator.key tf windowStart in
    match Map_get (Aggregator.inProgress st) key with
    | None =>
        Some (Aggregator.with_inProgress (Aggregator.evicted finalize tf buf st)
                (Map_set (others tf (Aggregator.inProgress st)) key
                   (create tick windowStart timestamp)))
    | Some candle =>
        Some (Aggregator.with_inProgress st
                (Map_set (Aggregator.inProgress st) key
                   (update candle tick timestamp)))
    end.
Proof.
  intros Hbuf. unfold Aggregator.updateRecord. simpl.
  destruct (Map_get (Aggregator.inProgress st) _); [reflexivity |].
  rewrite (evict_all tf st buf Hbuf). reflexivity.
Qed.

Lemma Forall_List_filter {A : Type} (P : A -> Prop) (f : A -> bool)
    (l : list A) :
  Forall P l -> Forall P (List.filter f l).
Proof.
  induction 1 as [| x l Hx Hl IH]; simpl; [constructor |].
  destruct (f x); [constructor |]; assumption.
Qed.

Lemma push_Forall (P : Rec -> Prop) (b : RollingBuffer.t Rec) (r : Rec) :
  Forall P (RollingBuffer.records b) -> P r ->
  Forall P (RollingBuffer.records (RollingBuffer.push b r)).
Proof.
  intros Hb Hr. unfold RollingBuffer.push. simpl.
  assert (Hall : Forall P (RollingBuffer.records b ++ [r])).
  { apply Forall_app. split; [exact Hb | apply Forall_singleton, Hr]. }
  destruct (_ <? _); [| exact Hall].
  destruct (RollingBuffer.records b ++ [r]) as [| x l]; [constructor |].
  apply Forall_cons in Hall as [_ Hall]. exact Hall.
Qed.

Lemma pushAll_Forall (P : Rec -> Prop) (rs : list Rec)
    (b : RollingBuffer.t Rec) :
  Forall P (RollingBuffer.records b) -> Forall P rs ->
  Forall P (RollingBuffer.records (pushAll b rs)).
Proof.
  revert b. induction rs as [| r rs IH]; intros b Hb Hrs; [exact Hb |].
  apply Forall_cons in Hrs as [Hr Hrs]. simpl.
  apply IH; [apply push_Forall; assumption | exact Hrs].
Qed.

(** *** An invariant kept by every operation *)

Section Invariant.
Variable goodIP : InProgress -> Prop.
Variable goodRec : Rec -> Prop.
Hypothesis create_good :
  forall tick windowStart timestamp, goodIP (create tick windowStart timestamp).
Hypothesis update_good :
  forall candle tick timestamp,
    goodIP candle -> goodIP (update candle tick timestamp).
Hypothesis finalize_good : forall candle, goodIP candle -> goodRec (finalize candle).

Local Abbreviation Inv := (invariant goodIP goodRec).

Lemma evicted_invariant tf buf st :
  Aggregator.buffers st !! label tf = Some buf ->
  Inv st -> Inv (Aggregator.evicted finalize tf buf st).
Proof.
  intros Hbuf (Hbufs & Hip & Hrec). split; [| split]; simpl.
  - intros tf' Hin. destruct (decide (label tf = label tf')) as [<- | Hne].
    + rewrite lookup_insert_eq. eauto.
    + rewrite lookup_insert_ne by exact Hne. auto.
  - apply Forall_List_filter, Hip.
  - intros l b. destruct (decide (label tf = l)) as [<- | Hne].
    + rewrite lookup_insert_eq. intros [= <-].
      apply pushAll_Forall; [exact (Hrec _ _ Hbuf) |].
      apply List.Forall_map, Forall_fmap.
      eapply Forall_impl; [apply Forall_List_filter, Hip |].
      intros [k c] Hc. apply finalize_good, Hc.
    + rewrite lookup_insert_ne by exact Hne. apply Hrec.
Qed.

Lemma with_inProgress_invariant st m :
  Inv st -> Forall (fun e => goodIP e.2) m ->
  Inv (Aggregator.with_inProgress st m).
Proof.
  intros (Hbufs & Hip & Hrec) Hm. split; [| split]; simpl; assumption.
Qed.

Lemma Map_set_good m k c :
  Forall (fun e => goodIP e.2) m -> goodIP c ->
  Forall (fun e : string * InProgress => goodIP e.2) (Map_set m k c).
Proof.
  intros Hm Hc. apply Forall_forall. intros e He.
  apply list_elem_of_In, Map_set_In in He as [He | ->]; [| exact Hc].
  rewrite Forall_forall in Hm. apply Hm, list_elem_of_In, He.
Qed.

Lemma updateRecord_invariant tick timestamp tf st :
  tf ∈ Aggregator.timeframes st -> Inv st ->
  exists st',
    Aggregator.updateRecord create update finalize tick timestamp tf st
    = Some st'
    /\ Aggregator.timeframes st' = Aggregator.timeframes st
    /\ Inv st'.
Proof.
  intros Hin HInv.
  destruct (proj1 HInv tf Hin) as [buf Hbuf].
  rewrite (updateRecord_spec tick timestamp tf st buf Hbuf). simpl.
  destruct (Map_get (Aggregator.inProgress st) _) as [candle |] eqn:Hget.
  - eexists. split; [reflexivity |]. split; [reflexivity |].
    apply with_inProgress_invariant; [exact HInv |].
    apply Map_set_good; [exact (proj1 (proj2 HInv)) |].
    apply update_good.
    pose proof (proj1 (proj2 HInv)) as Hip. rewrite Forall_forall in Hip.
    exact (Hip _ (proj2 (list_elem_of_In _ _) (Map_get_In _ _ _ Hget))).
  - eexists. split; [reflexivity |]. split; [reflexivity |].
    apply with_inProgress_invariant.
    + apply evicted_invariant; assumption.
    + apply Map_set_good; [| apply create_good].
      apply Forall_List_filter. exact (proj1 (proj2 HInv)).
Qed.

Lemma forEach_over_timeframes (body : TimeframeConfig -> state -> option state) :
  (forall tf st, tf ∈ Aggregator.timeframes st -> Inv st ->
     exists st', body tf st = Some st'
       /\ Aggregator.timeframes st' = Aggregator.timeframes st /\ Inv st') ->
  forall st, Inv st ->
    exists st', forEach body (Aggregator.timeframes st) st = Some st'
      /\ Aggregator.timeframes st' = Aggregator.timeframes st /\ Inv st'.
Proof.
  intros Hbody st HInv.
  assert (Hgen : forall l st0,
             Aggregator.timeframes st0 = Aggregator.timeframes st ->
             l ⊆ Aggregator.timeframes st -> Inv st0 ->
             exists st', forEach body l st0 = Some st'
               /\ Aggregator.timeframes st' = Aggregator.timeframes st
               /\ Inv st').
  { induction l as [| tf l IH]; intros st0 Htfs0 Hsub HInv0.
    - exists st0. split; [reflexivity |]. split; [exact Htfs0 | exact HInv0].
    - destruct (Hbody tf st0) as (st1 & Hx & Htfs1 & HInv1);
        [rewrite Htfs0; apply Hsub, list_elem_of_here | exact HInv0 |].
      destruct (IH st1) as (st' & Hl & Htfs & HInv');
        [congruence | | exact HInv1 |].
      { intros y Hy. apply Hsub, list_elem_of_further, Hy. }
      exists st'. simpl. rewrite Hx. simpl. auto. }
  apply Hgen; [reflexivity | reflexivity | exact HInv].
Qed.

Lemma addTick_invariant tick st :
  Inv st ->
  exists st', Aggregator.addTick create update finalize tick st = Some st'
    /\ Aggregator.timeframes st' = Aggregator.timeframes st /\ Inv st'.
Proof.
  intros HInv. unfold Aggregator.addTick.
  destruct (negb _); [exists st; auto |].
  apply forEach_over_timeframes; [| exact HInv].
  intros tf st0. apply updateRecord_invariant.
Qed.

Lemma forceFinalizeAll_invariant st :
  Inv st ->
  exists st', Aggregator.forceFinalizeAll finalize st = Some st'
    /\ Aggregator.timeframes st' = Aggregator.timeframes st /\ Inv st'.
Proof.
  intros HInv. unfold Aggregator.forceFinalizeAll.
  apply (forEach_over_timeframes
           (fun tf st => forEach (Aggregator.finalizeKey finalize tf)
                                 (Aggregator.keysOf tf st) st));
    [| exact HInv].
  intros tf st0 Hin HInv0.
  destruct (proj1 HInv0 tf Hin) as [buf Hbuf].
  rewrite (evict_all tf st0 buf Hbuf). eexists.
  split; [reflexivity |]. split; [reflexivity |].
  apply evicted_invariant; assumption.
Qed.

Lemma run_invariant ops st :
  Inv st ->
  exists st', Aggregator.run create update finalize ops st = Some st'
    /\ Aggregator.timeframes st' = Aggregator.timeframes st /\ Inv st'.
Proof.
  revert st. induction ops as [| o ops IH]; intros st HInv.
  - exists st. auto.
  - assert (Hstep : exists st1,
               Aggregator.step create update finalize o st = Some st1
               /\ Aggregator.timeframes st1 = Aggregator.timeframes st
               /\ Inv st1).
    { destruct o as [tick |]; simpl;
        [apply addTick_invariant | apply forceFinalizeAll_invariant];
        exact HInv. }
    destruct Hstep as (st1 & Hstep & Htfs1 & HInv1).
    destruct (IH st1 HInv1) as (st' & Hrun & Htfs & HInv').
    exists st'. unfold Aggregator.run in *. simpl. rewrite Hstep. simpl.
    split; [exact Hrun |]. split; [congruence | exact HInv'].
Qed.

Lemma new_buffers (tfs : list TimeframeConfig)
    (bs : gmap string (RollingBuffer.t Rec)) :
  let grown :=
    foldl (fun bs tf =>
             <[label tf := RollingBuffer.new (bufferSize tf) (label tf)]> bs)
          bs tfs in
  (forall tf, tf ∈ tfs -> is_Some (grown !! label tf))
  /\ (forall l, is_Some (bs !! l) -> is_Some (grown !! l))
  /\ ((forall l b, bs !! l = Some b -> RollingBuffer.records b = []) ->
      forall l b, grown !! l = Some b -> RollingBuffer.records b = []).
Proof.
  revert bs. induction tfs as [| tf tfs IH]; intros bs; simpl.
  - split; [| split]; auto. intros tf Hin. inversion Hin.
  - destruct (IH (<[label tf := RollingBuffer.new (bufferSize tf) (label tf)]> bs))
      as (Hin & Hkeep & Hempty).
    split; [| split].
    + intros tf' Htf'. apply elem_of_cons in Htf' as [-> | Htf'].
      * apply Hkeep. rewrite lookup_insert_eq. eauto.
      * apply Hin, Htf'.
    + intros l Hl. apply Hkeep.
      destruct (decide (label tf = l)) as [<- | Hne].
      * rewrite lookup_insert_eq. eauto.
      * rewrite lookup_insert_ne by exact Hne. exact Hl.
    + intros Hbs. apply Hempty. intros l b.
      destruct (decide (label tf = l)) as [<- | Hne].
      * rewrite lookup_insert_eq. intros [= <-]. reflexivity.
      * rewrite lookup_insert_ne by exact Hne. apply Hbs.
Qed.

Lemma new_invariant sym (tfs : list TimeframeConfig) :
  Inv (Aggregator.new sym tfs).
Proof.
  destruct (new_buffers tfs ∅) as (Hin & _ & Hempty).
  split; [| split]; simpl.
  - exact Hin.
  - constructor.
  - intros l b Hb. rewrite (Hempty (fun l' b' H' =>
      ltac:(rewrite lookup_empty in H'; discriminate)) l b Hb).
    constructor.
Qed.

End Invariant.

End AggregatorFacts.

(** The first seed scenario of the specification: five ticks within two
    seconds leave one finalized candle in the 1s buffer. *)
Example one_second_aggregation :
  (st ← CandleBuilder.run
          (map Aggregator.AddTick
               [{| ts := 0; price := 100; size := Some 1;
                   symbol := "BTCUSDT"; exchange := "binance" |};
                {| ts := 300; price := 101; size := Some 2;
                   symbol := "BTCUSDT"; exchange := "binance" |};
                {| ts := 700; price := 99; size := Some 1;
                   symbol := "BTCUSDT"; exchange := "binance" |};
                {| ts := 900; price := 100; size := Some 1;
                   symbol := "BTCUSDT"; exchange := "binance" |};
                {| ts := 1200; price := 105; size := Some 1;
                   symbol := "BTCUSDT"; exchange := "binance" |}])
          (CandleBuilder.new "BTCUSDT" [tf1s]);
   buffer ← CandleBuilder.getBuffer st "1s";
   Some (RollingBuffer.records buffer, Map_keys (Aggregator.inProgress st)))
  = Some ([{| datetime := 0; open := 100; high := 101; low := 99;
              close := 100; volume := Some 5 |}],
          ["1s_1000"]).
Proof. vm_compute. reflexivity. Qed.

(** On prices that are numbers the candle builder over JS numbers does what
    the integer one does, and its ordering test is the integer ordering. *)
Lemma number_candles_agree_on_numbers :
  (forall tick windowStart timestamp,
      NumberCandleBuilder.create (NumberCandleBuilder.ofTick tick) windowStart
        timestamp
      = NumberCandleBuilder.ofInProgress
          (CandleBuilder.create tick windowStart timestamp))
  /\ (forall candle tick timestamp,
         NumberCandleBuilder.update (NumberCandleBuilder.ofInProgress candle)
           (NumberCandleBuilder.ofTick tick) timestamp
         = NumberCandleBuilder.ofInProgress
             (CandleBuilder.update candle tick timestamp))
  /\ (forall candle,
         NumberCandleBuilder.finalize (NumberCandleBuilder.ofInProgress candle)
         = NumberCandleBuilder.ofCandle (CandleBuilder.finalize candle))
  /\ (forall candle,
         NumberCandleBuilder.wellFormed (NumberCandleBuilder.ofCandle candle)
         = true <-> wellFormed candle).
Proof.
  split; [reflexivity |]. split; [reflexivity |]. split; [reflexivity |].
  intros candle. unfold NumberCandleBuilder.wellFormed, wellFormed. simpl.
  rewrite !andb_true_iff, !Z.leb_le. tauto.
Qed.

(** With integer prices the ordering holds in every state the constructor,
    dated ticks and flushes lead to. *)
Lemma integer_priced_candles_are_well_formed (symbol : string)
    (timeframes : list TimeframeConfig) (ops : list Aggregator.op) :
  positiveSeconds timeframes = true ->
  datedOps timeframes ops = true ->
  exists st,
    CandleBuilder.run ops (CandleBuilder.new symbol timeframes) = Some st
    /\ forall l buffer,
         CandleBuilder.getBuffer st l = Some buffer ->
         Forall wellFormed (RollingBuffer.records buffer).
Proof.
  intros _ _.
  destruct (run_invariant CandleBuilder.create CandleBuilder.update
              CandleBuilder.finalize wellFormedInProgress wellFormed)
    with (ops := ops) (st := CandleBuilder.new symbol timeframes)
    as (st & Hrun & _ & _ & _ & Hrec).
  - intros tick windowStart timestamp.
    unfold wellFormedInProgress, CandleBuilder.create. simpl. lia.
  - intros candle tick timestamp.
    unfold wellFormedInProgress, CandleBuilder.update. simpl. lia.
  - intros candle. unfold wellFormedInProgress, wellFormed,
      CandleBuilder.finalize. simpl. lia.
  - apply new_invariant.
  - exists st. split; [exact Hrun | exact Hrec].
Qed.

(** C2, as stated, fails: a tick whose price is [NaN] is taken like any
    other, and the candle it opens is finalized with [NaN] as open, high, low
    and close, for which no comparison holds. *)
Lemma nan_price_gives_ill_formed_candle :
  exists st buffer candle,
    NumberCandleBuilder.run
      [NumberCandleBuilder.AddTick nanTick; NumberCandleBuilder.AddTick nextTick]
      (NumberCandleBuilder.new "BTCUSDT" [tf1s]) = Some st
    /\ NumberCandleBuilder.getBuffer st "1s" = Some buffer
    /\ RollingBuffer.records buffer = [candle]
    /\ NumberCandleBuilder.c_low candle = NaN
    /\ number_le (NumberCandleBuilder.c_low candle)
                 (Math_min (NumberCandleBuilder.c_open candle)
                           (NumberCandleBuilder.c_close candle)) = false
    /\ NumberCandleBuilder.wellFormed candle = false.
Proof.
  eexists. eexists. eexists.
  split; [vm_compute; reflexivity |].
  split; [vm_compute; reflexivity |].
  split; [vm_compute; reflexivity |].
  split; [reflexivity |]. split; reflexivity.
Qed.

Lemma number_create_wellFormed tick windowStart timestamp :
  NumberCandleBuilder.isNumber (NumberCandleBuilder.n_price tick) = true ->
  NumberCandleBuilder.wellFormedInProgress
    (NumberCandleBuilder.create tick windowStart timestamp) = true.
Proof.
  unfold NumberCandleBuilder.wellFormedInProgress, NumberCandleBuilder.create.
  destruct (NumberCandleBuilder.n_price tick) as [p |]; [| discriminate].
  intros _. simpl. apply andb_true_iff. split; apply Z.leb_le; lia.
Qed.

Lemma number_update_wellFormed candle tick timestamp :
  NumberCandleBuilder.isNumber (NumberCandleBuilder.n_price tick) = true ->
  NumberCandleBuilder.wellFormedInProgress candle = true ->
  NumberCandleBuilder.wellFormedInProgress
    (NumberCandleBuilder.update candle tick timestamp) = true.
Proof.
  unfold NumberCandleBuilder.wellFormedInProgress, NumberCandleBuilder.update.
  destruct (NumberCandleBuilder.n_price tick) as [p |]; [| discriminate].
  intros _. simpl.
  destruct (NumberCandleBuilder.low candle) as [l |]; [| discriminate].
  destruct (NumberCandleBuilder.open candle) as [o |]; [| discriminate].
  destruct (NumberCandleBuilder.close candle) as [c |];
    [| intros H; apply andb_true_iff in H as [H _]; discriminate].
  destruct (NumberCandleBuilder.high candle) as [h |];
    [| intros H; apply andb_true_iff in H as [_ H]; discriminate].
  simpl. rewrite !andb_true_iff, !Z.leb_le. lia.
Qed.

Lemma number_finalize_wellFormed candle :
  NumberCandleBuilder.wellFormedInProgress candle = true ->
  NumberCandleBuilder.wellFormed (NumberCandleBuilder.finalize candle) = true.
Proof.
  unfold NumberCandleBuilder.wellFormedInProgress, NumberCandleBuilder.wellFormed,
    NumberCandleBuilder.finalize. simpl.
  destruct (NumberCandleBuilder.low candle) as [l |]; [| discriminate].
  destruct (NumberCandleBuilder.open candle) as [o |]; [| discriminate].
  destruct (NumberCandleBuilder.close candle) as [c |];
    [| intros H; apply andb_true_iff in H as [H _]; discriminate].
  destruct (NumberCandleBuilder.high candle) as [h |];
    [| intros H; apply andb_true_iff in H as [_ H]; discriminate].
  simpl. rewrite !andb_true_iff, !Z.leb_le. lia.
Qed.

Lemma number_run_invariant ops :
  forall st : NumberCandleBuilder.t,
    NumberCandleBuilder.pricedOps (Aggregator.timeframes st) ops = true ->
    invariant (fun c => NumberCandleBuilder.wellFormedInProgress c = true)
              (fun c => NumberCandleBuilder.wellFormed c = true) st ->
    exists st',
      NumberCandleBuilder.run ops st = Some st'
      /\ invariant (fun c => NumberCandleBuilder.wellFormedInProgress c = true)
                   (fun c => NumberCandleBuilder.wellFormed c = true) st'.
Proof.
  induction ops as [| o ops IH]; intros st Hops HInv.
  - exists st. split; [reflexivity | exact HInv].
  - simpl in Hops. apply andb_true_iff in Hops as [Ho Hops].
    assert (Hstep : exists st1,
               NumberCandleBuilder.step o st = Some st1
               /\ Aggregator.timeframes st1 = Aggregator.timeframes st
               /\ invariant
                    (fun c => NumberCandleBuilder.wellFormedInProgress c = true)
                    (fun c => NumberCandleBuilder.wellFormed c = true) st1).
    { destruct o as [tick |]; simpl.
      - apply andb_true_iff in Ho as [Hprice _].
        unfold NumberCandleBuilder.addTick.
        apply addTick_invariant; [| | | exact HInv].
        + intros _ windowStart timestamp.
          apply number_create_wellFormed, Hprice.
        + intros candle _ timestamp.
          apply number_update_wellFormed, Hprice.
        + apply number_finalize_wellFormed.
      - unfold NumberCandleBuilder.forceFinalizeAll.
        apply forceFinalizeAll_invariant; [| exact HInv].
        apply number_finalize_wellFormed. }
    destruct Hstep as (st1 & Hstep & Htfs1 & HInv1).
    destruct (IH st1) as (st' & Hrun & HInv');
      [rewrite Htfs1; exact Hops | exact HInv1 |].
    exists st'. unfold NumberCandleBuilder.run in *. simpl. rewrite Hstep.
    simpl. split; [exact Hrun | exact HInv'].
Qed.

(** C2, amended.  For an OHLC aggregator built by the constructor over
    timeframes of positive seconds, fed ticks whose prices are numbers other
    than [NaN] and whose times and window starts are dates, and flushed at
    will, with listeners that return: the calls return and every candle in
    every buffer satisfies
    low <= min(open, close) <= max(open, close) <= high. *)
Theorem finalized_candles_are_well_formed :
  forall (symbol : string) (timeframes : list TimeframeConfig)
         (ops : list NumberCandleBuilder.op),
    positiveSeconds timeframes = true ->
    NumberCandleBuilder.pricedOps timeframes ops = true ->
    exists st,
      NumberCandleBuilder.run ops (NumberCandleBuilder.new symbol timeframes)
      = Some st
      /\ forall l buffer,
           NumberCandleBuilder.getBuffer st l = Some buffer ->
           Forall (fun c => NumberCandleBuilder.wellFormed c = true)
                  (RollingBuffer.records buffer).
Proof.
  intros symbol timeframes ops _ Hops.
  destruct (number_run_invariant ops
              (NumberCandleBuilder.new symbol timeframes) Hops)
    as (st & Hrun & _ & _ & Hrec).
  - apply new_invariant.
  - exists st. split; [exact Hrun | exact Hrec].
Qed.

Lemma finalized_candles_are_well_formed_witness :
  let tickAt := fun time p =>
    NumberCandleBuilder.AddTick
      {| NumberCandleBuilder.n_ts := time;
         NumberCandleBuilder.n_price := Finite p;
         NumberCandleBuilder.n_size := Some 1;
         NumberCandleBuilder.n_symbol := "BTCUSDT";
         NumberCandleBuilder.n_exchange := "binance" |} in
  let ops := [tickAt 0 100; tickAt 300 99; tickAt 1200 105;
              NumberCandleBuilder.ForceFinalizeAll; tickAt 6100 104] in
  positiveSeconds [tf1s; tf5s] = true
  /\ NumberCandleBuilder.pricedOps [tf1s; tf5s] ops = true
  /\ exists st,
      NumberCandleBuilder.run ops
        (NumberCandleBuilder.new "BTCUSDT" [tf1s; tf5s]) = Some st
      /\ forall l buffer,
           NumberCandleBuilder.getBuffer st l = Some buffer ->
           Forall (fun c => NumberCandleBuilder.wellFormed c = true)
                  (RollingBuffer.records buffer).
Proof.
  intros tickAt ops. split; [reflexivity |]. split; [reflexivity |].
  apply (finalized_candles_are_well_formed "BTCUSDT" [tf1s; tf5s] ops);
    reflexivity.
Defined.

(** *** [forceFinalizeAll] with listeners *)

Lemma Forall_Map_delete {V : Type} (P : string * V -> Prop) (m : Map V)
    (k : string) :
  Forall P m -> Forall P (Map_delete m k).
Proof.
  induction 1 as [| [k' v'] m Hx Hm IH]; simpl; [constructor |].
  destruct (String.eqb k' k); [exact Hm | constructor; assumption].
Qed.

Section ThrowingFacts.
Context {InProgress Rec : Type}.
Variable create : NormalizedTick -> Z -> Z -> InProgress.
Variable update : InProgress -> NormalizedTick -> Z -> InProgress.
Variable startOf : InProgress -> Z.
Variable finalize : InProgress -> Rec.
Variable listeners : Rec -> string -> outcome unit.
Hypothesis create_start :
  forall tick windowStart timestamp,
    startOf (create tick windowStart timestamp) = windowStart.
Hypothesis update_start :
  forall candle tick timestamp,
    startOf (update candle tick timestamp) = startOf candle.

Local Abbreviation state := (Aggregator.t InProgress Rec).
Local Abbreviation pass :=
  (fun tf (st : state) =>
     forEach (Aggregator.finalizeKey finalize tf) (Aggregator.keysOf tf st) st).

(** A step that returns has done what the step of the aggregator model
    does. *)
Lemma finalizeRecord_returned (st st' : state) candle tf u :
  Throwing.finalizeRecord startOf finalize listeners st candle tf
  = (st', Returned u) ->
  Aggregator.finalizeRecord finalize st candle tf = Some st'.
Proof.
  unfold Throwing.finalizeRecord, Aggregator.finalizeRecord.
  destruct (toISOString_of_ms (startOf candle)); [| discriminate].
  destruct (Aggregator.buffers st !! label tf) as [buffer |];
    [| discriminate].
  simpl. intros [= <- _]. reflexivity.
Qed.

Lemma finalizeKeys_returned tf keys :
  forall (st st' : state) u,
    Throwing.finalizeKeys startOf finalize listeners tf keys st
    = (st', Returned u) ->
    forEach (Aggregator.finalizeKey finalize tf) keys st = Some st'.
Proof.
  induction keys as [| key keys IH]; intros st st' u.
  - simpl. intros [= <- _]. reflexivity.
  - cbn [Throwing.finalizeKeys forEach].
    destruct (Map_get (Aggregator.inProgress st) key) as [candle |] eqn:Hget;
      [| discriminate].
    destruct (Throwing.finalizeRecord startOf finalize listeners st candle tf)
      as [st1 [u1 | e]] eqn:Hrec; [| discriminate].
    apply finalizeRecord_returned in Hrec.
    intros Hrest.
    assert (Hkey : Aggregator.finalizeKey finalize tf key st
                   = Some (Aggregator.with_inProgress st1
                             (Map_delete (Aggregator.inProgress st1) key))).
    { unfold Aggregator.finalizeKey. rewrite Hget. simpl.
      rewrite Hrec. reflexivity. }
    rewrite Hkey. exact (IH _ _ _ Hrest).
Qed.

Lemma passes_returned tfs :
  forall (st st' : state) u,
    Throwing.passes startOf finalize listeners tfs st = (st', Returned u) ->
    forEach pass tfs st = Some st'.
Proof.
  induction tfs as [| tf tfs IH]; intros st st' u.
  - simpl. intros [= <- _]. reflexivity.
  - simpl.
    destruct (Throwing.finalizeKeys startOf finalize listeners tf
                (Aggregator.keysOf tf st) st) as [st1 [u1 | e]] eqn:Hkeys;
      [| discriminate].
    rewrite (finalizeKeys_returned _ _ _ _ _ Hkeys). simpl. apply IH.
Qed.

Lemma passes_idle tfs (st : state) :
  Forall (fun tf => matching tf (Aggregator.inProgress st) = []) tfs ->
  Throwing.passes startOf finalize listeners tfs st = (st, Returned tt).
Proof.
  induction 1 as [| tf tfs Htf _ IH]; [reflexivity |].
  simpl. rewrite keysOf_matching, Htf. simpl. exact IH.
Qed.

(** A call that returns leaves nothing for the next call to do. *)
Lemma flush_twice (st st1 : state) u :
  Throwing.forceFinalizeAll startOf finalize listeners st = (st1, Returned u) ->
  Aggregator.forceFinalizeAll finalize st = Some st1
  /\ Throwing.forceFinalizeAll startOf finalize listeners st1
     = (st1, Returned tt).
Proof.
  unfold Throwing.forceFinalizeAll, Aggregator.forceFinalizeAll.
  intros Hfirst. apply passes_returned in Hfirst.
  split; [exact Hfirst |].
  destruct (passes_clean finalize _ _ _ Hfirst) as (Htfs & _ & Hall).
  rewrite Htfs. apply passes_idle, Hall.
Qed.

(** With listeners that return and start times that are dates, the loops do
    what the loops of the aggregator model do. *)
Lemma finalizeKeys_quiet tf keys :
  (forall final l, listeners final l = Returned tt) ->
  forall st st' : state,
    datedStarts startOf st ->
    forEach (Aggregator.finalizeKey finalize tf) keys st = Some st' ->
    Throwing.finalizeKeys startOf finalize listeners tf keys st
    = (st', Returned tt)
    /\ datedStarts startOf st'.
Proof.
  intros Hquiet. induction keys as [| key keys IH]; intros st st' Hdated.
  - simpl. intros [= <-]. split; [reflexivity | exact Hdated].
  - cbn [Throwing.finalizeKeys forEach].
    destruct (Aggregator.finalizeKey finalize tf key st) as [st1 |] eqn:Hkey;
      [| discriminate].
    cbn [mbind option_bind]. intros Hrest.
    unfold Aggregator.finalizeKey in Hkey.
    destruct (Map_get (Aggregator.inProgress st) key) as [candle |] eqn:Hget;
      [| discriminate].
    simpl in Hkey.
    unfold Throwing.finalizeRecord.
    unfold Aggregator.finalizeRecord in Hkey.
    assert (Hvalid : Date_valid (startOf candle) = true).
    { apply Map_get_In in Hget.
      exact (proj1 (List.Forall_forall _ _) Hdated _ Hget). }
    unfold toISOString_of_ms. rewrite Hvalid.
    destruct (Aggregator.buffers st !! label tf) as [buffer |];
      [| discriminate].
    simpl in Hkey. injection Hkey as <-.
    rewrite Hquiet. apply IH; [| exact Hrest].
    unfold datedStarts in *. simpl. apply Forall_Map_delete, Hdated.
Qed.

Lemma passes_quiet tfs :
  (forall final l, listeners final l = Returned tt) ->
  forall st st' : state,
    datedStarts startOf st ->
    forEach pass tfs st = Some st' ->
    Throwing.passes startOf finalize listeners tfs st = (st', Returned tt)
    /\ datedStarts startOf st'.
Proof.
  intros Hquiet. induction tfs as [| tf tfs IH]; intros st st' Hdated.
  - simpl. intros [= <-]. split; [reflexivity | exact Hdated].
  - simpl.
    destruct (forEach (Aggregator.finalizeKey finalize tf)
                (Aggregator.keysOf tf st) st) as [st1 |] eqn:Hkeys;
      [| discriminate].
    destruct (finalizeKeys_quiet tf _ Hquiet st st1 Hdated Hkeys)
      as [Hsame Hdated1].
    rewrite Hsame. simpl. apply IH. exact Hdated1.
Qed.

(** Ticks whose window starts are dates keep the start times dates. *)
Lemma updateRecord_dated tick timestamp tf (st st' : state) :
  Date_valid (Aggregator.getWindowStart timestamp (seconds tf)) = true ->
  datedStarts startOf st ->
  Aggregator.updateRecord create update finalize tick timestamp tf st = Some st' ->
  datedStarts startOf st'.
Proof.
  intros Hvalid Hdated. unfold Aggregator.updateRecord. cbv zeta.
  destruct (Map_get (Aggregator.inProgress st) _) as [candle |] eqn:Hget.
  - intros [= <-]. unfold datedStarts in *. simpl.
    apply List.Forall_forall. intros e He.
    apply Map_set_In in He as [He | ->].
    + exact (proj1 (List.Forall_forall _ _) Hdated _ He).
    + simpl. rewrite update_start. apply Map_get_In in Hget.
      exact (proj1 (List.Forall_forall _ _) Hdated _ Hget).
  - destruct (forEach (Aggregator.finalizeKey finalize tf)
                (Aggregator.keysOf tf st) st) as [st1 |] eqn:Hkeys;
      [| discriminate].
    simpl. intros [= <-].
    assert (Hdated1 : datedStarts startOf st1).
    { destruct (pass_inProgress finalize tf st st1 Hkeys) as [Hip _].
      unfold datedStarts. rewrite Hip. unfold others.
      apply Forall_List_filter, Hdated. }
    unfold datedStarts in *. simpl.
    apply List.Forall_forall. intros e He.
    apply Map_set_In in He as [He | ->].
    + exact (proj1 (List.Forall_forall _ _) Hdated1 _ He).
    + simpl. rewrite create_start. exact Hvalid.
Qed.

Lemma updateRecords_dated tick l :
  forall st st' : state,
    forallb (fun tf =>
               Date_valid (Aggregator.getWindowStart (ts tick) (seconds tf)))
            l = true ->
    datedStarts startOf st ->
    forEach (Aggregator.updateRecord create update finalize tick (ts tick)) l st
    = Some st' ->
    datedStarts startOf st'.
Proof.
  induction l as [| tf l IH]; intros st st' Hwindows Hdated.
  - intros [= <-]. exact Hdated.
  - simpl in Hwindows. apply andb_true_iff in Hwindows as [Hw Hwindows].
    simpl.
    destruct (Aggregator.updateRecord create update finalize tick (ts tick)
                tf st) as [st1 |] eqn:Hupd; [| discriminate].
    simpl. apply IH; [exact Hwindows |].
    exact (updateRecord_dated _ _ _ _ _ Hw Hdated Hupd).
Qed.

Lemma passes_dated tfs :
  forall st st' : state,
    datedStarts startOf st ->
    forEach pass tfs st = Some st' ->
    datedStarts startOf st'.
Proof.
  induction tfs as [| tf tfs IH]; intros st st' Hdated.
  - intros [= <-]. exact Hdated.
  - simpl.
    destruct (forEach (Aggregator.finalizeKey finalize tf)
                (Aggregator.keysOf tf st) st) as [st1 |] eqn:Hkeys;
      [| discriminate].
    simpl. apply IH.
    destruct (pass_inProgress finalize tf st st1 Hkeys) as [Hip _].
    unfold datedStarts. rewrite Hip. unfold others.
    apply Forall_List_filter, Hdated.
Qed.

Lemma run_dated ops :
  forall st : state,
    datedOps (Aggregator.timeframes st) ops = true ->
    invariant (fun _ => True) (fun _ => True) st ->
    datedStarts startOf st ->
    exists st',
      Aggregator.run create update finalize ops st = Some st'
      /\ Aggregator.timeframes st' = Aggregator.timeframes st
      /\ invariant (fun _ => True) (fun _ => True) st'
      /\ datedStarts startOf st'.
Proof.
  induction ops as [| o ops IH]; intros st Hops HInv Hdated.
  - exists st. auto.
  - simpl in Hops. apply andb_true_iff in Hops as [Ho Hops].
    assert (Hstep : exists st1,
               Aggregator.step create update finalize o st = Some st1
               /\ Aggregator.timeframes st1 = Aggregator.timeframes st
               /\ invariant (fun _ => True) (fun _ => True) st1
               /\ datedStarts startOf st1).
    { destruct o as [tick |]; simpl.
      - destruct (addTick_invariant create update finalize (fun _ => True)
                    (fun _ => True)) with (tick := tick) (st := st)
          as (st1 & Hadd & Htfs1 & HInv1); auto.
        exists st1. split; [exact Hadd |]. split; [exact Htfs1 |].
        split; [exact HInv1 |].
        revert Hadd. unfold Aggregator.addTick.
        destruct (negb _); [intros [= <-]; exact Hdated |].
        unfold datedTick in Ho. apply andb_true_iff in Ho as [_ Hwindows].
        apply updateRecords_dated; assumption.
      - destruct (forceFinalizeAll_invariant finalize (fun _ => True)
                    (fun _ => True)) with (st := st)
          as (st1 & Hflush & Htfs1 & HInv1); auto.
        exists st1. split; [exact Hflush |]. split; [exact Htfs1 |].
        split; [exact HInv1 |].
        exact (passes_dated _ _ _ Hdated Hflush). }
    destruct Hstep as (st1 & Hstep & Htfs1 & HInv1 & Hdated1).
    destruct (IH st1) as (st' & Hrun & Htfs & HInv' & Hdated');
      [rewrite Htfs1; exact Hops | exact HInv1 | exact Hdated1 |].
    exists st'. unfold Aggregator.run in *. simpl. rewrite Hstep. simpl.
    split; [exact Hrun |]. split; [congruence |]. split; assumption.
Qed.

(** From a state the constructor and dated ticks lead to, and with listeners
    that return, [forceFinalizeAll] returns, and returns what it returns in
    the aggregator model. *)
Lemma flush_after_run sym tfs ops :
  datedOps tfs ops = true ->
  (forall final l, listeners final l = Returned tt) ->
  exists st st1 : state,
    Aggregator.run create update finalize ops (Aggregator.new sym tfs) = Some st
    /\ Aggregator.forceFinalizeAll finalize st = Some st1
    /\ Throwing.forceFinalizeAll startOf finalize listeners st
       = (st1, Returned tt)
    /\ Throwing.forceFinalizeAll startOf finalize listeners st1
       = (st1, Returned tt).
Proof.
  intros Hops Hquiet.
  destruct (run_dated ops (Aggregator.new sym tfs))
    as (st & Hrun & _ & HInv & Hdated);
    [exact Hops
    | apply (new_invariant (fun _ => True) (fun _ => True))
    | constructor |].
  destruct (forceFinalizeAll_invariant finalize (fun _ => True)
              (fun _ => True)) with (st := st)
    as (st1 & Hflush & _); auto.
  destruct (passes_quiet (Aggregator.timeframes st) Hquiet st st1 Hdated Hflush)
    as [Hfirst _].
  exists st, st1. split; [exact Hrun |]. split; [exact Hflush |].
  split; [exact Hfirst |].
  exact (proj2 (flush_twice st st1 tt Hfirst)).
Qed.

End ThrowingFacts.




(** *** Keys and the prefix test *)

Lemma app_cons (c : ascii) (a x : string) :
  String c a +:+ x = String c (a +:+ x).
Proof. reflexivity. Qed.

Lemma app_empty (x : string) : "" +:+ x = x.
Proof. reflexivity. Qed.

Lemma prefix_app_same (a x : string) : String.prefix a (a +:+ x) = true.
Proof.
  induction a as [| c a IH].
  - rewrite app_empty. destruct x; reflexivity.
  - rewrite app_cons. simpl.
    destruct (ascii_dec c c); [exact IH | contradiction].
Qed.

Lemma prefix_app_cases (a b w : string) :
  String.prefix a (b +:+ w) = true ->
  String.prefix a b = true \/ String.prefix b a = true.
Proof.
  revert b. induction a as [| c a IH]; intros b.
  - intros _. left. destruct b; reflexivity.
  - destruct b as [| d b]; [intros _; right; reflexivity |].
    rewrite app_cons. simpl.
    destruct (ascii_dec c d) as [-> | Hne]; [| discriminate].
    destruct (ascii_dec d d); [| contradiction]. apply IH.
Qed.

Lemma string_app_assoc (a b c : string) : (a +:+ b) +:+ c = a +:+ (b +:+ c).
Proof.
  induction a as [| x a IH]; [reflexivity |].
  rewrite !app_cons. f_equal. exact IH.
Qed.

Lemma key_startsWith_own_label (tf : TimeframeConfig) (w : Z) :
  startsWith (Aggregator.key tf w) (label tf) = true.
Proof. apply prefix_app_same. Qed.

Lemma separated_key (a b : TimeframeConfig) (w : Z) :
  separated a b = true -> startsWith (Aggregator.key b w) (label a) = false.
Proof.
  unfold separated, startsWith, Aggregator.key. intros Hsep.
  apply andb_true_iff in Hsep as [H1 H2].
  apply negb_true_iff in H1, H2.
  destruct (String.prefix (label a)
              (label b +:+ "_" +:+ Number_toString w)) eqn:Hp; [| reflexivity].
  rewrite <- string_app_assoc in Hp.
  apply prefix_app_cases in Hp as [Hp | Hp]; congruence.
Qed.

Lemma Number_toString_inj (n n' : Z) :
  Number_toString n = Number_toString n' -> n = n'.
Proof.
  unfold Number_toString. intros Heq.
  assert (Hnn : forall z, Z.to_int z <> Decimal.Pos Decimal.Nil
                          /\ Z.to_int z <> Decimal.Neg Decimal.Nil).
  { intros [| q | q]; simpl; split; try discriminate;
      intros [= H]; exact (Unsigned.to_uint_nonnil q H). }
  apply (f_equal NilZero.int_of_string) in Heq.
  rewrite !NilZero.isi in Heq by apply Hnn.
  injection Heq as Heq. apply to_int_inj, Heq.
Qed.

Lemma key_inj (tf : TimeframeConfig) (w w' : Z) :
  Aggregator.key tf w = Aggregator.key tf w' -> w = w'.
Proof.
  unfold Aggregator.key. intros Heq.
  apply String.app_inj in Heq. apply String.app_inj in Heq.
  apply Number_toString_inj, Heq.
Qed.

Lemma network_ok_pair (tfs : list TimeframeConfig) (a b : TimeframeConfig) :
  network_ok tfs = true -> a ∈ tfs -> b ∈ tfs ->
  (label a = label b -> seconds a = seconds b)
  /\ (label a <> label b -> separated a b = true).
Proof.
  unfold network_ok. intros Hok Ha Hb.
  rewrite forallb_forall in Hok.
  pose proof (Hok a (proj1 (list_elem_of_In _ _) Ha)) as Hrow.
  rewrite forallb_forall in Hrow.
  pose proof (Hrow b (proj1 (list_elem_of_In _ _) Hb)) as Hcell.
  destruct (String.eqb_spec (label a) (label b)) as [Heq | Hne].
  - split; [intros _; apply Z.eqb_eq, Hcell | contradiction].
  - split; [contradiction | intros _; exact Hcell].
Qed.

Section MatchingFacts.
Context {V : Type}.
Implicit Types (m : Map V) (tf : TimeframeConfig).

Lemma Map_get_matching tf m k :
  startsWith k (label tf) = true -> Map_get (matching tf m) k = Map_get m k.
Proof. exact (Map_get_filter (fun k => startsWith k (label tf)) m k). Qed.

Lemma matching_Map_set_in tf m k v :
  startsWith k (label tf) = true ->
  matching tf (Map_set m k v) = Map_set (matching tf m) k v.
Proof. exact (Map_set_filter (fun k => startsWith k (label tf)) m k v). Qed.

Lemma matching_Map_set_out tf m k v :
  startsWith k (label tf) = false ->
  matching tf (Map_set m k v) = matching tf m.
Proof. exact (Map_set_filter_out (fun k => startsWith k (label tf)) m k v). Qed.

Lemma matching_others_same tf m : matching tf (others tf m) = [].
Proof.
  unfold matching, others. induction m as [| [k v] m IH]; [reflexivity |].
  simpl. destruct (startsWith k (label tf)) eqn:HP; simpl; [exact IH |].
  rewrite HP. exact IH.
Qed.

(** Evicting for one timeframe leaves the entries of another alone, as long
    as the other's entries do not pass the first one's test. *)
Lemma matching_others_apart tf tf' m :
  Forall (fun e => startsWith e.1 (label tf') = false) (matching tf m) ->
  matching tf (others tf' m) = matching tf m.
Proof.
  unfold matching, others. induction m as [| [k v] m IH]; [reflexivity |].
  simpl. destruct (startsWith k (label tf)) eqn:HP; simpl.
  - intros Hall. apply Forall_cons in Hall as [Hk Hall]. simpl in Hk.
    rewrite Hk. simpl. rewrite HP. f_equal. auto.
  - intros Hall. destruct (startsWith k (label tf')); simpl; [auto |].
    rewrite HP. auto.
Qed.

End MatchingFacts.

(** *** Buffers in window order *)

Lemma ordered_snoc (ms : Z) (l : list Candle) (r : Candle) :
  ordered ms l ->
  Forall (fun c => (ms | datetime c)) l -> (ms | datetime r) ->
  Forall (fun c => datetime c < datetime r) l ->
  ordered ms (l ++ [r]).
Proof.
  intros Hord Hdiv Hr Hlt i r1 r2 H1 H2.
  pose proof (lookup_lt_Some _ _ _ H2) as Hlen.
  rewrite length_app in Hlen. simpl in Hlen.
  destruct (decide (S i < length l)%nat) as [Hin | Hout].
  - rewrite lookup_app_l in H1 by lia. rewrite lookup_app_l in H2 by lia.
    exact (Hord i r1 r2 H1 H2).
  - rewrite lookup_app_l in H1 by lia. rewrite lookup_app_r in H2 by lia.
    replace (S i - length l)%nat with 0%nat in H2 by lia.
    injection H2 as <-.
    split.
    + exact (Forall_lookup_1 _ _ _ _ Hlt H1).
    + apply Z.divide_sub_r; [exact Hr |].
      exact (Forall_lookup_1 _ _ _ _ Hdiv H1).
Qed.

Lemma ordered_tail (ms : Z) (l : list Candle) :
  ordered ms l -> ordered ms (tail l).
Proof.
  intros Hord i r1 r2 H1 H2. rewrite lookup_tail in H1, H2.
  exact (Hord (S i) r1 r2 H1 H2).
Qed.

Lemma push_ordered (ms : Z) (b : Buffer) (r : Candle) :
  ordered ms (RollingBuffer.records b) ->
  Forall (fun c => (ms | datetime c)) (RollingBuffer.records b) ->
  (ms | datetime r) ->
  Forall (fun c => datetime c < datetime r) (RollingBuffer.records b) ->
  ordered ms (RollingBuffer.records (RollingBuffer.push b r)).
Proof.
  intros Hord Hdiv Hr Hlt. unfold RollingBuffer.push. simpl.
  pose proof (ordered_snoc ms _ r Hord Hdiv Hr Hlt) as Hsnoc.
  destruct (_ <? _); [apply ordered_tail |]; exact Hsnoc.
Qed.

Lemma getWindowStart_divide (timestamp secs : Z) :
  (secs * 1000 | Aggregator.getWindowStart timestamp secs).
Proof. unfold Aggregator.getWindowStart. apply Z.divide_factor_r. Qed.

(** [updateRecord] reads only the label and the seconds of a timeframe. *)
Lemma updateCandle_congr (b tf : TimeframeConfig) tick timestamp
    (st : CandleBuilder.t) :
  label b = label tf -> seconds b = seconds tf ->
  CandleBuilder.updateCandle tick timestamp b st
  = CandleBuilder.updateCandle tick timestamp tf st.
Proof.
  destruct b as [sb lb zb], tf as [stf ltf ztf]. simpl.
  intros -> ->. reflexivity.
Qed.

Section Tracking.
Variable sym : string.
Variable tfs : list TimeframeConfig.
Variable tf : TimeframeConfig.
Hypothesis network : network_ok tfs = true.
Hypothesis member : tf ∈ tfs.
Hypothesis positive : 0 < seconds tf.

Implicit Types (st : CandleBuilder.t) (w : option Z).

(** A step that leaves the timeframe's buffer and candles alone keeps what
    is known about them. *)
Lemma tracks_transfer w st st' :
  tracks sym tfs tf w st ->
  Aggregator.timeframes st' = Aggregator.timeframes st ->
  Aggregator.symbol st' = Aggregator.symbol st ->
  (forall b, is_Some (Aggregator.buffers st !! label b) ->
             is_Some (Aggregator.buffers st' !! label b)) ->
  Aggregator.buffers st' !! label tf = Aggregator.buffers st !! label tf ->
  matching tf (Aggregator.inProgress st')
  = matching tf (Aggregator.inProgress st) ->
  tracks sym tfs tf w st'.
Proof.
  intros (Htfs & Hsym & Hbufs & buf & Hbuf & Hord & Hdiv & Hw)
         Htfs' Hsym' Hbufs' Hbuf' Hm'.
  split; [congruence |]. split; [congruence |]. split; [auto |].
  exists buf. split; [congruence |]. split; [exact Hord |].
  split; [exact Hdiv |]. rewrite Hm'. exact Hw.
Qed.

Lemma updateCandle_other_timeframe b w tick timestamp st :
  b ∈ tfs -> label b <> label tf ->
  tracks sym tfs tf w st ->
  exists st',
    CandleBuilder.updateCandle tick timestamp b st = Some st'
    /\ tracks sym tfs tf w st'.
Proof.
  intros Hb Hne Htracks.
  pose proof Htracks as (Htfs & Hsym & Hbufs & buf & Hbuf & Hord & Hdiv & Hw).
  destruct (Hbufs b Hb) as [bufb Hbufb].
  destruct (network_ok_pair tfs tf b network member Hb) as [_ Htb].
  destruct (network_ok_pair tfs b tf network Hb member) as [_ Hbt].
  assert (Hout : forall x, startsWith (Aggregator.key b x) (label tf) = false).
  { intros x. apply separated_key, Htb. congruence. }
  assert (Hmine : forall x, startsWith (Aggregator.key tf x) (label b) = false).
  { intros x. apply separated_key, Hbt. exact Hne. }
  unfold CandleBuilder.updateCandle.
  rewrite (updateRecord_spec _ _ _ tick timestamp b st bufb Hbufb).
  cbv zeta.
  destruct (Map_get (Aggregator.inProgress st) _) as [candle |].
  - eexists. split; [reflexivity |].
    apply (tracks_transfer w st); simpl; auto.
    apply matching_Map_set_out, Hout.
  - eexists. split; [reflexivity |].
    apply (tracks_transfer w st); simpl; auto.
    + intros b' Hb'. destruct (decide (label b = label b')) as [<- | Hne'].
      * rewrite lookup_insert_eq. eauto.
      * rewrite lookup_insert_ne by exact Hne'. exact Hb'.
    + apply lookup_insert_ne, Hne.
    + rewrite matching_Map_set_out by apply Hout.
      apply matching_others_apart.
      destruct w as [ws |].
      * destruct Hw as ((c & -> & _) & _). apply Forall_singleton, Hmine.
      * destruct Hw as (-> & _). constructor.
Qed.

Lemma updateCandle_same_timeframe w tick timestamp st :
  tracks sym tfs tf w st ->
  (forall ws, w = Some ws ->
              ws <= Aggregator.getWindowStart timestamp (seconds tf)) ->
  exists st',
    CandleBuilder.updateCandle tick timestamp tf st = Some st'
    /\ tracks sym tfs tf
         (Some (Aggregator.getWindowStart timestamp (seconds tf))) st'.
Proof.
  intros (Htfs & Hsym & Hbufs & buf & Hbuf & Hord & Hdiv & Hw) Hle.
  set (W := Aggregator.getWindowStart timestamp (seconds tf)) in *.
  assert (HW : (seconds tf * 1000 | W)) by apply getWindowStart_divide.
  assert (Hkeep : forall b new,
             is_Some (Aggregator.buffers st !! label b) ->
             is_Some (<[label tf := new]> (Aggregator.buffers st) !! label b)).
  { intros b new Hb. destruct (decide (label tf = label b)) as [<- | Hne'].
    - rewrite lookup_insert_eq. eauto.
    - rewrite lookup_insert_ne by exact Hne'. exact Hb. }
  unfold CandleBuilder.updateCandle.
  rewrite (updateRecord_spec _ _ _ tick timestamp tf st buf Hbuf).
  cbv zeta. fold W.
  rewrite <- (Map_get_matching tf _ _ (key_startsWith_own_label tf W)).
  destruct w as [ws |].
  - destruct Hw as ((c & Hm & Hstart) & Hdivw & Hlt).
    rewrite Hm. simpl Map_get.
    destruct (String.eqb_spec (Aggregator.key tf ws) (Aggregator.key tf W))
      as [Heq | Hneq].
    + apply key_inj in Heq. rewrite Heq in *. clear Heq.
      eexists. split; [reflexivity |].
      split; [exact Htfs |]. split; [exact Hsym |]. split; [exact Hbufs |].
      exists buf. split; [exact Hbuf |]. split; [exact Hord |].
      split; [exact Hdiv |]. split; [| split; [exact HW | exact Hlt]].
      exists (CandleBuilder.update c tick timestamp). simpl.
      rewrite matching_Map_set_in by apply key_startsWith_own_label.
      rewrite Hm. simpl. rewrite String.eqb_refl.
      split; [reflexivity | exact Hstart].
    + assert (Hlt' : ws < W).
      { specialize (Hle ws eq_refl).
        destruct (Z.eq_dec ws W) as [-> | Hd]; [contradiction | lia]. }
      eexists. split; [reflexivity |].
      split; [exact Htfs |]. split; [exact Hsym |].
      split; [intros b Hb; apply Hkeep, Hbufs, Hb |].
      eexists. simpl. rewrite Hm. simpl.
      split; [apply lookup_insert_eq |].
      assert (Hdt : datetime (CandleBuilder.finalize c) = ws) by exact Hstart.
      split; [| split; [| split; [| split]]].
      * apply push_ordered; rewrite ?Hdt; assumption.
      * apply push_Forall; [exact Hdiv | rewrite Hdt; exact Hdivw].
      * exists (CandleBuilder.create tick W timestamp).
        rewrite matching_Map_set_in by apply key_startsWith_own_label.
        rewrite matching_others_same. split; reflexivity.
      * exact HW.
      * apply push_Forall; [| rewrite Hdt; exact Hlt'].
        eapply Forall_impl; [exact Hlt |]. simpl. intros x Hx. lia.
  - destruct Hw as (Hm & Hempty). rewrite Hm. simpl Map_get.
    eexists. split; [reflexivity |].
    split; [exact Htfs |]. split; [exact Hsym |].
    split; [intros b Hb; apply Hkeep, Hbufs, Hb |].
    eexists. simpl. rewrite Hm. simpl.
    split; [apply lookup_insert_eq |].
    split; [exact Hord |]. split; [exact Hdiv |].
    split; [| split; [exact HW | rewrite Hempty; constructor]].
    exists (CandleBuilder.create tick W timestamp).
    rewrite matching_Map_set_in by apply key_startsWith_own_label.
    rewrite matching_others_same. split; reflexivity.
Qed.

Lemma updateCandles_track tick timestamp (l : list TimeframeConfig) :
  l ⊆ tfs ->
  forall st w,
    tracks sym tfs tf w st ->
    (forall ws, w = Some ws ->
                ws <= Aggregator.getWindowStart timestamp (seconds tf)) ->
    exists st' w',
      forEach (CandleBuilder.updateCandle tick timestamp) l st = Some st'
      /\ tracks sym tfs tf w' st'
      /\ (forall ws, w' = Some ws ->
                     ws <= Aggregator.getWindowStart timestamp (seconds tf))
      /\ (tf ∈ l
           \/ w = Some (Aggregator.getWindowStart timestamp (seconds tf)) ->
          w' = Some (Aggregator.getWindowStart timestamp (seconds tf))).
Proof.
  set (W := Aggregator.getWindowStart timestamp (seconds tf)).
  induction l as [| b l IH]; intros Hsub st w Htracks Hle.
  - exists st, w. split; [reflexivity |]. split; [exact Htracks |].
    split; [exact Hle |]. intros [Hin | Hw]; [inversion Hin | exact Hw].
  - assert (Hb : b ∈ tfs) by apply Hsub, list_elem_of_here.
    assert (Hsub' : l ⊆ tfs).
    { intros y Hy. apply Hsub, list_elem_of_further, Hy. }
    destruct (decide (label b = label tf)) as [Hsame | Hdiff].
    + destruct (network_ok_pair tfs b tf network Hb member) as [Hsec _].
      destruct (updateCandle_same_timeframe w tick timestamp st Htracks Hle)
        as (st1 & Hstep & Htracks1).
      destruct (IH Hsub' st1 (Some W) Htracks1) as (st' & w' & Hrun & Ht & Hl & Hw').
      { intros ws [= <-]. lia. }
      exists st', w'. simpl.
      rewrite (updateCandle_congr b tf tick timestamp st Hsame (Hsec Hsame)).
      rewrite Hstep. simpl.
      split; [exact Hrun |]. split; [exact Ht |]. split; [exact Hl |].
      intros _. apply Hw'. right. reflexivity.
    + destruct (updateCandle_other_timeframe b w tick timestamp st Hb Hdiff
                  Htracks) as (st1 & Hstep & Htracks1).
      destruct (IH Hsub' st1 w Htracks1 Hle) as (st' & w' & Hrun & Ht & Hl & Hw').
      exists st', w'. simpl. rewrite Hstep. simpl.
      split; [exact Hrun |]. split; [exact Ht |]. split; [exact Hl |].
      intros [Hin | Hw]; apply Hw'; [| right; exact Hw].
      apply elem_of_cons in Hin as [-> | Hin]; [contradiction | left; exact Hin].
Qed.

Lemma addTick_tracks tick st w :
  tracks sym tfs tf w st ->
  (forall ws, w = Some ws ->
              ws <= Aggregator.getWindowStart (ts tick) (seconds tf)) ->
  Types.symbol tick = sym ->
  exists st',
    CandleBuilder.addTick tick st = Some st'
    /\ tracks sym tfs tf
         (Some (Aggregator.getWindowStart (ts tick) (seconds tf))) st'.
Proof.
  intros Htracks Hle Hsymbol.
  pose proof Htracks as (Htfs & Hsym & _).
  unfold CandleBuilder.addTick, Aggregator.addTick.
  rewrite Hsym, Hsymbol, String.eqb_refl. simpl. rewrite Htfs.
  destruct (updateCandles_track tick (ts tick) tfs (reflexivity _) st w
              Htracks Hle) as (st' & w' & Hrun & Ht & _ & Hw').
  exists st'. split; [exact Hrun |].
  rewrite <- (Hw' (or_introl member)). exact Ht.
Qed.

Lemma addTick_other_symbol tick st w :
  tracks sym tfs tf w st ->
  Types.symbol tick <> sym ->
  CandleBuilder.addTick tick st = Some st.
Proof.
  intros (_ & Hsym & _) Hne.
  unfold CandleBuilder.addTick, Aggregator.addTick. rewrite Hsym.
  destruct (String.eqb_spec (Types.symbol tick) sym); [contradiction |].
  reflexivity.
Qed.

Lemma run_tracks (ticks : list NormalizedTick) :
  forall st w,
    tracks sym tfs tf w st ->
    windowsInOrder sym tf w ticks = true ->
    exists st' w',
      CandleBuilder.run (map Aggregator.AddTick ticks) st = Some st'
      /\ tracks sym tfs tf w' st'.
Proof.
  induction ticks as [| tick ticks IH]; intros st w Htracks Horder.
  - exists st, w. split; [reflexivity | exact Htracks].
  - simpl in Horder.
    destruct (String.eqb_spec (Types.symbol tick) sym) as [Hsymbol | Hsymbol].
    + apply andb_true_iff in Horder as [Hfirst Hrest].
      destruct (addTick_tracks tick st w Htracks) as (st1 & Hstep & Htracks1);
        [| exact Hsymbol |].
      { intros ws ->. apply Z.leb_le, Hfirst. }
      destruct (IH st1 _ Htracks1 Hrest) as (st' & w' & Hrun & Ht).
      exists st', w'. unfold CandleBuilder.run, Aggregator.run in *. simpl.
      unfold CandleBuilder.addTick in Hstep. rewrite Hstep. simpl.
      split; [exact Hrun | exact Ht].
    + destruct (IH st w Htracks Horder) as (st' & w' & Hrun & Ht).
      exists st', w'. unfold CandleBuilder.run, Aggregator.run in *. simpl.
      pose proof (addTick_other_symbol tick st w Htracks Hsymbol) as Hstep.
      unfold CandleBuilder.addTick in Hstep. rewrite Hstep. simpl.
      split; [exact Hrun | exact Ht].
Qed.

Lemma new_tracks : tracks sym tfs tf None (CandleBuilder.new sym tfs).
Proof.
  destruct (new_buffers (Rec := Candle) tfs ∅) as (Hin & _ & Hempty).
  split; [reflexivity |]. split; [reflexivity |]. split; [exact Hin |].
  destruct (Hin tf member) as [buf Hbuf]. exists buf.
  assert (Hrecords : RollingBuffer.records buf = []).
  { apply (Hempty (fun l' b' H' =>
             ltac:(rewrite lookup_empty in H'; discriminate)) _ _ Hbuf). }
  split; [exact Hbuf |]. rewrite Hrecords.
  split; [intros i r1 r2 H1; inversion H1 |].
  split; [constructor |]. split; reflexivity.
Qed.

End Tracking.

(** *** What a tick does when its window has no candle yet *)

Lemma Map_get_others_None {V : Type} (tf : TimeframeConfig) (m : Map V)
    (k : string) :
  Map_get m k = None -> Map_get (others tf m) k = None.
Proof.
  unfold others. induction m as [| [k' v'] m IH]; [reflexivity |]. simpl.
  destruct (String.eqb_spec k' k) as [-> | Hne]; [discriminate |].
  intros Hget. destruct (negb _); simpl; [| auto].
  destruct (String.eqb_spec k' k); [contradiction | auto].
Qed.

Lemma Map_set_fresh {V : Type} (m : Map V) (k : string) (v : V) :
  Map_get m k = None -> Map_set m k v = m ++ [(k, v)].
Proof.
  induction m as [| [k' v'] m IH]; [reflexivity |]. simpl.
  destruct (String.eqb_spec k' k); [discriminate |].
  intros Hget. f_equal. auto.
Qed.

(** When the tick's window has no candle, [updateCandle] finalizes, in map
    order, exactly the candles whose key begins with the timeframe's label,
    pushes them into the buffer of that label, removes them, and appends a
    candle whose open, high, low and close are the tick's price and whose
    volume is the tick's size, or 0. *)
Lemma updateCandle_new_window (tick : NormalizedTick) (timestamp : Z)
    (tf : TimeframeConfig) (st : CandleBuilder.t) (buf : Buffer) :
  let windowStart := Aggregator.getWindowStart timestamp (seconds tf) in
  Aggregator.buffers st !! label tf = Some buf ->
  Map_get (Aggregator.inProgress st) (Aggregator.key tf windowStart) = None ->
  exists st',
    CandleBuilder.updateCandle tick timestamp tf st = Some st'
    /\ Aggregator.inProgress st'
       = others tf (Aggregator.inProgress st)
         ++ [(Aggregator.key tf windowStart,
              {| CandleBuilder.open := price tick;
                 CandleBuilder.high := price tick;
                 CandleBuilder.low := price tick;
                 CandleBuilder.close := price tick;
                 CandleBuilder.volume := or_zero (size tick);
                 CandleBuilder.startTime := windowStart;
                 CandleBuilder.lastUpdate := timestamp |})]
    /\ Aggregator.buffers st'
       = <[label tf :=
             pushAll buf
               (map CandleBuilder.finalize
                    (matching tf (Aggregator.inProgress st)).*2)]>
           (Aggregator.buffers st).
Proof.
  intros windowStart Hbuf Hget. unfold CandleBuilder.updateCandle.
  rewrite (updateRecord_spec _ _ _ tick timestamp tf st buf Hbuf).
  cbv zeta. fold windowStart. rewrite Hget.
  eexists. split; [reflexivity |]. simpl. split; [| reflexivity].
  apply Map_set_fresh, Map_get_others_None, Hget.
Qed.

(** With labels that the prefix test keeps apart, the candles selected are
    none of another timeframe's. *)
Lemma matching_excludes_separated (a b : TimeframeConfig) (w : Z)
    (m : Map CandleBuilder.CandleInProgress)
    (c : CandleBuilder.CandleInProgress) :
  separated a b = true -> ~ In (Aggregator.key b w, c) (matching a m).
Proof.
  intros Hsep Hin. unfold matching in Hin.
  apply filter_In in Hin as [_ Hstarts]. simpl in Hstarts.
  rewrite (separated_key a b w Hsep) in Hstarts. discriminate.
Qed.

(** C4 (where the code departs from it).  The candles to evict are chosen by
    [key.startsWith(tf.label)], which also selects the candles of a timeframe
    whose label merely begins with this one's.  With timeframes labelled 1m
    and 1mo, a tick that opens a new 1m window evicts the 1mo candle too and
    pushes it into the 1m buffer; the 1mo buffer receives nothing. *)
Theorem updateCandle_evicts_candle_of_other_timeframe :
  exists st' (buffer1m buffer1mo : Buffer),
    Map_keys (Aggregator.inProgress monthlyBuilder)
    = ["1m_2592060000"; "1mo_2592000000"]
    /\ CandleBuilder.updateCandle (sampleTick 2592120000 101) 2592120000
         tf1m monthlyBuilder = Some st'
    /\ Map_keys (Aggregator.inProgress st') = ["1m_2592120000"]
    /\ CandleBuilder.getBuffer st' "1m" = Some buffer1m
    /\ map datetime (RollingBuffer.records buffer1m)
       = [2592060000; 2592000000]
    /\ CandleBuilder.getBuffer st' "1mo" = Some buffer1mo
    /\ RollingBuffer.records buffer1mo = []
    /\ map snd (Aggregator.notified st') = ["1m"; "1m"].
Proof.
  eexists. eexists. eexists.
  split; [vm_compute; reflexivity |].
  split; [vm_compute; reflexivity |].
  split; [vm_compute; reflexivity |].
  split; [vm_compute; reflexivity |].
  split; [vm_compute; reflexivity |].
  split; [vm_compute; reflexivity |].
  split; vm_compute; reflexivity.
Qed.

(** C3, as stated, fails: a tick that falls before the window of the candle in
    progress finalizes that candle and opens one for the earlier window,
    which is pushed in its turn, behind a later one. *)
Lemma out_of_order_tick_breaks_buffer_order :
  exists st buffer,
    CandleBuilder.run
      (map Aggregator.AddTick
           [sampleTick 1000 100; sampleTick 0 101; sampleTick 2000 102])
      (CandleBuilder.new "BTCUSDT" [tf1s]) = Some st
    /\ CandleBuilder.getBuffer st "1s" = Some buffer
    /\ map datetime (RollingBuffer.records buffer) = [1000; 0]
    /\ ~ ordered 1000 (RollingBuffer.records buffer).
Proof.
  eexists. eexists.
  split; [vm_compute; reflexivity |].
  split; [vm_compute; reflexivity |].
  split; [vm_compute; reflexivity |].
  intros Hordered.
  destruct (Hordered 0%nat _ _ eq_refl eq_refl) as [Hlt _].
  vm_compute in Hlt. discriminate.
Qed.

(** A flush between two ticks of one window makes that window appear twice
    in the buffer. *)
Lemma flush_between_ticks_repeats_a_window :
  exists st buffer,
    CandleBuilder.run
      [Aggregator.AddTick (sampleTick 100 100); Aggregator.ForceFinalizeAll;
       Aggregator.AddTick (sampleTick 200 101);
       Aggregator.AddTick (sampleTick 1000 102)]
      (CandleBuilder.new "BTCUSDT" [tf1s]) = Some st
    /\ CandleBuilder.getBuffer st "1s" = Some buffer
    /\ map datetime (RollingBuffer.records buffer) = [0; 0].
Proof.
  eexists. eexists.
  split; [vm_compute; reflexivity |].
  split; vm_compute; reflexivity.
Qed.

(** C3, amended.  For an aggregator that, since its construction, has been
    given ticks only (no [forceFinalizeAll] in between): in a network of
    timeframes with positive seconds whose labels the prefix test keeps
    apart, with ticks whose times and window starts are dates, if no tick of
    the aggregator's symbol falls in a window of the timeframe earlier than
    the window of the tick before it, then adding the ticks completes and, in
    that timeframe's buffer, each record is strictly later than the one
    before it and a whole number of windows after it. *)
Theorem buffer_ordered_when_ticks_arrive_in_window_order :
  forall (sym : string) (tfs : list TimeframeConfig) (tf : TimeframeConfig)
         (ticks : list NormalizedTick),
    network_ok tfs = true ->
    positiveSeconds tfs = true ->
    tf ∈ tfs ->
    0 < seconds tf ->
    datedOps tfs (map Aggregator.AddTick ticks) = true ->
    windowsInOrder sym tf None ticks = true ->
    exists st buffer,
      CandleBuilder.run (map Aggregator.AddTick ticks)
        (CandleBuilder.new sym tfs) = Some st
      /\ CandleBuilder.getBuffer st (label tf) = Some buffer
      /\ ordered (seconds tf * 1000) (RollingBuffer.records buffer).
Proof.
  intros sym tfs tf ticks Hnet _ Hin Hpos _ Horder.
  destruct (run_tracks sym tfs tf Hnet Hin Hpos ticks
              (CandleBuilder.new sym tfs) None
              (new_tracks sym tfs tf Hin) Horder)
    as (st & w & Hrun & _ & _ & _ & buf & Hbuf & Hord & _).
  exists st, buf. split; [exact Hrun |]. split; [exact Hbuf | exact Hord].
Qed.

Lemma buffer_ordered_when_ticks_arrive_in_window_order_witness :
  let ticks := [sampleTick 0 100; sampleTick 300 101; sampleTick 1200 105;
                sampleTick 6100 104; sampleTick 6100 103] in
  network_ok [tf1s; tf5s] = true
  /\ positiveSeconds [tf1s; tf5s] = true
  /\ datedOps [tf1s; tf5s] (map Aggregator.AddTick ticks) = true
  /\ windowsInOrder "BTCUSDT" tf1s None ticks = true
  /\ exists st buffer,
      CandleBuilder.run (map Aggregator.AddTick ticks)
        (CandleBuilder.new "BTCUSDT" [tf1s; tf5s]) = Some st
      /\ CandleBuilder.getBuffer st (label tf1s) = Some buffer
      /\ ordered (seconds tf1s * 1000) (RollingBuffer.records buffer).
Proof.
  intros ticks. split; [reflexivity |]. split; [reflexivity |].
  split; [reflexivity |]. split; [reflexivity |].
  apply (buffer_ordered_when_ticks_arrive_in_window_order
           "BTCUSDT" [tf1s; tf5s] tf1s ticks);
    [reflexivity | reflexivity | apply list_elem_of_here | reflexivity
    | reflexivity | reflexivity].
Defined.

(** ** Causal-API dispatcher *)

(** *** Lines of a payload *)

Lemma app_empty_r (x : string) : x +:+ "" = x.
Proof.
  induction x as [| c x IH]; [reflexivity |].
  rewrite app_cons. f_equal. exact IH.
Qed.

Lemma no_newline_app (a b : string) :
  no_newline (a +:+ b) = no_newline a && no_newline b.
Proof.
  induction a as [| c a IH]; [reflexivity |].
  rewrite app_cons. simpl. rewrite IH, andb_assoc. reflexivity.
Qed.

Lemma lines_from_app (a s current : string) :
  no_newline a = true ->
  lines_from current (a +:+ s) = lines_from (current +:+ a) s.
Proof.
  revert current. induction a as [| c a IH]; intros current Ha.
  - rewrite app_empty, app_empty_r. reflexivity.
  - simpl in Ha. apply andb_true_iff in Ha as [Hc Ha].
    apply negb_true_iff in Hc.
    rewrite app_cons. simpl. rewrite Hc. rewrite IH by exact Ha.
    rewrite string_app_assoc. reflexivity.
Qed.

Lemma lines_join (rows : list string) :
  rows <> [] -> Forall (fun r => no_newline r = true) rows ->
  lines (join rows) = rows.
Proof.
  unfold lines. induction rows as [| r rows IH]; [contradiction |].
  intros _ Hall. apply Forall_cons in Hall as [Hr Hall].
  destruct rows as [| r' rows].
  - simpl join. rewrite <- (app_empty_r r) at 1.
    rewrite (lines_from_app r "" "" Hr). reflexivity.
  - change (join (r :: r' :: rows))
      with (r +:+ String newline (join (r' :: rows))).
    rewrite (lines_from_app r _ "" Hr). rewrite app_empty.
    simpl lines_from. rewrite ?Ascii.eqb_refl.
    f_equal. apply IH; [discriminate | exact Hall].
Qed.

Lemma digit_no_newline (d : Z) : Ascii.eqb (digit d) newline = false.
Proof.
  destruct d as [| q | q]; [reflexivity | | reflexivity].
  do 4 (try destruct q as [q | q |]); reflexivity.
Qed.

Lemma pad_no_newline (width : nat) (n : Z) : no_newline (pad width n) = true.
Proof.
  revert n. induction width as [| width IH]; intros n; [reflexivity |].
  simpl. rewrite no_newline_app, IH. simpl.
  rewrite digit_no_newline. reflexivity.
Qed.

Lemma toISOString_no_newline (ms : Z) : no_newline (toISOString ms) = true.
Proof.
  unfold toISOString.
  destruct (civilFromDays (Z.div ms 86400000)) as [[y m] d].
  rewrite !no_newline_app, !pad_no_newline.
  destruct ((0 <=? y) && (y <=? 9999)).
  - rewrite pad_no_newline. reflexivity.
  - rewrite no_newline_app, pad_no_newline. destruct (y <? 0); reflexivity.
Qed.

Lemma Number_toString_no_newline (n : Z) :
  no_newline (Number_toString n) = true.
Proof.
  assert (Hu : forall d, no_newline (NilEmpty.string_of_uint d) = true).
  { induction d; simpl; auto. }
  assert (Hz : forall d, no_newline (NilZero.string_of_uint d) = true).
  { intros d. destruct d; try reflexivity; apply (Hu (_ _)). }
  unfold Number_toString.
  destruct (Z.to_int n) as [d | d]; simpl; [apply Hz |].
  apply Hz.
Qed.

Lemma CILAdapter_row_no_newline (candle : Candle) :
  no_newline (CILAdapter.row candle) = true.
Proof.
  unfold CILAdapter.row.
  rewrite !no_newline_app, toISOString_no_newline, !Number_toString_no_newline.
  reflexivity.
Qed.

Lemma UnivariateAdapter_row_no_newline (dataPoint : UnivariateDataPoint) :
  no_newline (UnivariateAdapter.row dataPoint) = true.
Proof.
  unfold UnivariateAdapter.row.
  rewrite !no_newline_app, toISOString_no_newline, Number_toString_no_newline.
  reflexivity.
Qed.

(** *** The label grammar *)

Lemma split_last_snoc (d : string) (u : ascii) :
  split_last (d +:+ String u "") = Some (d, u).
Proof.
  induction d as [| c d IH]; [reflexivity |].
  rewrite app_cons. simpl. rewrite IH.
  destruct (d +:+ String u "") eqn:E; [| reflexivity].
  destruct d; discriminate.
Qed.

Lemma getTimeframeSeconds_matching (d : string) :
  d <> "" -> forallb is_digit (list_ascii_of_string d) = true ->
  getTimeframeSeconds (d +:+ "s") = parseDigits d
  /\ getTimeframeSeconds (d +:+ "m") = parseDigits d * 60
  /\ getTimeframeSeconds (d +:+ "h") = parseDigits d * 3600.
Proof.
  intros Hne Hdigits.
  assert (Hd : negb (String.eqb d "") = true).
  { apply negb_true_iff. destruct (String.eqb_spec d ""); [contradiction |].
    reflexivity. }
  unfold getTimeframeSeconds, label_match.
  rewrite !split_last_snoc, Hd, Hdigits. simpl. repeat split; reflexivity.
Qed.

(** *** What is sent *)

Lemma last_most_recent {Rec : Type} (n : Z) (l : list Rec) :
  0 < n -> last (most_recent n l) = last l.
Proof.
  intros Hn. unfold most_recent.
  destruct l as [| x l]; [reflexivity |].
  assert (Hpos : (0 < length (x :: l))%nat) by (simpl; lia).
  generalize dependent (x :: l). clear x l. intros l Hpos.
  set (k := (length l - Z.to_nat (Z.min n (Z.of_nat (length l))))%nat).
  assert (Hk : (k < length l)%nat) by (subst k; lia).
  rewrite <- (take_drop k l) at 2.
  rewrite last_app.
  destruct (last (drop k l)) eqn:Hlast; [reflexivity |].
  apply last_None in Hlast.
  apply (f_equal length) in Hlast. rewrite length_drop in Hlast.
  change (length (@nil Rec)) with 0%nat in Hlast. lia.
Qed.

Section DispatcherFacts.
Context {Rec : Type}.
Variable datetimeOf : Rec -> Z.
Variable header : string.
Variable row : Rec -> string.
Variable zeros : string.
Variable post : string -> outcome CILResponse.
Hypothesis header_line : no_newline header = true.
Hypothesis row_line : forall r, no_newline (row r) = true.
Hypothesis zeros_line : no_newline zeros = true.

Local Abbreviation send := (Dispatcher.send datetimeOf header row zeros post).

Lemma send_insufficient (now : Z) (config : Dispatcher.Config)
    (buffer : RollingBuffer.t Rec) (timeframeLabel : string) :
  RollingBuffer.size buffer < Dispatcher.rowCount config - 1 ->
  send now config buffer timeframeLabel = ([], Returned None).
Proof.
  unfold RollingBuffer.size. intros Hsize. unfold Dispatcher.send.
  rewrite getLast_positive by lia.
  rewrite most_recent_length by lia.
  destruct (Z.ltb_spec (Z.min (Dispatcher.rowCount config - 1)
                          (Z.of_nat (length (RollingBuffer.records buffer))))
              (Dispatcher.rowCount config - 1)); [reflexivity | lia].
Qed.

Lemma send_enough (now : Z) (config : Dispatcher.Config)
    (buffer : RollingBuffer.t Rec) (timeframeLabel : string)
    (lastRecord : Rec) :
  2 <= Dispatcher.rowCount config ->
  Dispatcher.rowCount config - 1 <= RollingBuffer.size buffer ->
  last (RollingBuffer.records buffer) = Some lastRecord ->
  Date_valid (datetimeOf lastRecord
              + getTimeframeSeconds timeframeLabel * 1000) = true ->
  exists payload,
    send now config buffer timeframeLabel
    = ([payload],
       match post payload with
       | Returned response =>
           Returned (Some (Dispatcher.parseResponse now response))
       | Thrown _ => Returned None
       end)
    /\ lines payload
       = header
           :: map row (most_recent (Dispatcher.rowCount config - 1)
                                   (RollingBuffer.records buffer))
           ++ [toISOString (datetimeOf lastRecord
                            + getTimeframeSeconds timeframeLabel * 1000)
               +:+ zeros]
    /\ Z.of_nat (length (lines payload)) = Dispatcher.rowCount config + 1.
Proof.
  unfold RollingBuffer.size. intros Hrows Hsize Hlast Hvalid.
  set (n := Dispatcher.rowCount config - 1) in *.
  set (recent := most_recent n (RollingBuffer.records buffer)).
  assert (Hlen : Z.of_nat (length recent) = n).
  { unfold recent. rewrite most_recent_length by lia. lia. }
  set (next := datetimeOf lastRecord
               + getTimeframeSeconds timeframeLabel * 1000) in *.
  set (rows := header :: map row recent ++ [toISOString next +:+ zeros]).
  exists (join rows).
  assert (Hlines : lines (join rows) = rows).
  { apply lines_join; [discriminate |].
    apply Forall_cons. split; [exact header_line |].
    apply Forall_app. split.
    - apply List.Forall_map, Forall_forall. intros r _. apply row_line.
    - apply Forall_singleton.
      rewrite no_newline_app, toISOString_no_newline, zeros_line.
      reflexivity. }
  split; [| split].
  - unfold Dispatcher.send. fold n.
    rewrite getLast_positive by lia. fold recent.
    destruct (Z.ltb_spec (Z.of_nat (length recent)) n); [lia |].
    unfold Dispatcher.buildCSVPayload.
    unfold recent at 1. rewrite last_most_recent by lia. rewrite Hlast.
    unfold getNextDatetime, toISOString_of_ms. fold next. rewrite Hvalid.
    change ((header :: map row recent) ++ [toISOString next +:+ zeros])
      with rows.
    destruct (post (join rows)); reflexivity.
  - exact Hlines.
  - rewrite Hlines. unfold rows. simpl.
    rewrite length_app, length_map. simpl. lia.
Qed.

End DispatcherFacts.




(** * Further properties of the code *)

(** ** Rolling window buffer *)

Lemma push_window {Rec : Type} (b : RollingBuffer.t Rec) (r : Rec) :
  (length (RollingBuffer.records b) <= Z.to_nat (RollingBuffer.maxSize b))%nat ->
  RollingBuffer.records (RollingBuffer.push b r)
  = drop (length (RollingBuffer.records b ++ [r])
          - Z.to_nat (RollingBuffer.maxSize b))
         (RollingBuffer.records b ++ [r]).
Proof.
  intros Hb. unfold RollingBuffer.push. simpl. rewrite length_app. simpl.
  destruct (Z.ltb_spec (RollingBuffer.maxSize b)
              (Z.of_nat (length (RollingBuffer.records b) + 1))) as [Hover | Hfits].
  - replace (length (RollingBuffer.records b) + 1
             - Z.to_nat (RollingBuffer.maxSize b))%nat with 1%nat by lia.
    destruct (RollingBuffer.records b ++ [r]); reflexivity.
  - replace (length (RollingBuffer.records b) + 1
             - Z.to_nat (RollingBuffer.maxSize b))%nat with 0%nat by lia.
    reflexivity.
Qed.

Lemma pushAll_window {Rec : Type} (rs : list Rec) :
  forall b : RollingBuffer.t Rec,
    (length (RollingBuffer.records b) <= Z.to_nat (RollingBuffer.maxSize b))%nat ->
    RollingBuffer.records (pushAll b rs)
    = drop (length (RollingBuffer.records b ++ rs)
            - Z.to_nat (RollingBuffer.maxSize b))
           (RollingBuffer.records b ++ rs)
    /\ RollingBuffer.maxSize (pushAll b rs) = RollingBuffer.maxSize b.
Proof.
  induction rs as [| r rs IH]; intros b Hb.
  - simpl. rewrite app_nil_r. split; [| reflexivity].
    replace (length (RollingBuffer.records b)
             - Z.to_nat (RollingBuffer.maxSize b))%nat with 0%nat by lia.
    reflexivity.
  - simpl. pose proof (push_window b r Hb) as Hpush.
    destruct (IH (RollingBuffer.push b r)) as [Hrecords Hmax].
    { rewrite Hpush, length_drop, length_app. simpl. lia. }
    split; [| exact Hmax]. rewrite Hrecords, Hpush. simpl RollingBuffer.maxSize.
    set (m := Z.to_nat (RollingBuffer.maxSize b)).
    set (old := RollingBuffer.records b) in *.
    rewrite <- (drop_app_le (old ++ [r]) rs) by (rewrite length_app; simpl; lia).
    rewrite drop_drop, length_drop, <- !app_assoc. simpl.
    match goal with
    | |- drop ?a ?l = drop ?b ?l => replace a with b; [reflexivity |]
    end.
    rewrite !length_app. simpl. lia.
Qed.

(** X1.  A buffer is a window on what was pushed: however many records are
    pushed into a new buffer, it holds exactly the most recent ones, as many
    as its capacity allows (none at all when the capacity is 0 or less), in
    the order in which they were pushed; its capacity does not change. *)
Theorem buffer_holds_the_most_recent_records :
  forall (Rec : Type) (maxSize : Z) (timeframeLabel : string) (rs : list Rec),
    let b := pushAll (RollingBuffer.new maxSize timeframeLabel) rs in
    RollingBuffer.getAll b = drop (length rs - Z.to_nat maxSize) rs
    /\ RollingBuffer.size b = Z.min (Z.of_nat (length rs)) (Z.max 0 maxSize)
    /\ RollingBuffer.isFull b = (maxSize <=? Z.of_nat (length rs))
    /\ RollingBuffer.maxSize b = maxSize.
Proof.
  intros Rec maxSize timeframeLabel rs b.
  destruct (pushAll_window rs (RollingBuffer.new maxSize timeframeLabel))
    as [Hrecords Hmax]; [simpl; lia |].
  simpl in Hrecords, Hmax. fold b in Hrecords, Hmax.
  assert (Hsize : RollingBuffer.size b
                  = Z.min (Z.of_nat (length rs)) (Z.max 0 maxSize)).
  { unfold RollingBuffer.size. rewrite Hrecords, length_drop. lia. }
  split; [exact Hrecords |]. split; [exact Hsize |]. split; [| exact Hmax].
  unfold RollingBuffer.isFull. rewrite Hmax, Hsize.
  destruct (Z.leb_spec maxSize (Z.of_nat (length rs)));
    destruct (Z.leb_spec maxSize
                (Z.min (Z.of_nat (length rs)) (Z.max 0 maxSize)));
    try reflexivity; lia.
Qed.

(** X2.  For a count of at least 1, [getLast] on a buffer built by pushes
    returns the most recent records pushed, oldest first: as many as the
    count asks for, the capacity allows and there are. *)
Theorem getLast_returns_the_most_recent_pushes :
  forall (Rec : Type) (maxSize : Z) (timeframeLabel : string) (rs : list Rec)
         (count : Z),
    1 <= count ->
    RollingBuffer.getLast (pushAll (RollingBuffer.new maxSize timeframeLabel) rs)
      count
    = drop (length rs - Z.to_nat (Z.min count maxSize)) rs.
Proof.
  intros Rec maxSize timeframeLabel rs count Hcount.
  destruct (pushAll_window rs (RollingBuffer.new maxSize timeframeLabel))
    as [Hrecords _]; [simpl; lia |].
  simpl in Hrecords.
  rewrite getLast_positive by lia. unfold most_recent.
  rewrite Hrecords, drop_drop, length_drop. f_equal. lia.
Qed.

Lemma getLast_returns_the_most_recent_pushes_witness :
  RollingBuffer.getLast (pushAll (RollingBuffer.new 3 "1m") [10; 20; 30; 40; 50]) 2
  = drop (length [10; 20; 30; 40; 50] - Z.to_nat (Z.min 2 3)) [10; 20; 30; 40; 50].
Proof.
  apply (getLast_returns_the_most_recent_pushes Z 3 "1m" [10; 20; 30; 40; 50] 2).
  lia.
Defined.

Lemma last_drop_lt {A : Type} (l : list A) (k : nat) :
  (k < length l)%nat -> last (drop k l) = last l.
Proof.
  intros Hk. rewrite !last_lookup, lookup_drop, length_drop. f_equal. lia.
Qed.

(** X3.  On a candle buffer with a capacity of at least 1 into which at
    least one candle has been pushed, the newest timestamp is the datetime of
    the last candle pushed and the oldest timestamp that of the first candle
    still in the window; on a buffer into which nothing has been pushed both
    are null. *)
Theorem timestamps_follow_the_window :
  forall (maxSize : Z) (timeframeLabel : string) (pushed : list Candle)
         (candle : Candle),
    1 <= maxSize ->
    let b :=
      pushAll (RollingBuffer.new maxSize timeframeLabel) (pushed ++ [candle]) in
    getNewestTimestamp b = Some (datetime candle)
    /\ getOldestTimestamp b
       = datetime
           <$> (pushed ++ [candle]) !! (length (pushed ++ [candle])
                                        - Z.to_nat maxSize)%nat
    /\ is_Some (getOldestTimestamp b)
    /\ getNewestTimestamp (RollingBuffer.new maxSize timeframeLabel) = None
    /\ getOldestTimestamp (RollingBuffer.new maxSize timeframeLabel) = None.
Proof.
  intros maxSize timeframeLabel pushed candle Hcap b.
  destruct (pushAll_window (pushed ++ [candle])
              (RollingBuffer.new maxSize timeframeLabel))
    as [Hrecords _]; [simpl; lia |].
  simpl in Hrecords. fold b in Hrecords.
  unfold getNewestTimestamp, getOldestTimestamp, RollingBuffer.getNewest,
    RollingBuffer.getOldest.
  rewrite Hrecords. clear Hrecords b.
  set (all := pushed ++ [candle]).
  set (k := (length all - Z.to_nat maxSize)%nat).
  assert (Hk : (k < length all)%nat).
  { subst k all. rewrite length_app. simpl. lia. }
  assert (Hhead : head (drop k all) = all !! k).
  { rewrite <- (Nat.add_0_r k) at 2. rewrite <- lookup_drop.
    destruct (drop k all); reflexivity. }
  assert (Hlast : last (drop k all) = Some candle).
  { rewrite last_drop_lt by exact Hk. subst all. apply last_snoc. }
  rewrite Hlast, Hhead. split; [reflexivity |]. split; [reflexivity |].
  split; [| split; reflexivity].
  destruct (lookup_lt_is_Some_2 all k Hk) as [c Hc]. rewrite Hc. simpl. eauto.
Qed.

Lemma timestamps_follow_the_window_witness :
  let b :=
    pushAll (RollingBuffer.new 2 "1m")
            ([candleAt 0; candleAt 60000] ++ [candleAt 120000]) in
  getNewestTimestamp b = Some (datetime (candleAt 120000))
  /\ getOldestTimestamp b
     = datetime
         <$> ([candleAt 0; candleAt 60000] ++ [candleAt 120000])
               !! (length ([candleAt 0; candleAt 60000] ++ [candleAt 120000])
                   - Z.to_nat 2)%nat
  /\ is_Some (getOldestTimestamp b)
  /\ getNewestTimestamp (RollingBuffer.new 2 "1m") = None
  /\ getOldestTimestamp (RollingBuffer.new 2 "1m") = None.
Proof.
  apply (timestamps_follow_the_window 2 "1m" [candleAt 0; candleAt 60000]
           (candleAt 120000)).
  lia.
Defined.

(** ** Timeframe aggregators: one timeframe at a time *)

Lemma pushAll_app {Rec : Type} (b : RollingBuffer.t Rec) (l1 l2 : list Rec) :
  pushAll b (l1 ++ l2) = pushAll (pushAll b l1) l2.
Proof. unfold pushAll. apply foldl_app. Qed.

(** With distinct labels, the constructor gives every timeframe a new, empty
    buffer of its own capacity. *)
Lemma new_buffer_lookup {InProgress Rec : Type} (sym : string)
    (tfs : list TimeframeConfig) (tf : TimeframeConfig) :
  NoDup (label <$> tfs) -> tf ∈ tfs ->
  Aggregator.buffers (Aggregator.new (InProgress := InProgress) (Rec := Rec)
                        sym tfs) !! label tf
  = Some (RollingBuffer.new (bufferSize tf) (label tf)).
Proof.
  unfold Aggregator.new. simpl. generalize (∅ : gmap string (RollingBuffer.t Rec)).
  induction tfs as [| b tfs IH]; intros bs Hnodup Hin; [inversion Hin |].
  rewrite fmap_cons in Hnodup. apply NoDup_cons in Hnodup as [Hfresh Hnodup].
  simpl. apply elem_of_cons in Hin as [-> | Hin].
  - clear IH Hnodup. revert bs.
    induction tfs as [| c tfs IH]; intros bs; simpl.
    + apply lookup_insert_eq.
    + rewrite fmap_cons in Hfresh. apply not_elem_of_cons in Hfresh as [Hne Hfresh].
      rewrite insert_insert_ne by congruence. apply IH, Hfresh.
  - apply IH; assumption.
Qed.

Section Lanes.
Variable sym : string.
Variable tfs : list TimeframeConfig.
Variable tf : TimeframeConfig.
Hypothesis network : network_ok tfs = true.
Hypothesis member : tf ∈ tfs.

Implicit Types (st : CandleBuilder.t)
  (lane : list Candle * option CandleBuilder.CandleInProgress).

Lemma laneEntries_apart lane (b : TimeframeConfig) :
  b ∈ tfs -> label b <> label tf ->
  Forall (fun e => startsWith e.1 (label b) = false) (laneEntries tf lane.2).
Proof.
  intros Hb Hne.
  destruct (network_ok_pair tfs b tf network Hb member) as [_ Hbt].
  destruct lane as [done [c |]]; simpl; [| constructor].
  apply Forall_singleton. simpl. apply separated_key, Hbt, Hne.
Qed.

(** A tick handled for another label leaves the lane as it is. *)
Lemma updateCandle_leaves_lane (b : TimeframeConfig) lane tick timestamp st :
  b ∈ tfs -> label b <> label tf ->
  follows sym tfs tf lane st ->
  exists st',
    CandleBuilder.updateCandle tick timestamp b st = Some st'
    /\ follows sym tfs tf lane st'.
Proof.
  intros Hb Hne (Htfs & Hsym & Hbufs & Hbuf & Hm).
  destruct (Hbufs b Hb) as [bufb Hbufb].
  destruct (network_ok_pair tfs tf b network member Hb) as [_ Htb].
  assert (Hout : forall x, startsWith (Aggregator.key b x) (label tf) = false).
  { intros x. apply separated_key, Htb. congruence. }
  assert (Hkeep : forall b' new,
             is_Some (Aggregator.buffers st !! label b') ->
             is_Some (<[label b := new]> (Aggregator.buffers st) !! label b')).
  { intros b' new Hb'. destruct (decide (label b = label b')) as [<- | Hne'].
    - rewrite lookup_insert_eq. eauto.
    - rewrite lookup_insert_ne by exact Hne'. exact Hb'. }
  unfold CandleBuilder.updateCandle.
  rewrite (updateRecord_spec _ _ _ tick timestamp b st bufb Hbufb).
  cbv zeta.
  destruct (Map_get (Aggregator.inProgress st) _) as [candle |].
  - eexists. split; [reflexivity |].
    split; [exact Htfs |]. split; [exact Hsym |]. split; [exact Hbufs |].
    split; [exact Hbuf |]. simpl.
    rewrite matching_Map_set_out by apply Hout. exact Hm.
  - eexists. split; [reflexivity |].
    split; [exact Htfs |]. split; [exact Hsym |].
    split; [intros b' Hb'; apply Hkeep, Hbufs, Hb' |].
    split; [simpl; rewrite lookup_insert_ne by exact Hne; exact Hbuf |].
    simpl. rewrite matching_Map_set_out by apply Hout.
    rewrite matching_others_apart; [exact Hm |].
    rewrite Hm. apply laneEntries_apart; assumption.
Qed.

(** A tick handled for the lane's own timeframe takes one lane step. *)
Lemma updateCandle_steps_lane lane tick st :
  follows sym tfs tf lane st ->
  exists st',
    CandleBuilder.updateCandle tick (ts tick) tf st = Some st'
    /\ follows sym tfs tf (laneStep tf lane tick) st'.
Proof.
  intros (Htfs & Hsym & Hbufs & Hbuf & Hm).
  set (W := Aggregator.getWindowStart (ts tick) (seconds tf)).
  assert (Hkeep : forall b new,
             is_Some (Aggregator.buffers st !! label b) ->
             is_Some (<[label tf := new]> (Aggregator.buffers st) !! label b)).
  { intros b new Hb. destruct (decide (label tf = label b)) as [<- | Hne'].
    - rewrite lookup_insert_eq. eauto.
    - rewrite lookup_insert_ne by exact Hne'. exact Hb. }
  unfold CandleBuilder.updateCandle.
  rewrite (updateRecord_spec _ _ _ tick (ts tick) tf st _ Hbuf).
  cbv zeta. fold W.
  rewrite <- (Map_get_matching tf _ _ (key_startsWith_own_label tf W)).
  rewrite Hm. unfold laneStep. fold W.
  destruct lane as [done [c |]]; simpl laneEntries; simpl Map_get; cbn [snd fst].
  - destruct (String.eqb_spec (Aggregator.key tf (CandleBuilder.startTime c))
                (Aggregator.key tf W)) as [Heq | Hneq].
    + apply key_inj in Heq. rewrite Heq, Z.eqb_refl.
      eexists. split; [reflexivity |].
      split; [exact Htfs |]. split; [exact Hsym |]. split; [exact Hbufs |].
      split; [exact Hbuf |]. simpl.
      rewrite matching_Map_set_in by apply key_startsWith_own_label.
      rewrite Hm. simpl. rewrite Heq, String.eqb_refl. reflexivity.
    + destruct (Z.eqb_spec (CandleBuilder.startTime c) W) as [Heq | _];
        [rewrite Heq in Hneq; contradiction |].
      eexists. split; [reflexivity |].
      split; [exact Htfs |]. split; [exact Hsym |].
      split; [intros b Hb; apply Hkeep, Hbufs, Hb |].
      split.
      * simpl. rewrite Hm. simpl. rewrite lookup_insert_eq.
        rewrite pushAll_app. reflexivity.
      * simpl.
        rewrite matching_Map_set_in by apply key_startsWith_own_label.
        rewrite matching_others_same. reflexivity.
  - eexists. split; [reflexivity |].
    split; [exact Htfs |]. split; [exact Hsym |].
    split; [intros b Hb; apply Hkeep, Hbufs, Hb |].
    split.
    + simpl. rewrite Hm. simpl. apply lookup_insert_eq.
    + simpl.
      rewrite matching_Map_set_in by apply key_startsWith_own_label.
      rewrite matching_others_same. reflexivity.
Qed.

Lemma updateCandles_leave_lane tick timestamp (l : list TimeframeConfig) :
  l ⊆ tfs -> label tf ∉ label <$> l ->
  forall st lane,
    follows sym tfs tf lane st ->
    exists st',
      forEach (CandleBuilder.updateCandle tick timestamp) l st = Some st'
      /\ follows sym tfs tf lane st'.
Proof.
  induction l as [| b l IH]; intros Hsub Hfresh st lane Hfollows.
  - exists st. split; [reflexivity | exact Hfollows].
  - rewrite fmap_cons in Hfresh. apply not_elem_of_cons in Hfresh as [Hne Hfresh].
    assert (Hb : b ∈ tfs) by apply Hsub, list_elem_of_here.
    assert (Hsub' : l ⊆ tfs).
    { intros y Hy. apply Hsub, list_elem_of_further, Hy. }
    destruct (updateCandle_leaves_lane b lane tick timestamp st Hb
                (fun H => Hne (eq_sym H)) Hfollows) as (st1 & Hstep & H1).
    destruct (IH Hsub' Hfresh st1 lane H1) as (st' & Hrun & H').
    exists st'. simpl. rewrite Hstep. simpl. split; assumption.
Qed.

Lemma updateCandles_step_lane tick (l : list TimeframeConfig) :
  l ⊆ tfs -> NoDup (label <$> l) -> label tf ∈ label <$> l ->
  forall st lane,
    follows sym tfs tf lane st ->
    exists st',
      forEach (CandleBuilder.updateCandle tick (ts tick)) l st = Some st'
      /\ follows sym tfs tf (laneStep tf lane tick) st'.
Proof.
  induction l as [| b l IH]; intros Hsub Hnodup Hin st lane Hfollows.
  - inversion Hin.
  - rewrite fmap_cons in Hnodup, Hin.
    apply NoDup_cons in Hnodup as [Hfresh Hnodup].
    assert (Hb : b ∈ tfs) by apply Hsub, list_elem_of_here.
    assert (Hsub' : l ⊆ tfs).
    { intros y Hy. apply Hsub, list_elem_of_further, Hy. }
    destruct (decide (label b = label tf)) as [Hsame | Hdiff].
    + destruct (network_ok_pair tfs b tf network Hb member) as [Hsec _].
      destruct (updateCandle_steps_lane lane tick st Hfollows)
        as (st1 & Hstep & H1).
      rewrite Hsame in Hfresh.
      destruct (updateCandles_leave_lane tick (ts tick) l Hsub' Hfresh st1 _ H1)
        as (st' & Hrun & H').
      exists st'. simpl.
      rewrite (updateCandle_congr b tf tick (ts tick) st Hsame (Hsec Hsame)).
      rewrite Hstep. simpl. split; assumption.
    + apply elem_of_cons in Hin as [Heq | Hin]; [congruence |].
      destruct (updateCandle_leaves_lane b lane tick (ts tick) st Hb Hdiff
                  Hfollows) as (st1 & Hstep & H1).
      destruct (IH Hsub' Hnodup Hin st1 lane H1) as (st' & Hrun & H').
      exists st'. simpl. rewrite Hstep. simpl. split; assumption.
Qed.

Hypothesis distinct : NoDup (label <$> tfs).

Lemma run_follows (ticks : list NormalizedTick) :
  forall st lane,
    follows sym tfs tf lane st ->
    exists st',
      CandleBuilder.run (map Aggregator.AddTick ticks) st = Some st'
      /\ follows sym tfs tf (foldl (laneStep tf) lane (ticksOf sym ticks)) st'.
Proof.
  induction ticks as [| tick ticks IH]; intros st lane Hfollows.
  - exists st. split; [reflexivity | exact Hfollows].
  - pose proof Hfollows as (Htfs & Hsym & _).
    unfold ticksOf. simpl List.filter. fold (ticksOf sym ticks).
    assert (Hstep : exists st1,
               CandleBuilder.addTick tick st = Some st1
               /\ follows sym tfs tf
                    (if String.eqb (Types.symbol tick) sym
                     then laneStep tf lane tick else lane) st1).
    { unfold CandleBuilder.addTick, Aggregator.addTick. rewrite Hsym.
      destruct (String.eqb (Types.symbol tick) sym); simpl.
      - rewrite Htfs.
        apply (updateCandles_step_lane tick tfs (reflexivity _) distinct);
          [apply list_elem_of_fmap_2, member | exact Hfollows].
      - exists st. split; [reflexivity | exact Hfollows]. }
    destruct Hstep as (st1 & Hstep & H1).
    destruct (IH st1 _ H1) as (st' & Hrun & H').
    exists st'. unfold CandleBuilder.run, Aggregator.run in *. simpl.
    unfold CandleBuilder.addTick in Hstep. rewrite Hstep. simpl.
    split; [exact Hrun |].
    destruct (String.eqb (Types.symbol tick) sym); exact H'.
Qed.

Lemma new_follows : follows sym tfs tf ([], None) (CandleBuilder.new sym tfs).
Proof.
  destruct (new_buffers (Rec := Candle) tfs ∅) as (Hin & _ & _).
  split; [reflexivity |]. split; [reflexivity |]. split; [exact Hin |].
  split; [| reflexivity].
  apply (new_buffer_lookup (InProgress := CandleBuilder.CandleInProgress)
           sym tfs tf distinct member).
Qed.

Lemma run_lane (ticks : list NormalizedTick) :
  exists st,
    CandleBuilder.run (map Aggregator.AddTick ticks) (CandleBuilder.new sym tfs)
    = Some st
    /\ follows sym tfs tf (laneOf sym tf ticks) st.
Proof. apply run_follows, new_follows. Qed.

End Lanes.



Lemma foldl_laneStep_current (tf : TimeframeConfig) (ticks : list NormalizedTick)
    (lane : list Candle * option CandleBuilder.CandleInProgress) :
  ticks <> [] -> is_Some (foldl (laneStep tf) lane ticks).2.
Proof.
  revert lane. induction ticks as [| tick ticks IH]; intros lane Hne;
    [contradiction |].
  simpl. destruct ticks as [| tick' ticks'].
  - simpl. unfold laneStep. destruct lane.2 as [c |]; [| eauto].
    destruct (_ =? _); eauto.
  - apply IH. discriminate.
Qed.





(** ** Ticks of one window *)

Lemma ticksOf_all (sym : string) (ticks : list NormalizedTick) :
  Forall (fun tick => Types.symbol tick = sym) ticks -> ticksOf sym ticks = ticks.
Proof.
  induction 1 as [| tick ticks Hsym _ IH]; [reflexivity |].
  unfold ticksOf in *. simpl. rewrite Hsym, String.eqb_refl, IH. reflexivity.
Qed.

Lemma laneStep_same_window (tf : TimeframeConfig) (ticks : list NormalizedTick) :
  forall (done : list Candle) (c : CandleBuilder.CandleInProgress),
    Forall (fun tick => Aggregator.getWindowStart (ts tick) (seconds tf)
                        = CandleBuilder.startTime c) ticks ->
    foldl (laneStep tf) (done, Some c) ticks
    = (done,
       Some (foldl (fun c tick => CandleBuilder.update c tick (ts tick)) c ticks)).
Proof.
  induction ticks as [| tick ticks IH]; intros done c Hall; [reflexivity |].
  inversion Hall as [| ? ? Hw Hrest]; subst. simpl.
  unfold laneStep at 2. simpl. rewrite Hw, Z.eqb_refl.
  apply IH. exact Hrest.
Qed.

Lemma last_cons_default {A : Type} (l : list A) (x d : A) :
  List.last (x :: l) d = List.last l x.
Proof.
  revert x d. induction l as [| y l IH]; intros x d; [reflexivity |].
  change (List.last (x :: y :: l) d) with (List.last (y :: l) d).
  rewrite !IH. reflexivity.
Qed.

Lemma updates_fields (ticks : list NormalizedTick) :
  forall (c : CandleBuilder.CandleInProgress) (d : NormalizedTick),
    CandleBuilder.close c = price d ->
    let c' := foldl (fun c tick => CandleBuilder.update c tick (ts tick)) c ticks in
    CandleBuilder.open c' = CandleBuilder.open c
    /\ CandleBuilder.close c' = price (List.last ticks d)
    /\ CandleBuilder.high c' = foldl Z.max (CandleBuilder.high c) (map price ticks)
    /\ CandleBuilder.low c' = foldl Z.min (CandleBuilder.low c) (map price ticks)
    /\ CandleBuilder.volume c'
       = foldl Z.add (CandleBuilder.volume c)
               (map (fun tick => or_zero (size tick)) ticks)
    /\ CandleBuilder.startTime c' = CandleBuilder.startTime c.
Proof.
  induction ticks as [| tick ticks IH]; intros c d Hclose.
  - simpl. repeat split; try reflexivity. exact Hclose.
  - rewrite last_cons_default.
    destruct (IH (CandleBuilder.update c tick (ts tick)) tick eq_refl)
      as (Ho & Hc & Hh & Hl & Hv & Hs).
    simpl. repeat split; assumption.
Qed.



(** ** Alignment of the candles of a timeframe *)

Lemma lane_aligned (tf : TimeframeConfig) (ticks : list NormalizedTick) :
  forall lane : list Candle * option CandleBuilder.CandleInProgress,
    Forall (fun c => (seconds tf * 1000 | datetime c)) lane.1 ->
    (forall c, lane.2 = Some c -> (seconds tf * 1000 | CandleBuilder.startTime c)) ->
    Forall (fun c => (seconds tf * 1000 | datetime c))
           (foldl (laneStep tf) lane ticks).1.
Proof.
  induction ticks as [| tick ticks IH]; intros [done current] Hdone Hcur;
    [exact Hdone |].
  simpl. apply IH; unfold laneStep; simpl in *.
  - destruct current as [c |]; [| exact Hdone].
    destruct (_ =? _); [exact Hdone |]. simpl.
    apply Forall_app. split; [exact Hdone |].
    apply Forall_singleton. simpl. apply Hcur. reflexivity.
  - intros c' Hc'. destruct current as [c |].
    + destruct (CandleBuilder.startTime c =? _) eqn:Heq; simpl in Hc';
        injection Hc' as <-; simpl.
      * apply Hcur. reflexivity.
      * apply getWindowStart_divide.
    + simpl in Hc'. injection Hc' as <-. simpl. apply getWindowStart_divide.
Qed.



(** ** What every reachable aggregator state satisfies *)

Lemma notifiedFor_app {Rec : Type} (l : string) (a b : list (Rec * string)) :
  notifiedFor l (a ++ b) = notifiedFor l a ++ notifiedFor l b.
Proof. unfold notifiedFor. rewrite List.filter_app, List.map_app. reflexivity. Qed.

Lemma notifiedFor_same {Rec : Type} (l : string) (rs : list Rec) :
  notifiedFor l (map (fun r => (r, l)) rs) = rs.
Proof.
  unfold notifiedFor. induction rs as [| r rs IH]; [reflexivity |].
  simpl. rewrite String.eqb_refl. simpl. f_equal. exact IH.
Qed.

Lemma notifiedFor_other {Rec : Type} (l l' : string) (rs : list Rec) :
  l' <> l -> notifiedFor l (map (fun r => (r, l')) rs) = [].
Proof.
  intros Hne. unfold notifiedFor. induction rs as [| r rs IH]; [reflexivity |].
  simpl. destruct (String.eqb_spec l' l) as [Heq | _]; [contradiction | exact IH].
Qed.

Lemma matching_others_Permutation {V : Type} (tf : TimeframeConfig) (m : Map V) :
  Permutation (matching tf m ++ others tf m) m.
Proof.
  unfold matching, others. induction m as [| [k v] m IH]; [constructor |].
  simpl. destruct (startsWith k (label tf)); simpl.
  - constructor. exact IH.
  - symmetry. apply Permutation_cons_app. symmetry. exact IH.
Qed.

Section Reachable.
Context {InProgress Rec : Type}.
Variable create : NormalizedTick -> Z -> Z -> InProgress.
Variable update : InProgress -> NormalizedTick -> Z -> InProgress.
Variable finalize : InProgress -> Rec.
Variable initial : gmap string (RollingBuffer.t Rec).

Local Abbreviation state := (Aggregator.t InProgress Rec).
Local Abbreviation Facts := (reachableFacts (InProgress := InProgress) initial).

Lemma evicted_facts (tf : TimeframeConfig) (buf : RollingBuffer.t Rec)
    (st : state) :
  Aggregator.buffers st !! label tf = Some buf ->
  Facts st -> Facts (Aggregator.evicted finalize tf buf st).
Proof.
  intros Hbuf (Hbufs & Hkeys & Hmirror). split; [| split].
  - intros b Hb. simpl in *.
    destruct (decide (label tf = label b)) as [Heq | Hne].
    + rewrite Heq, lookup_insert_eq. eauto.
    + rewrite lookup_insert_ne by exact Hne. apply Hbufs, Hb.
  - unfold keysConfigured in *. simpl. unfold others.
    apply Forall_List_filter. exact Hkeys.
  - intros l. simpl. rewrite notifiedFor_app.
    destruct (decide (label tf = l)) as [<- | Hne].
    + rewrite lookup_insert_eq, notifiedFor_same.
      specialize (Hmirror (label tf)). rewrite Hbuf in Hmirror.
      destruct (initial !! label tf) as [b0 |]; [| discriminate].
      simpl in *. injection Hmirror as ->. rewrite pushAll_app. reflexivity.
    + rewrite lookup_insert_ne by exact Hne.
      rewrite notifiedFor_other by exact Hne. rewrite app_nil_r. apply Hmirror.
Qed.

Lemma Map_set_facts (tf : TimeframeConfig) (w : Z) (v : InProgress)
    (st : state) :
  tf ∈ Aggregator.timeframes st ->
  Facts st ->
  Facts (Aggregator.with_inProgress st
           (Map_set (Aggregator.inProgress st) (Aggregator.key tf w) v)).
Proof.
  intros Hin (Hbufs & Hkeys & Hmirror). split; [| split].
  - exact Hbufs.
  - unfold keysConfigured in *. simpl. apply List.Forall_forall. intros e He.
    apply Map_set_In in He as [He | ->].
    + exact (proj1 (List.Forall_forall _ _) Hkeys e He).
    + exists tf. split; [exact Hin | apply key_startsWith_own_label].
  - exact Hmirror.
Qed.

Lemma updateRecord_facts tick timestamp (tf : TimeframeConfig) (st : state) :
  tf ∈ Aggregator.timeframes st -> Facts st ->
  exists st',
    Aggregator.updateRecord create update finalize tick timestamp tf st = Some st'
    /\ Aggregator.timeframes st' = Aggregator.timeframes st /\ Facts st'.
Proof.
  intros Hin HF. destruct (proj1 HF tf Hin) as [buf Hbuf].
  rewrite (updateRecord_spec create update finalize tick timestamp tf st buf Hbuf).
  cbv zeta. destruct (Map_get _ _) as [c |].
  - eexists. split; [reflexivity |]. split; [reflexivity |].
    apply Map_set_facts; assumption.
  - eexists. split; [reflexivity |]. split; [reflexivity |].
    apply (Map_set_facts tf _ _ (Aggregator.evicted finalize tf buf st));
      [exact Hin | apply evicted_facts; assumption].
Qed.

Lemma forEach_timeframes (P : state -> Prop)
    (body : TimeframeConfig -> state -> option state) :
  (forall tf st, tf ∈ Aggregator.timeframes st -> P st ->
     exists st', body tf st = Some st'
       /\ Aggregator.timeframes st' = Aggregator.timeframes st /\ P st') ->
  forall st, P st ->
    exists st', forEach body (Aggregator.timeframes st) st = Some st'
      /\ Aggregator.timeframes st' = Aggregator.timeframes st /\ P st'.
Proof.
  intros Hbody st HP.
  assert (Hgen : forall l st0,
             Aggregator.timeframes st0 = Aggregator.timeframes st ->
             l ⊆ Aggregator.timeframes st -> P st0 ->
             exists st', forEach body l st0 = Some st'
               /\ Aggregator.timeframes st' = Aggregator.timeframes st
               /\ P st').
  { induction l as [| tf l IH]; intros st0 Htfs0 Hsub HP0.
    - exists st0. split; [reflexivity |]. split; [exact Htfs0 | exact HP0].
    - destruct (Hbody tf st0) as (st1 & Hx & Htfs1 & HP1);
        [rewrite Htfs0; apply Hsub, list_elem_of_here | exact HP0 |].
      destruct (IH st1) as (st' & Hl & Htfs & HP');
        [congruence | | exact HP1 |].
      { intros y Hy. apply Hsub, list_elem_of_further, Hy. }
      exists st'. simpl. rewrite Hx. simpl. auto. }
  apply Hgen; [reflexivity | reflexivity | exact HP].
Qed.

Lemma addTick_facts tick (st : state) :
  Facts st ->
  exists st', Aggregator.addTick create update finalize tick st = Some st'
    /\ Aggregator.timeframes st' = Aggregator.timeframes st /\ Facts st'.
Proof.
  intros HF. unfold Aggregator.addTick.
  destruct (negb _); [exists st; auto |].
  apply (forEach_timeframes (fun st => Facts st)); [| exact HF].
  intros tf st0. apply updateRecord_facts.
Qed.

(** A call of [forceFinalizeAll] on such a state completes, empties the
    in-progress map, and announces each record that was in progress once. *)
Lemma forceFinalizeAll_facts (st : state) :
  Facts st ->
  exists st' extra,
    Aggregator.forceFinalizeAll finalize st = Some st'
    /\ Aggregator.timeframes st' = Aggregator.timeframes st
    /\ Facts st'
    /\ Aggregator.inProgress st' = []
    /\ Aggregator.notified st' = Aggregator.notified st ++ extra
    /\ Permutation (map fst extra)
                   (map finalize (Aggregator.inProgress st).*2).
Proof.
  intros HF. unfold Aggregator.forceFinalizeAll.
  set (pass := fun tf (st : state) =>
                 forEach (Aggregator.finalizeKey finalize tf)
                         (Aggregator.keysOf tf st) st).
  set (P := fun st0 : state =>
              Facts st0
              /\ exists extra,
                   Aggregator.notified st0 = Aggregator.notified st ++ extra
                   /\ Permutation
                        (map fst extra
                         ++ map finalize (Aggregator.inProgress st0).*2)
                        (map finalize (Aggregator.inProgress st).*2)).
  destruct (forEach_timeframes P pass) with (st := st)
    as (st' & Hrun & Htfs & HF' & extra & Hnote & Hperm).
  - intros tf st0 Hin (HF0 & extra & Hnote & Hperm).
    destruct (proj1 HF0 tf Hin) as [buf Hbuf].
    unfold pass. rewrite (evict_all finalize tf st0 buf Hbuf). eexists.
    split; [reflexivity |]. split; [reflexivity |].
    split; [apply evicted_facts; assumption |].
    exists (extra ++ map (fun r => (r, label tf))
                      (map finalize (matching tf (Aggregator.inProgress st0)).*2)).
    simpl. rewrite Hnote, <- app_assoc. split; [reflexivity |].
    rewrite List.map_app, List.map_map. simpl. rewrite List.map_id.
    rewrite <- app_assoc, <- List.map_app, <- fmap_app.
    etransitivity; [| exact Hperm].
    apply Permutation_app_head, Permutation_map, fmap_Permutation.
    apply matching_others_Permutation.
  - split; [exact HF |]. exists []. rewrite app_nil_r.
    split; [reflexivity | reflexivity].
  - assert (Hempty : Aggregator.inProgress st' = []).
    { destruct (passes_clean finalize _ _ _ Hrun) as (_ & _ & Hclean).
      destruct HF' as (_ & Hkeys & _). unfold keysConfigured in Hkeys.
      destruct (Aggregator.inProgress st') as [| [k v] m] eqn:Hm;
        [reflexivity | exfalso].
      apply Forall_cons in Hkeys as [(tf & Hin & Hstart) _].
      rewrite Htfs in Hin.
      pose proof (proj1 (Forall_forall _ _) Hclean tf Hin) as Hnone.
      unfold matching in Hnone. simpl in *. rewrite Hstart in Hnone.
      discriminate. }
    exists st', extra. split; [exact Hrun |]. split; [exact Htfs |].
    split; [exact HF' |]. split; [exact Hempty |]. split; [exact Hnote |].
    rewrite Hempty in Hperm. simpl in Hperm. rewrite app_nil_r in Hperm.
    exact Hperm.
Qed.

Lemma run_facts ops (st : state) :
  Facts st ->
  exists st', Aggregator.run create update finalize ops st = Some st'
    /\ Aggregator.timeframes st' = Aggregator.timeframes st /\ Facts st'.
Proof.
  revert st. induction ops as [| o ops IH]; intros st HF.
  - exists st. auto.
  - assert (Hstep : exists st1,
               Aggregator.step create update finalize o st = Some st1
               /\ Aggregator.timeframes st1 = Aggregator.timeframes st
               /\ Facts st1).
    { destruct o as [tick |]; simpl; [apply addTick_facts; exact HF |].
      destruct (forceFinalizeAll_facts st HF) as (st1 & _ & H1 & H2 & H3 & _).
      eauto. }
    destruct Hstep as (st1 & Hstep & Htfs1 & HF1).
    destruct (IH st1 HF1) as (st' & Hrun & Htfs & HF').
    exists st'. unfold Aggregator.run in *. simpl. rewrite Hstep. simpl.
    split; [exact Hrun |]. split; [congruence | exact HF'].
Qed.

End Reachable.

Lemma new_facts {InProgress Rec : Type} (sym : string)
    (tfs : list TimeframeConfig) :
  reachableFacts
    (Aggregator.buffers (Aggregator.new (InProgress := InProgress)
                           (Rec := Rec) sym tfs))
    (Aggregator.new (InProgress := InProgress) (Rec := Rec) sym tfs).
Proof.
  split; [| split].
  - intros tf Hin.
    exact (proj1 (new_buffers tfs ∅) tf Hin).
  - constructor.
  - intros l. simpl. destruct (_ !! l); reflexivity.
Qed.



(** X10.  With timeframes of positive seconds, ticks whose times and window
    starts are dates, and listeners that return: in every state a candle
    builder or a univariate builder reaches from its constructor, the buffer
    of each label holds what results from pushing, into the buffer the
    constructor made, the records the listeners were called with for that
    label, in the order of the calls: nothing enters a buffer without the
    listeners being told, and nothing is announced that was not pushed. *)
Theorem listeners_see_every_buffered_record :
  forall (sym : string) (tfs : list TimeframeConfig) (ops : list Aggregator.op)
         (l : string),
    positiveSeconds tfs = true ->
    datedOps tfs ops = true ->
    (exists st,
        CandleBuilder.run ops (CandleBuilder.new sym tfs) = Some st
        /\ CandleBuilder.getBuffer st l
           = (fun b0 => pushAll b0 (notifiedFor l (Aggregator.notified st)))
               <$> CandleBuilder.getBuffer (CandleBuilder.new sym tfs) l)
    /\ (exists st,
           UnivariateBuilder.run ops (UnivariateBuilder.new sym tfs) = Some st
           /\ UnivariateBuilder.getBuffer st l
              = (fun b0 => pushAll b0 (notifiedFor l (Aggregator.notified st)))
                  <$> UnivariateBuilder.getBuffer
                        (UnivariateBuilder.new sym tfs) l).
Proof.
  intros sym tfs ops l _ _. split.
  - destruct (run_facts CandleBuilder.create CandleBuilder.update
                CandleBuilder.finalize _ ops _ (new_facts sym tfs))
      as (st & Hrun & _ & _ & _ & Hmirror).
    exists st. split; [exact Hrun | apply Hmirror].
  - destruct (run_facts UnivariateBuilder.create UnivariateBuilder.update
                UnivariateBuilder.finalize _ ops _ (new_facts sym tfs))
      as (st & Hrun & _ & _ & _ & Hmirror).
    exists st. split; [exact Hrun | apply Hmirror].
Qed.

Lemma listeners_see_every_buffered_record_witness :
  let ops := [Aggregator.AddTick (sampleTick 500 100);
              Aggregator.AddTick (sampleTick 1500 101);
              Aggregator.ForceFinalizeAll;
              Aggregator.AddTick (sampleTick 6100 102)] in
  positiveSeconds [tf1s; tf5s] = true
  /\ datedOps [tf1s; tf5s] ops = true
  /\ exists st,
      CandleBuilder.run ops (CandleBuilder.new "BTCUSDT" [tf1s; tf5s]) = Some st
      /\ CandleBuilder.getBuffer st "1s"
         = (fun b0 => pushAll b0 (notifiedFor "1s" (Aggregator.notified st)))
             <$> CandleBuilder.getBuffer
                   (CandleBuilder.new "BTCUSDT" [tf1s; tf5s]) "1s".
Proof.
  intros ops. split; [reflexivity |]. split; [reflexivity |].
  apply (proj1 (listeners_see_every_buffered_record
                  "BTCUSDT" [tf1s; tf5s] ops "1s" eq_refl eq_refl)).
Defined.

(** ** Sending several timeframes *)

Lemma Map_set_append {V : Type} (m : Map V) (k : string) (v : V) :
  k ∉ Map_keys m -> Map_set m k v = m ++ [(k, v)].
Proof.
  intros Hfresh. apply Map_set_fresh.
  destruct (Map_get m k) as [v' |] eqn:Hget; [exfalso | reflexivity].
  apply Hfresh. unfold Map_keys. clear Hfresh.
  induction m as [| [k' v''] m IH]; [discriminate |].
  change (k ∈ k' :: m.*1). simpl in Hget.
  destruct (String.eqb_spec k' k) as [-> | _];
    [apply list_elem_of_here | apply list_elem_of_further, IH, Hget].
Qed.

Lemma sendEach_returns {Rec : Type}
    (send : RollingBuffer.t Rec -> string
            -> list string * outcome (option CILResponse))
    (rowCount : Z) (buffers : Map (RollingBuffer.t Rec)) :
  Forall (fun e => rowCount - 1 <= RollingBuffer.size e.2 ->
                   exists payload result,
                     send e.2 e.1 = ([payload], Returned result)) buffers ->
  NoDup (Map_keys buffers) ->
  forall results,
    (forall k, k ∈ Map_keys buffers -> k ∉ Map_keys results) ->
    exists posted added,
      sendEach send rowCount buffers results
      = (posted, Returned (results ++ added))
      /\ Forall2 (fun e r => r.1 = e.1 /\ (send e.2 e.1).2 = Returned r.2)
                 (eligible rowCount buffers) added
      /\ length posted = length added.
Proof.
  unfold Map_keys.
  induction buffers as [| [l b] buffers IH]; intros Hsend Hnodup results Hfresh.
  - exists [], []. rewrite app_nil_r. repeat split; constructor.
  - apply Forall_cons in Hsend as [Hhere Hsend].
    rewrite fmap_cons in Hnodup. apply NoDup_cons in Hnodup as [Hl Hnodup].
    simpl in Hhere, Hl. unfold eligible. simpl.
    destruct (Z.leb_spec (rowCount - 1) (RollingBuffer.size b)) as [Hsize | _].
    + destruct (Hhere Hsize) as (payload & result & Hsent). rewrite Hsent.
      rewrite Map_set_append
        by (apply Hfresh; rewrite fmap_cons; apply list_elem_of_here).
      destruct (IH Hsend Hnodup (results ++ [(l, result)]))
        as (posted & added & Hrun & Hall & Hlen).
      { intros k Hk. rewrite fmap_app, elem_of_app, fmap_cons, elem_of_cons.
        intros [Hin | [-> | Hin]].
        - revert Hin. apply Hfresh. rewrite fmap_cons.
          apply list_elem_of_further, Hk.
        - contradiction.
        - inversion Hin. }
      rewrite Hrun. exists (payload :: posted), ((l, result) :: added).
      rewrite <- app_assoc. split; [reflexivity |]. split.
      * constructor; [| exact Hall]. simpl. rewrite Hsent. auto.
      * simpl. f_equal. exact Hlen.
    + apply IH; [exact Hsend | exact Hnodup |].
      intros k Hk. apply Hfresh. rewrite fmap_cons.
      apply list_elem_of_further, Hk.
Qed.

Lemma size_last {Rec : Type} (b : RollingBuffer.t Rec) :
  1 <= RollingBuffer.size b -> is_Some (last (RollingBuffer.records b)).
Proof.
  unfold RollingBuffer.size.
  destruct (RollingBuffer.records b) as [| r l] using rev_ind; simpl; [lia |].
  intros _. rewrite last_snoc. eauto.
Qed.

(** X11.  With a row count of at least 2, [sendMultipleTimeframes] of either
    adapter does not throw, whatever the endpoint answers: it posts one body
    for each buffer of the map that holds at least row-count - 1 records, in
    the order of the map, and returns a map whose keys are exactly the labels
    of those buffers, each with what the single send returned; buffers below
    the threshold are neither sent nor listed. *)
Theorem sendMultipleTimeframes_sends_the_full_buffers :
  forall (post : string -> outcome CILResponse) (clock : string -> Z)
         (config : Dispatcher.Config) (candles : Map Buffer)
         (series : Map UnivariateBuffer),
    2 <= Dispatcher.rowCount config ->
    NoDup (Map_keys candles) ->
    placeholdersValid datetime candles ->
    NoDup (Map_keys series) ->
    placeholdersValid dp_datetime series ->
    (exists posted results,
        CILAdapter_sendMultipleTimeframes post clock config candles
        = (posted, Returned results)
        /\ Map_keys results
           = Map_keys (eligible (Dispatcher.rowCount config) candles)
        /\ Forall2 (fun e r =>
                      (CILAdapter.sendToCIL post (clock e.1) config e.2 e.1).2
                      = Returned r.2)
                   (eligible (Dispatcher.rowCount config) candles) results
        /\ length posted = length results)
    /\ (exists posted results,
           UnivariateAdapter_sendMultipleTimeframes post clock config series
           = (posted, Returned results)
           /\ Map_keys results
              = Map_keys (eligible (Dispatcher.rowCount config) series)
           /\ Forall2 (fun e r =>
                         (UnivariateAdapter.sendToUnivariate post (clock e.1)
                            config e.2 e.1).2
                         = Returned r.2)
                      (eligible (Dispatcher.rowCount config) series) results
           /\ length posted = length results).
Proof.
  intros post clock config candles series Hrows Hnodup Hvalid Hnodup' Hvalid'.
  split.
  - destruct (sendEach_returns
                (fun buffer l =>
                   CILAdapter.sendToCIL post (clock l) config buffer l)
                (Dispatcher.rowCount config) candles)
      with (results := @nil (string * option CILResponse))
      as (posted & added & Hrun & Hall & Hlen);
      [| exact Hnodup | intros k _ Hk; inversion Hk |].
    + eapply Forall_impl; [exact Hvalid |]. intros [l b] Hdate Hsize.
      simpl in *. destruct (size_last b) as [lastRecord Hlast]; [lia |].
      destruct (send_enough datetime CILAdapter.header CILAdapter.row
                  CILAdapter.zeros post eq_refl CILAdapter_row_no_newline
                  eq_refl (clock l) config b l lastRecord Hrows Hsize Hlast
                  (Hdate lastRecord Hlast))
        as (payload & Hsent & _).
      unfold CILAdapter.sendToCIL. rewrite Hsent.
      destruct (post payload); eauto.
    + exists posted, added. split; [exact Hrun |]. split; [| split].
      * unfold Map_keys. clear Hrun Hlen.
        induction Hall as [| e r ? ? [Hk _] _ IH]; [reflexivity |].
        rewrite !fmap_cons. f_equal; [exact Hk | exact IH].
      * eapply Forall2_impl; [exact Hall |]. intros e r [_ H]. exact H.
      * exact Hlen.
  - destruct (sendEach_returns
                (fun buffer l =>
                   UnivariateAdapter.sendToUnivariate post (clock l) config
                     buffer l)
                (Dispatcher.rowCount config) series)
      with (results := @nil (string * option CILResponse))
      as (posted & added & Hrun & Hall & Hlen);
      [| exact Hnodup' | intros k _ Hk; inversion Hk |].
    + eapply Forall_impl; [exact Hvalid' |]. intros [l b] Hdate Hsize.
      simpl in *. destruct (size_last b) as [lastRecord Hlast]; [lia |].
      destruct (send_enough dp_datetime UnivariateAdapter.header
                  UnivariateAdapter.row UnivariateAdapter.zeros post eq_refl
                  UnivariateAdapter_row_no_newline eq_refl (clock l) config b l
                  lastRecord Hrows Hsize Hlast (Hdate lastRecord Hlast))
        as (payload & Hsent & _).
      unfold UnivariateAdapter.sendToUnivariate. rewrite Hsent.
      destruct (post payload); eauto.
    + exists posted, added. split; [exact Hrun |]. split; [| split].
      * unfold Map_keys. clear Hrun Hlen.
        induction Hall as [| e r ? ? [Hk _] _ IH]; [reflexivity |].
        rewrite !fmap_cons. f_equal; [exact Hk | exact IH].
      * eapply Forall2_impl; [exact Hall |]. intros e r [_ H]. exact H.
      * exact Hlen.
Qed.

Lemma sendMultipleTimeframes_sends_the_full_buffers_witness :
  (exists posted results,
      CILAdapter_sendMultipleTimeframes offline (fun _ => 0) threeRows
        sampleCandleBuffers
      = (posted, Returned results)
      /\ Map_keys results = Map_keys (eligible 3 sampleCandleBuffers)
      /\ Forall2 (fun e r =>
                    (CILAdapter.sendToCIL offline 0 threeRows e.2 e.1).2
                    = Returned r.2)
                 (eligible 3 sampleCandleBuffers) results
      /\ length posted = length results)
  /\ (exists posted results,
         UnivariateAdapter_sendMultipleTimeframes offline (fun _ => 0) threeRows
           sampleSeriesBuffers
         = (posted, Returned results)
         /\ Map_keys results = Map_keys (eligible 3 sampleSeriesBuffers)
         /\ Forall2 (fun e r =>
                       (UnivariateAdapter.sendToUnivariate offline 0 threeRows
                          e.2 e.1).2
                       = Returned r.2)
                    (eligible 3 sampleSeriesBuffers) results
         /\ length posted = length results).
Proof.
  apply (sendMultipleTimeframes_sends_the_full_buffers offline (fun _ => 0)
           threeRows sampleCandleBuffers sampleSeriesBuffers).
  - vm_compute. discriminate.
  - repeat constructor; rewrite ?elem_of_cons, ?elem_of_nil; intuition discriminate.
  - repeat constructor; simpl; intros ? [= <-]; reflexivity.
  - repeat constructor; rewrite ?elem_of_cons, ?elem_of_nil; intuition discriminate.
  - repeat constructor; simpl; intros ? [= <-]; reflexivity.
Defined.


(** X12.  An adapter built with a row count of 1 (or a negative one) rejects
    on an empty buffer instead of returning none: [getLast] returns no record,
    the test for too few records lets the empty list through, and building
    the payload reads the datetime of a last record that does not exist.
    Nothing is posted.  [sendMultipleTimeframes] does not skip such a buffer
    either, so the whole batch rejects at the first empty buffer of the
    map. *)
Theorem send_rejects_on_empty_buffer_when_one_row :
  forall (post : string -> outcome CILResponse) (now : Z) (clock : string -> Z)
         (config : Dispatcher.Config) (buffer : Buffer)
         (timeframeLabel : string) (rest : Map Buffer),
    Dispatcher.rowCount (Dispatcher.new config) <= 1 ->
    RollingBuffer.records buffer = [] ->
    CILAdapter.sendToCIL post now (Dispatcher.new config) buffer timeframeLabel
    = ([], Thrown "TypeError: Cannot read properties of undefined")
    /\ CILAdapter_sendMultipleTimeframes post clock (Dispatcher.new config)
         ((timeframeLabel, buffer) :: rest)
       = ([], Thrown "TypeError: Cannot read properties of undefined").
Proof.
  intros post now clock config buffer timeframeLabel rest Hrows Hempty.
  generalize dependent (Dispatcher.new config). clear config.
  intros config Hrows.
  assert (Hsend : forall now',
             CILAdapter.sendToCIL post now' config buffer timeframeLabel
             = ([], Thrown "TypeError: Cannot read properties of undefined")).
  { intros now'. unfold CILAdapter.sendToCIL, Dispatcher.send.
    unfold RollingBuffer.getLast, Array_slice. rewrite Hempty, drop_nil.
    simpl length.
    destruct (Z.ltb_spec (Z.of_nat 0) (Dispatcher.rowCount config - 1));
      [lia | reflexivity]. }
  split; [apply Hsend |].
  unfold CILAdapter_sendMultipleTimeframes. simpl.
  unfold RollingBuffer.size. rewrite Hempty, Hsend. simpl length.
  destruct (Z.leb_spec (Dispatcher.rowCount config - 1) (Z.of_nat 0));
    [reflexivity | lia].
Qed.

Lemma send_rejects_on_empty_buffer_when_one_row_witness :
  CILAdapter.sendToCIL accepted 0 (Dispatcher.new oneRow) (emptyBuffer "1m") "1m"
  = ([], Thrown "TypeError: Cannot read properties of undefined")
  /\ CILAdapter_sendMultipleTimeframes accepted (fun _ => 0)
       (Dispatcher.new oneRow) [("1m", emptyBuffer "1m"); ("1d", dailyBuffer)]
     = ([], Thrown "TypeError: Cannot read properties of undefined").
Proof.
  apply (send_rejects_on_empty_buffer_when_one_row accepted 0 (fun _ => 0)
           oneRow (emptyBuffer "1m") "1m" [("1d", dailyBuffer)]).
  - vm_compute. discriminate.
  - reflexivity.
Defined.

(** ** What the normalizers return *)

(** X13.  The weather normalizer drops an observation whose temperature is
    exactly 0, as it drops one without a temperature; so a tick it returns
    never has price 0.  Such a tick carries the observation's temperature as
    price and its relative humidity as size, the location key as symbol, the
    tag accuweather, and an instant that is a date. *)
Theorem accuweather_normalize_drops_zero_temperature :
  forall (Date_parse : string -> option Z) (now : Z)
         (raw : AccuWeatherNormalizer.AccuWeatherCurrentConditions)
         (locationKey : string),
    (AccuWeatherNormalizer.temperature_value raw = Some 0 ->
     AccuWeatherNormalizer.normalize Date_parse now raw locationKey
     = Returned None)
    /\ (forall tick,
           AccuWeatherNormalizer.normalize Date_parse now raw locationKey
           = Returned (Some tick) ->
           price tick <> 0
           /\ AccuWeatherNormalizer.temperature_value raw = Some (price tick)
           /\ size tick = AccuWeatherNormalizer.RelativeHumidity raw
           /\ Types.symbol tick = locationKey
           /\ exchange tick = "accuweather"
           /\ Date_valid (ts tick) = true).
Proof.
  intros Date_parse now raw locationKey.
  unfold AccuWeatherNormalizer.normalize. split.
  - intros ->. reflexivity.
  - intros tick.
    destruct (AccuWeatherNormalizer.temperature_value raw) as [v |];
      [| discriminate].
    simpl. destruct (Z.eqb_spec v 0) as [| Hv]; [discriminate |]. simpl.
    assert (Hdate : forall ms t, toISOString_of_ms ms = Returned t ->
                                 Date_valid t = true).
    { unfold toISOString_of_ms. intros ms t.
      destruct (Date_valid ms) eqn:Hvalid; [| discriminate].
      intros [= <-]. exact Hvalid. }
    match goal with
    | |- match ?stamp with _ => _ end = _ -> _ =>
        destruct stamp as [t |] eqn:Hstamp; [| discriminate]
    end.
    intros [= <-]. simpl. repeat split; try assumption.
    destruct (truthy_str _); [| destruct (truthy_num _)].
    + destruct (Date_parse _); [| discriminate]. eapply Hdate, Hstamp.
    + eapply Hdate, Hstamp.
    + eapply Hdate, Hstamp.
Qed.

Lemma accuweather_normalize_drops_zero_temperature_witness :
  AccuWeatherNormalizer.normalize (fun _ => None) 0 (observation 0) "349727"
  = Returned None
  /\ (let tick := {| ts := 1735725600000; price := 21; size := Some 40;
                     symbol := "349727"; exchange := "accuweather" |} in
      price tick <> 0
      /\ AccuWeatherNormalizer.temperature_value (observation 21)
         = Some (price tick)
      /\ size tick = AccuWeatherNormalizer.RelativeHumidity (observation 21)
      /\ Types.symbol tick = "349727"
      /\ exchange tick = "accuweather"
      /\ Date_valid (ts tick) = true).
Proof.
  split.
  - apply (accuweather_normalize_drops_zero_temperature (fun _ => None) 0
             (observation 0) "349727"). reflexivity.
  - apply (accuweather_normalize_drops_zero_temperature (fun _ => None) 0
             (observation 21) "349727"). reflexivity.
Defined.

(** X14.  A tick returned by a streaming normalizer is stamped with the
    message's own trade time, which is not 0 and is a date, and never with
    the clock; it carries the message's symbol, which is not empty, and the
    venue's tag.  The Polygon normalizer keeps a trade whose price is the
    number 0 and gives size 0 to a trade without one. *)
Theorem streaming_ticks_carry_the_message_time :
  forall (parseFloat : string -> Z)
         (data : BinanceNormalizer.BinanceTradeData)
         (raw : PolygonNormalizer.PolygonTradeMessage)
         (tick : NormalizedTick),
    (BinanceNormalizer.normalize parseFloat data = Returned (Some tick) ->
     ts tick = BinanceNormalizer.T data
     /\ ts tick <> 0
     /\ Date_valid (ts tick) = true
     /\ Types.symbol tick = BinanceNormalizer.s data
     /\ Types.symbol tick <> ""
     /\ price tick = parseFloat (BinanceNormalizer.p data)
     /\ size tick = Some (parseFloat (BinanceNormalizer.q data))
     /\ exchange tick = "binance")
    /\ (PolygonNormalizer.normalize raw = Returned (Some tick) ->
        ts tick = PolygonNormalizer.pm_t raw
        /\ ts tick <> 0
        /\ Date_valid (ts tick) = true
        /\ Types.symbol tick = PolygonNormalizer.pm_sym raw
        /\ Types.symbol tick <> ""
        /\ PolygonNormalizer.pm_p raw = Some (price tick)
        /\ size tick = Some (or_zero (PolygonNormalizer.pm_s raw))
        /\ exchange tick = "polygon").
Proof.
  intros parseFloat data raw tick. split.
  - assert (Hboth : forall r,
               (if String.eqb (BinanceNormalizer.s data) ""
                   || String.eqb (BinanceNormalizer.p data) ""
                   || (BinanceNormalizer.T data =? 0)
                then Returned None
                else
                  match toISOString_of_ms (BinanceNormalizer.T data) with
                  | Thrown err => Thrown err
                  | Returned timestamp => Returned (Some (r timestamp))
                  end) = Returned (Some tick) ->
               BinanceNormalizer.s data <> ""
               /\ BinanceNormalizer.T data <> 0
               /\ Date_valid (BinanceNormalizer.T data) = true
               /\ tick = r (BinanceNormalizer.T data)).
    { intros r. destruct (String.eqb_spec (BinanceNormalizer.s data) "");
        [discriminate |].
      destruct (String.eqb (BinanceNormalizer.p data) ""); [discriminate |].
      destruct (Z.eqb_spec (BinanceNormalizer.T data) 0); [discriminate |].
      simpl. unfold toISOString_of_ms.
      destruct (Date_valid (BinanceNormalizer.T data)); [| discriminate].
      intros [= <-]. auto. }
    unfold BinanceNormalizer.normalize, BinanceNormalizer.normalizeTrade,
      BinanceNormalizer.normalizeAggTrade.
    destruct (String.eqb (BinanceNormalizer.e data) "trade");
      [| destruct (String.eqb (BinanceNormalizer.e data) "aggTrade");
         [| discriminate]];
      intros Hret; apply Hboth in Hret as (Hs & HT & Hvalid & ->); simpl;
      repeat split; assumption.
  - unfold PolygonNormalizer.normalize.
    destruct (String.eqb (PolygonNormalizer.pm_ev raw) "T"); [| discriminate].
    simpl. destruct (PolygonNormalizer.pm_p raw) as [p |]; [| discriminate].
    destruct (String.eqb_spec (PolygonNormalizer.pm_sym raw) "");
      [discriminate |].
    destruct (Z.eqb_spec (PolygonNormalizer.pm_t raw) 0); [discriminate |].
    simpl. unfold toISOString_of_ms.
    destruct (Date_valid (PolygonNormalizer.pm_t raw)) eqn:Hvalid;
      [| discriminate].
    intros [= <-]. simpl. repeat split; assumption.
Qed.

Lemma streaming_ticks_carry_the_message_time_witness :
  let fromBinance := {| ts := 1735725600000; price := 100; size := Some 2;
                        symbol := "BTCUSDT"; exchange := "binance" |} in
  let fromPolygon := {| ts := 1735725600000; price := 0; size := Some 0;
                        symbol := "AAPL"; exchange := "polygon" |} in
  (ts fromBinance = BinanceNormalizer.T binanceTrade
   /\ ts fromBinance <> 0
   /\ Date_valid (ts fromBinance) = true
   /\ Types.symbol fromBinance = BinanceNormalizer.s binanceTrade
   /\ Types.symbol fromBinance <> ""
   /\ price fromBinance
      = (fun text => if String.eqb text "100" then 100 else 2)
          (BinanceNormalizer.p binanceTrade)
   /\ size fromBinance
      = Some ((fun text => if String.eqb text "100" then 100 else 2)
                (BinanceNormalizer.q binanceTrade))
   /\ exchange fromBinance = "binance")
  /\ (ts fromPolygon = PolygonNormalizer.pm_t polygonTrade
      /\ ts fromPolygon <> 0
      /\ Date_valid (ts fromPolygon) = true
      /\ Types.symbol fromPolygon = PolygonNormalizer.pm_sym polygonTrade
      /\ Types.symbol fromPolygon <> ""
      /\ PolygonNormalizer.pm_p polygonTrade = Some (price fromPolygon)
      /\ size fromPolygon = Some (or_zero (PolygonNormalizer.pm_s polygonTrade))
      /\ exchange fromPolygon = "polygon").
Proof.
  intros fromBinance fromPolygon. split.
  - apply (streaming_ticks_carry_the_message_time
             (fun text => if String.eqb text "100" then 100 else 2)
             binanceTrade polygonTrade fromBinance). reflexivity.
  - apply (streaming_ticks_carry_the_message_time
             (fun text => if String.eqb text "100" then 100 else 2)
             binanceTrade polygonTrade fromPolygon). reflexivity.
Defined.

(** ** The polling loop *)

Section PollingSchedule.
Context {W : Type}.
Variable pollFunction : nat -> W -> W * outcome unit.
Variable config : PollingLoop.PollingConfig.

Local Abbreviation maxRetries := (default 0 (PollingLoop.maxRetries config)).
Local Abbreviation retryDelayMs := (default 0 (PollingLoop.retryDelayMs config)).

Lemma retryLoop_schedule (fuel : nat) :
  forall (attempt : Z) (calls : nat) (w : W) (lastError : option string),
    attempt + Z.of_nat fuel = maxRetries ->
    exists k w' result,
      PollingLoop.retryLoop pollFunction config fuel attempt calls w lastError
      = (w', schedule k retryDelayMs, result)
      /\ (k <= fuel)%nat
      /\ (fuel <> 0%nat -> k <> 0%nat)
      /\ (fuel = 0%nat -> w' = w)
      /\ (forall e, result = Thrown e ->
                    k = fuel /\ (fuel = 0%nat -> lastError = Some e)).
Proof.
  induction fuel as [| fuel IH]; intros attempt calls w lastError Hsum.
  - exists 0%nat, w. eexists. simpl. split; [reflexivity |].
    repeat split; try lia; try congruence.
    intros _. destruct lastError; congruence.
  - simpl. destruct (pollFunction calls w) as [w1 [[] | e]].
    + exists 1%nat, w1, (Returned tt). split; [reflexivity |].
      repeat split; try lia; discriminate.
    + destruct (IH (attempt + 1) (S calls) w1 (Some e))
        as (k & w' & result & Hrun & Hle & Hpos & _ & Hthrown); [lia |].
      rewrite Hrun. exists (S k), w', result. split.
      * destruct (Z.ltb_spec attempt (maxRetries - 1)) as [Hmore | Hlast].
        -- destruct k as [| k]; [exfalso; apply Hpos; [lia | reflexivity] |].
           reflexivity.
        -- assert (k = 0%nat) as -> by lia. reflexivity.
      * repeat split; try lia; try discriminate.
        destruct (Hthrown e0 H) as [-> _]. reflexivity.
Qed.

Lemma pollWithRetry_schedule (calls : nat) (w : W) :
  exists k w' result,
    PollingLoop.pollWithRetry pollFunction config calls w
    = (w', schedule k retryDelayMs, result)
    /\ Z.of_nat k <= Z.max 0 maxRetries
    /\ (1 <= maxRetries -> k <> 0%nat)
    /\ (maxRetries <= 0 -> w' = w /\ result = Returned tt)
    /\ (forall e, result = Thrown e -> Z.of_nat k = maxRetries).
Proof.
  unfold PollingLoop.pollWithRetry.
  destruct (Z.le_gt_cases maxRetries 0) as [Hnone | Hsome].
  - assert (Z.to_nat maxRetries = 0%nat) as -> by lia.
    exists 0%nat, w, (Returned tt). simpl. split; [reflexivity |].
    repeat split; try lia; discriminate.
  - destruct (retryLoop_schedule (Z.to_nat maxRetries) 0 calls w None)
      as (k & w' & result & Hrun & Hle & Hpos & _ & Hthrown); [lia |].
    exists k, w', result. split; [exact Hrun |].
    repeat split; try lia.
    intros e He. destruct (Hthrown e He) as [-> _]. lia.
Qed.

End PollingSchedule.

(** X15.  One run of the polling loop, whatever the poll function does:
    it calls the poll function at most max-retries times (default 3), at
    least once when max-retries is 1 or more and not at all when it is 0 or
    less; between two calls it sleeps the retry delay (default 5000 ms) and
    nothing else; it rejects only after max-retries failed calls; and in
    every case it then arms the timer for the next run once, at the polling
    interval. *)
Theorem polling_run_is_bounded_and_always_rearms :
  forall (W : Type) (pollFunction : nat -> W -> W * outcome unit)
         (config : PollingLoop.PollingConfig) (calls : nat) (w : W),
    let maxRetries := default 3 (PollingLoop.maxRetries config) in
    let retryDelayMs := default 5000 (PollingLoop.retryDelayMs config) in
    exists k w' result,
      PollingLoop.pollWithRetry pollFunction (PollingLoop.new config) calls w
      = (w', schedule k retryDelayMs, result)
      /\ PollingLoop.poll pollFunction (PollingLoop.new config) calls w
         = (w', schedule k retryDelayMs
                ++ [PollingLoop.SetTimeout (PollingLoop.intervalMs config)])
      /\ Z.of_nat k <= Z.max 0 maxRetries
      /\ (1 <= maxRetries -> k <> 0%nat)
      /\ (maxRetries <= 0 -> w' = w /\ result = Returned tt)
      /\ (forall e, result = Thrown e -> Z.of_nat k = maxRetries).
Proof.
  intros W pollFunction config calls w maxRetries retryDelayMs.
  destruct (pollWithRetry_schedule pollFunction (PollingLoop.new config) calls w)
    as (k & w' & result & Hrun & Hle & Hpos & Hnone & Hthrown).
  exists k, w', result. split; [exact Hrun |]. split.
  - unfold PollingLoop.poll. rewrite Hrun. reflexivity.
  - repeat split; try assumption; apply Hnone; assumption.
Qed.

(** ** The polling connector *)

Lemma onMessage_keeps (Date_parse : string -> option Z) (now : Z)
    (this : AccuWeatherConnector.t)
    (raw : AccuWeatherNormalizer.AccuWeatherCurrentConditions) :
  let this' := AccuWeatherConnector.onMessage Date_parse now this raw in
  AccuWeatherConnector.errorCount this
  <= AccuWeatherConnector.errorCount this'
  <= AccuWeatherConnector.errorCount this + 1
  /\ AccuWeatherConnector.isConnected this'
     = AccuWeatherConnector.isConnected this
  /\ AccuWeatherConnector.rateLimitRemaining this'
     = AccuWeatherConnector.rateLimitRemaining this
  /\ AccuWeatherConnector.rateLimitReset this'
     = AccuWeatherConnector.rateLimitReset this
  /\ AccuWeatherConnector.lastFetchedData this' = Some raw.
Proof.
  unfold AccuWeatherConnector.onMessage. simpl.
  destruct (AccuWeatherNormalizer.normalize _ _ _ _) as [[tick |] | e]; simpl;
    [| repeat split; lia | repeat split; lia].
  unfold AccuWeatherConnector.feedToCandleBuilder. simpl.
  destruct (UnivariateBuilder.addTick _ _); simpl; repeat split; lia.
Qed.

(** X16.  One poll of the weather connector counts at most one error.  When
    the fetch fails (status 429, a status outside 2xx, a body that is not
    JSON or not a non-empty array) the poll rejects with the error of the
    fetch, counts it once, and leaves the builder and the last message time
    as they were.  When the fetch succeeds the poll resolves, even if the
    observation cannot be processed: that failure is counted and swallowed.
    The connection flag is never touched. *)
Theorem accuweather_poll_counts_each_failure_once :
  forall (Date_parse : string -> option Z) (parseInt : string -> option Z)
         (now : Z) (this : AccuWeatherConnector.t) (response : Response),
    let fetched :=
      AccuWeatherConnector.fetchCurrentConditions parseInt this response in
    let polled :=
      AccuWeatherConnector.poll Date_parse parseInt now this response in
    AccuWeatherConnector.errorCount this
    <= AccuWeatherConnector.errorCount polled.1
    <= AccuWeatherConnector.errorCount this + 1
    /\ AccuWeatherConnector.isConnected polled.1
       = AccuWeatherConnector.isConnected this
    /\ (forall e,
          fetched.2 = Thrown e ->
          polled.2 = Thrown e
          /\ AccuWeatherConnector.errorCount polled.1
             = AccuWeatherConnector.errorCount this + 1
          /\ AccuWeatherConnector.univariateBuilder polled.1
             = AccuWeatherConnector.univariateBuilder this
          /\ AccuWeatherConnector.lastMessageTime polled.1
             = AccuWeatherConnector.lastMessageTime this
          /\ AccuWeatherConnector.lastFetchedData polled.1
             = AccuWeatherConnector.lastFetchedData this)
    /\ (forall data,
          fetched.2 = Returned data ->
          polled.2 = Returned tt
          /\ AccuWeatherConnector.lastFetchedData polled.1 = Some data).
Proof.
  intros Date_parse parseInt now this response fetched polled.
  subst polled. unfold AccuWeatherConnector.poll. fold fetched.
  assert (Hthis : AccuWeatherConnector.errorCount fetched.1
                  = AccuWeatherConnector.errorCount this
                  /\ AccuWeatherConnector.isConnected fetched.1
                     = AccuWeatherConnector.isConnected this
                  /\ AccuWeatherConnector.univariateBuilder fetched.1
                     = AccuWeatherConnector.univariateBuilder this
                  /\ AccuWeatherConnector.lastMessageTime fetched.1
                     = AccuWeatherConnector.lastMessageTime this
                  /\ AccuWeatherConnector.lastFetchedData fetched.1
                     = AccuWeatherConnector.lastFetchedData this).
  { subst fetched. unfold AccuWeatherConnector.fetchCurrentConditions.
    destruct (_ =? 429); [repeat split |].
    destruct (negb _); [repeat split |].
    destruct (resp_body response) as [[[| first rest] |] | e]; repeat split. }
  destruct Hthis as (Hcount & Hflag & Hbuilder & Hlast & Hdata).
  destruct fetched as [this1 [data | e]]; simpl in *.
  - destruct (onMessage_keeps Date_parse now this1 data)
      as (Hle & Hconn & _ & _ & Hfetched).
    cbv zeta in *. split; [lia |]. split; [congruence |].
    split; [discriminate |]. intros data' [= <-]. auto.
  - split; [lia |]. split; [exact Hflag |]. split; [| discriminate].
    intros e' [= <-]. repeat split; try assumption. lia.
Qed.

(** X17.  The quota a response reports is surfaced by [health] right after
    the poll, also when that poll was answered with status 429 or failed
    otherwise: a RateLimit-Remaining header that reads as a number of 0 or
    more becomes the remaining count of the health report. *)
Theorem accuweather_health_reports_the_quota_of_the_last_response :
  forall (Date_parse : string -> option Z) (parseInt : string -> option Z)
         (now later : Z) (this : AccuWeatherConnector.t) (response : Response)
         (header : string) (left : Z),
    Headers_get response "RateLimit-Remaining" = Some header ->
    header <> "" ->
    parseInt header = Some left ->
    0 <= left ->
    remaining
      <$> rateLimitInfo
            (AccuWeatherConnector.health
               (AccuWeatherConnector.poll Date_parse parseInt now this
                  response).1 later)
    = Some left.
Proof.
  intros Date_parse parseInt now later this response header left
         Hheader Hne Hparse Hleft.
  assert (Hfetched :
            AccuWeatherConnector.rateLimitRemaining
              (AccuWeatherConnector.fetchCurrentConditions parseInt this
                 response).1 = Some left).
  { unfold AccuWeatherConnector.fetchCurrentConditions, Headers_has.
    rewrite Hheader.
    rewrite bool_decide_eq_true_2 by eauto.
    destruct (String.eqb_spec header "") as [| _]; [contradiction |].
    rewrite Hparse.
    destruct (_ =? 429); [reflexivity |].
    destruct (negb _); [reflexivity |].
    destruct (resp_body response) as [[[| first rest] |] | e]; reflexivity. }
  assert (Hpolled :
            AccuWeatherConnector.rateLimitRemaining
              (AccuWeatherConnector.poll Date_parse parseInt now this
                 response).1 = Some left).
  { unfold AccuWeatherConnector.poll.
    destruct (AccuWeatherConnector.fetchCurrentConditions parseInt this
                response) as [this1 [data | e]]; simpl in *.
    - destruct (onMessage_keeps Date_parse now this1 data)
        as (_ & _ & Hkept & _).
      cbv zeta in Hkept. congruence.
    - exact Hfetched. }
  unfold AccuWeatherConnector.health. simpl. rewrite Hpolled.
  destruct (Z.leb_spec 0 left); [reflexivity | lia].
Qed.

Lemma accuweather_health_reports_the_quota_of_the_last_response_witness :
  remaining
    <$> rateLimitInfo
          (AccuWeatherConnector.health
             (AccuWeatherConnector.poll (fun _ => None) parseCount
                1735725600000 idleWeatherConnector quotaExhausted).1
             1735725700000)
  = Some 0.
Proof.
  apply (accuweather_health_reports_the_quota_of_the_last_response
           (fun _ => None) parseCount 1735725600000 1735725700000
           idleWeatherConnector quotaExhausted "0" 0);
    [reflexivity | discriminate | reflexivity | lia].
Defined.

(** ** The subscription manager *)

Lemma NumMap_get_set_eq {V : Type} (m : NumMap V) (k : Z) (v : V) :
  NumMap_get (NumMap_set m k v) k = Some v.
Proof.
  induction m as [| [k' v'] m IH]; simpl; [rewrite Z.eqb_refl; reflexivity |].
  destruct (Z.eqb_spec k' k) as [-> | Hne]; simpl.
  - rewrite Z.eqb_refl. reflexivity.
  - destruct (Z.eqb_spec k' k); [contradiction | exact IH].
Qed.

Lemma NumMap_get_set_ne {V : Type} (m : NumMap V) (k k' : Z) (v : V) :
  k' <> k -> NumMap_get (NumMap_set m k v) k' = NumMap_get m k'.
Proof.
  intros Hne. induction m as [| [k0 v0] m IH]; simpl.
  - destruct (Z.eqb_spec k k'); [congruence | reflexivity].
  - destruct (Z.eqb_spec k0 k) as [-> | _]; simpl.
    + destruct (Z.eqb_spec k k'); [congruence | reflexivity].
    + destruct (k0 =? k'); [reflexivity | exact IH].
Qed.

Lemma NumMap_get_fresh {V : Type} (m : NumMap V) (k : Z) :
  k ∉ m.*1 -> NumMap_get m k = None.
Proof.
  induction m as [| [k' v'] m IH]; [reflexivity |].
  change (k ∉ k' :: m.*1 -> NumMap_get ((k', v') :: m) k = None).
  rewrite not_elem_of_cons. intros [Hne Hfresh]. simpl.
  destruct (Z.eqb_spec k' k); [congruence | auto].
Qed.

Lemma NumMap_get_elem {V : Type} (m : NumMap V) (k : Z) (v : V) :
  NumMap_get m k = Some v -> (k, v) ∈ m.
Proof.
  induction m as [| [k' v'] m IH]; [discriminate |]. simpl.
  destruct (Z.eqb_spec k' k) as [-> | _].
  - intros [= ->]. apply list_elem_of_here.
  - intros Hget. apply list_elem_of_further, IH, Hget.
Qed.

Lemma NumMap_set_fresh {V : Type} (m : NumMap V) (k : Z) (v : V) :
  k ∉ m.*1 -> NumMap_set m k v = m ++ [(k, v)].
Proof.
  induction m as [| [k' v'] m IH]; [reflexivity |].
  change (k ∉ k' :: m.*1
          -> NumMap_set ((k', v') :: m) k v = ((k', v') :: m) ++ [(k, v)]).
  rewrite not_elem_of_cons. intros [Hne Hfresh]. simpl.
  destruct (Z.eqb_spec k' k); [congruence |]. f_equal. auto.
Qed.

Lemma NumMap_get_delete_ne {V : Type} (m : NumMap V) (k k' : Z) :
  k' <> k -> NumMap_get (NumMap_delete m k) k' = NumMap_get m k'.
Proof.
  intros Hne. induction m as [| [k0 v0] m IH]; [reflexivity |]. simpl.
  destruct (Z.eqb_spec k0 k) as [-> | _]; simpl.
  - destruct (Z.eqb_spec k k'); [congruence | reflexivity].
  - destruct (k0 =? k'); [reflexivity | exact IH].
Qed.

Lemma NumMap_delete_sublist {V : Type} (m : NumMap V) (k : Z) :
  sublist (NumMap_delete m k) m.
Proof.
  induction m as [| [k' v'] m IH]; [constructor |]. simpl.
  destruct (k' =? k); [apply sublist_cons | apply sublist_skip]; auto.
Qed.

Lemma NumMap_get_delete_eq {V : Type} (m : NumMap V) (k : Z) :
  NoDup m.*1 -> NumMap_get (NumMap_delete m k) k = None.
Proof.
  induction m as [| [k' v'] m IH]; [reflexivity |].
  change (NoDup (k' :: m.*1)
          -> NumMap_get (NumMap_delete ((k', v') :: m) k) k = None).
  rewrite NoDup_cons. intros [Hfresh Hnodup]. simpl.
  destruct (Z.eqb_spec k' k) as [-> | Hne].
  - apply NumMap_get_fresh, Hfresh.
  - simpl. destruct (Z.eqb_spec k' k); [contradiction | auto].
Qed.

Lemma NumMap_delete_length {V : Type} (m : NumMap V) (k : Z) (v : V) :
  NumMap_get m k = Some v ->
  S (length (NumMap_delete m k)) = length m.
Proof.
  induction m as [| [k' v'] m IH]; [discriminate |]. simpl.
  destruct (k' =? k); [reflexivity |]. intros Hget. simpl. f_equal. auto.
Qed.

Lemma Map_get_set_eq {V : Type} (m : Map V) (k : string) (v : V) :
  Map_get (Map_set m k v) k = Some v.
Proof.
  induction m as [| [k' v'] m IH]; simpl; [rewrite String.eqb_refl; reflexivity |].
  destruct (String.eqb_spec k' k) as [-> | Hne]; simpl.
  - rewrite String.eqb_refl. reflexivity.
  - destruct (String.eqb_spec k' k); [contradiction | exact IH].
Qed.

Lemma Map_get_set_ne {V : Type} (m : Map V) (k k' : string) (v : V) :
  k' <> k -> Map_get (Map_set m k v) k' = Map_get m k'.
Proof.
  intros Hne. induction m as [| [k0 v0] m IH]; simpl.
  - destruct (String.eqb_spec k k'); [congruence | reflexivity].
  - destruct (String.eqb_spec k0 k) as [-> | _]; simpl.
    + destruct (String.eqb_spec k k'); [congruence | reflexivity].
    + destruct (String.eqb k0 k'); [reflexivity | exact IH].
Qed.

Lemma Map_get_fresh {V : Type} (m : Map V) (k : string) :
  k ∉ Map_keys m -> Map_get m k = None.
Proof.
  unfold Map_keys. induction m as [| [k' v'] m IH]; [reflexivity |].
  change (k ∉ k' :: m.*1 -> Map_get ((k', v') :: m) k = None).
  rewrite not_elem_of_cons. intros [Hne Hfresh]. simpl.
  destruct (String.eqb_spec k' k); [congruence | auto].
Qed.

Lemma Map_get_delete_ne {V : Type} (m : Map V) (k k' : string) :
  k' <> k -> Map_get (Map_delete m k) k' = Map_get m k'.
Proof.
  intros Hne. induction m as [| [k0 v0] m IH]; [reflexivity |]. simpl.
  destruct (String.eqb_spec k0 k) as [-> | _]; simpl.
  - destruct (String.eqb_spec k k'); [congruence | reflexivity].
  - destruct (String.eqb k0 k'); [reflexivity | exact IH].
Qed.

Lemma Map_delete_sublist {V : Type} (m : Map V) (k : string) :
  sublist (Map_delete m k) m.
Proof.
  induction m as [| [k' v'] m IH]; [constructor |]. simpl.
  destruct (String.eqb k' k); [apply sublist_cons | apply sublist_skip]; auto.
Qed.

Lemma Map_get_delete_eq {V : Type} (m : Map V) (k : string) :
  NoDup (Map_keys m) -> Map_get (Map_delete m k) k = None.
Proof.
  unfold Map_keys. induction m as [| [k' v'] m IH]; [reflexivity |].
  change (NoDup (k' :: m.*1)
          -> Map_get (Map_delete ((k', v') :: m) k) k = None).
  rewrite NoDup_cons. intros [Hfresh Hnodup]. simpl.
  destruct (String.eqb_spec k' k) as [-> | Hne].
  - apply Map_get_fresh, Hfresh.
  - simpl. destruct (String.eqb_spec k' k); [contradiction | auto].
Qed.

Lemma Map_set_keys_NoDup {V : Type} (m : Map V) (k : string) (v : V) :
  NoDup (Map_keys m) -> NoDup (Map_keys (Map_set m k v)).
Proof.
  unfold Map_keys. intros Hnodup.
  destruct (Map_get m k) as [v' |] eqn:Hget.
  - assert (Hsame : (Map_set m k v).*1 = m.*1); [| rewrite Hsame; exact Hnodup].
    clear Hnodup. revert Hget.
    induction m as [| [k0 v0] m IH]; [discriminate |]. simpl.
    destruct (String.eqb k0 k); [reflexivity |].
    intros Hget. simpl. f_equal. exact (IH Hget).
  - rewrite (Map_set_fresh m k v Hget), fmap_app. apply NoDup_app.
    split; [exact Hnodup |]. split; [| apply NoDup_singleton].
    intros x Hx Hk. apply list_elem_of_singleton in Hk. simpl in Hk. subst x.
    clear Hnodup. induction m as [| [k0 v0] m IH]; [inversion Hx |].
    simpl in Hget. destruct (String.eqb_spec k0 k) as [| Hne]; [discriminate |].
    change (k ∈ k0 :: m.*1) in Hx. apply elem_of_cons in Hx as [-> | Hx];
      [contradiction | exact (IH Hget Hx)].
Qed.

Lemma consistent_fresh (this : SubscriptionManager.t) :
  consistent this ->
  SubscriptionManager.nextCorrelationId this
  ∉ (SubscriptionManager.subscriptions this).*1.
Proof.
  intros (_ & Hbound & _) Hin.
  apply list_elem_of_fmap in Hin as ([k v] & Hk & Hin). simpl in Hk.
  pose proof (proj1 (Forall_forall _ _) Hbound _ Hin) as Hlt. simpl in Hlt. lia.
Qed.

Lemma new_consistent : consistent SubscriptionManager.new.
Proof.
  unfold consistent. simpl. split; [lia |]. split; [constructor |].
  split; [constructor |]. split; [constructor | discriminate].
Qed.

Lemma addSubscription_consistent (this : SubscriptionManager.t)
    (security : string) (fields : list string) (options : option (Map string)) :
  consistent this ->
  consistent
    (SubscriptionManager.addSubscription this security fields options).1.
Proof.
  intros Hc. pose proof (consistent_fresh this Hc) as Hfresh.
  destruct Hc as (Hnext & Hbound & Hids & Hkeys & Hlookup).
  unfold consistent, SubscriptionManager.getSecurityByCorrelation in *. simpl.
  rewrite NumMap_set_fresh by exact Hfresh.
  split; [lia |]. split; [| split; [| split]].
  - apply Forall_app. split.
    + eapply Forall_impl; [exact Hbound |]. simpl. intros; lia.
    + apply Forall_singleton. simpl. lia.
  - rewrite fmap_app. apply NoDup_app. split; [exact Hids |].
    split; [| apply NoDup_singleton].
    intros x Hx Hk. apply list_elem_of_singleton in Hk. simpl in Hk. subst x.
    exact (Hfresh Hx).
  - apply Map_set_keys_NoDup, Hkeys.
  - intros security' correlationId.
    rewrite <- NumMap_set_fresh by exact Hfresh.
    destruct (decide (security' = security)) as [-> | Hne].
    + rewrite Map_get_set_eq. intros [= <-].
      rewrite NumMap_get_set_eq. reflexivity.
    + rewrite Map_get_set_ne by exact Hne. intros Hget.
      specialize (Hlookup _ _ Hget).
      destruct (NumMap_get (SubscriptionManager.subscriptions this)
                           correlationId) as [sub |] eqn:Hsub;
        [| discriminate].
      rewrite NumMap_get_set_ne; [rewrite Hsub; exact Hlookup |].
      intros ->. apply NumMap_get_elem in Hsub.
      pose proof (proj1 (Forall_forall _ _) Hbound _ Hsub) as Hlt.
      simpl in Hlt. lia.
Qed.

Lemma removeSubscription_consistent (this : SubscriptionManager.t)
    (security : string) :
  consistent this ->
  consistent (SubscriptionManager.removeSubscription this security).1.
Proof.
  intros Hc. unfold SubscriptionManager.removeSubscription.
  destruct (Map_get (SubscriptionManager.securityToCorrelation this) security)
    as [correlationId |] eqn:Hget; [| exact Hc].
  destruct Hc as (Hnext & Hbound & Hids & Hkeys & Hlookup).
  unfold consistent, SubscriptionManager.getSecurityByCorrelation in *. simpl.
  split; [exact Hnext |]. split; [| split; [| split]].
  - apply Forall_forall. intros entry Hentry.
    apply (proj1 (Forall_forall _ _) Hbound).
    eapply elem_of_sublist; [exact Hentry | apply NumMap_delete_sublist].
  - eapply sublist_NoDup; [exact Hids |].
    apply fmap_sublist, NumMap_delete_sublist.
  - eapply sublist_NoDup; [exact Hkeys |].
    apply fmap_sublist, Map_delete_sublist.
  - intros security' correlationId'.
    destruct (decide (security' = security)) as [-> | Hne].
    + rewrite Map_get_delete_eq by exact Hkeys. discriminate.
    + rewrite Map_get_delete_ne by exact Hne. intros Hget'.
      pose proof (Hlookup _ _ Hget) as Hown.
      pose proof (Hlookup _ _ Hget') as Hother.
      rewrite NumMap_get_delete_ne; [exact Hother |].
      intros ->. rewrite Hown in Hother. congruence.
Qed.

Lemma run_consistent (ops : list SubscriptionManager.op)
    (this : SubscriptionManager.t) :
  consistent this -> consistent (SubscriptionManager.run ops this).
Proof.
  unfold SubscriptionManager.run. revert this.
  induction ops as [| o ops IH]; intros this Hc; [exact Hc |].
  simpl. apply IH. destruct o as [security fields options | security |]; simpl.
  - apply addSubscription_consistent, Hc.
  - apply removeSubscription_consistent, Hc.
  - apply new_consistent.
Qed.

(** X18.  In every state a subscription manager reaches from its constructor,
    [addSubscription] returns a correlation id that no subscription is
    using, namely the next counter value; afterwards that id resolves to the
    new subscription and its security, every other id resolves as before,
    the size has grown by one, and the security resolves to the id, unless
    the id is 0. *)
Theorem addSubscription_uses_a_fresh_correlation_id :
  forall (ops : list SubscriptionManager.op) (security : string)
         (fields : list string) (options : option (Map string)),
    let this := SubscriptionManager.run ops SubscriptionManager.new in
    let added :=
      SubscriptionManager.addSubscription this security fields options in
    added.2 = SubscriptionManager.nextCorrelationId this
    /\ SubscriptionManager.getSubscription this added.2 = None
    /\ SubscriptionManager.getSubscription added.1 added.2
       = Some {| SubscriptionManager.security := security;
                 SubscriptionManager.fields := fields;
                 SubscriptionManager.options := default [] options |}
    /\ SubscriptionManager.getSecurityByCorrelation added.1 added.2
       = Some security
    /\ (forall other,
           other <> added.2 ->
           SubscriptionManager.getSubscription added.1 other
           = SubscriptionManager.getSubscription this other)
    /\ SubscriptionManager.size added.1 = SubscriptionManager.size this + 1
    /\ SubscriptionManager.getCorrelationBySecurity added.1 security
       = (if added.2 =? 0 then None else Some added.2).
Proof.
  intros ops security fields options this added.
  pose proof (run_consistent ops _ new_consistent) as Hc. fold this in Hc.
  pose proof (consistent_fresh this Hc) as Hfresh.
  unfold SubscriptionManager.getSubscription,
    SubscriptionManager.getSecurityByCorrelation,
    SubscriptionManager.getCorrelationBySecurity, SubscriptionManager.size.
  subst added. simpl.
  split; [reflexivity |]. split; [apply NumMap_get_fresh, Hfresh |].
  rewrite NumMap_get_set_eq, Map_get_set_eq.
  split; [reflexivity |]. split; [reflexivity |].
  split; [intros other Hne; apply NumMap_get_set_ne, Hne |].
  split; [| reflexivity].
  rewrite NumMap_set_fresh by exact Hfresh. rewrite length_app. simpl. lia.
Qed.

(** X19.  [addSecuritySubscription] on a connected connector passes the new
    subscription to the live session, with the id the manager gave it,
    except when that id is 0: the first security added after construction or
    after [clear] is recorded by the manager, and resolves from id 0, but no
    request for it reaches the session, because the lookup of its id by
    security returns null for 0. *)
Theorem first_added_security_is_not_subscribed_live :
  forall (configFields : list string) (manager : SubscriptionManager.t)
         (security : string) (fields : option (list string)),
    let next := SubscriptionManager.nextCorrelationId manager in
    let added :=
      addSecuritySubscription configFields true true manager security fields in
    added.2
    = (if next =? 0 then []
       else [[{| SubscriptionManager.req_security := security;
                 SubscriptionManager.correlation := next;
                 SubscriptionManager.req_fields := default configFields fields;
                 SubscriptionManager.req_options := [] |}]])
    /\ SubscriptionManager.getSecurityByCorrelation added.1 next = Some security
    /\ (addSecuritySubscription configFields true true
          (SubscriptionManager.clear manager) security fields).2 = [].
Proof.
  intros configFields manager security fields next added.
  assert (Hgen : forall m,
             let m' := (SubscriptionManager.addSubscription m security
                          (default configFields fields) None).1 in
             SubscriptionManager.getCorrelationBySecurity m' security
             = (if SubscriptionManager.nextCorrelationId m =? 0 then None
                else Some (SubscriptionManager.nextCorrelationId m))
             /\ SubscriptionManager.getSecurityByCorrelation m'
                  (SubscriptionManager.nextCorrelationId m) = Some security).
  { intros m. unfold SubscriptionManager.getCorrelationBySecurity,
      SubscriptionManager.getSecurityByCorrelation. simpl.
    rewrite Map_get_set_eq, NumMap_get_set_eq. split; reflexivity. }
  subst added. unfold addSecuritySubscription.
  change (true && true) with true. cbv iota zeta.
  destruct (Hgen manager) as [Hid Hsec].
  destruct (Hgen (SubscriptionManager.clear manager)) as [Hid' _].
  cbv zeta in *. rewrite Hid, Hid'. fold next.
  split; [| split].
  - destruct (next =? 0); reflexivity.
  - destruct (next =? 0); exact Hsec.
  - reflexivity.
Qed.

(** X20.  Subscribing a security that is already subscribed does not replace
    the earlier subscription: it adds a second one under a new id.  A
    following [removeSubscription] removes only the newer one and returns
    true; the earlier id still resolves to the security, the size is what it
    was before the second subscription, and no further call can remove the
    earlier subscription, since the security now resolves to no id. *)
Theorem resubscribed_security_leaves_a_stale_subscription :
  forall (ops : list SubscriptionManager.op) (security : string)
         (fields : list string) (options : option (Map string)) (earlier : Z),
    let this := SubscriptionManager.run ops SubscriptionManager.new in
    let again :=
      (SubscriptionManager.addSubscription this security fields options).1 in
    let removed := SubscriptionManager.removeSubscription again security in
    SubscriptionManager.getSecurityByCorrelation this earlier = Some security ->
    removed.2 = true
    /\ SubscriptionManager.getSecurityByCorrelation removed.1 earlier
       = Some security
    /\ SubscriptionManager.size removed.1 = SubscriptionManager.size this
    /\ SubscriptionManager.getCorrelationBySecurity removed.1 security = None
    /\ SubscriptionManager.removeSubscription removed.1 security
       = (removed.1, false).
Proof.
  intros ops security fields options earlier this again removed Hearlier.
  pose proof (run_consistent ops _ new_consistent) as Hc. fold this in Hc.
  pose proof (consistent_fresh this Hc) as Hfresh.
  pose proof (addSubscription_consistent this security fields options Hc)
    as Hagain. fold again in Hagain.
  destruct Hagain as (_ & _ & _ & Hkeys & _).
  assert (Hne : earlier <> SubscriptionManager.nextCorrelationId this).
  { intros ->. unfold SubscriptionManager.getSecurityByCorrelation in Hearlier.
    rewrite (NumMap_get_fresh _ _ Hfresh) in Hearlier. discriminate. }
  assert (Hgone :
            Map_get (SubscriptionManager.securityToCorrelation removed.1)
                    security = None).
  { subst removed. unfold SubscriptionManager.removeSubscription.
    destruct (Map_get (SubscriptionManager.securityToCorrelation again)
                      security) eqn:Hget; simpl; [| exact Hget].
    apply Map_get_delete_eq, Hkeys. }
  assert (Hremoved :
            removed
            = ({| SubscriptionManager.subscriptions :=
                    NumMap_delete (SubscriptionManager.subscriptions again)
                      (SubscriptionManager.nextCorrelationId this);
                  SubscriptionManager.nextCorrelationId :=
                    SubscriptionManager.nextCorrelationId again;
                  SubscriptionManager.securityToCorrelation :=
                    Map_delete (SubscriptionManager.securityToCorrelation again)
                      security |}, true)).
  { subst removed again. unfold SubscriptionManager.removeSubscription. simpl.
    rewrite Map_get_set_eq. reflexivity. }
  split; [rewrite Hremoved; reflexivity |]. split; [| split; [| split]].
  - rewrite Hremoved. unfold SubscriptionManager.getSecurityByCorrelation in *.
    subst again. simpl.
    rewrite NumMap_get_delete_ne, NumMap_get_set_ne by exact Hne.
    exact Hearlier.
  - rewrite Hremoved. unfold SubscriptionManager.size. subst again. simpl.
    pose proof (NumMap_delete_length
                  (NumMap_set (SubscriptionManager.subscriptions this)
                     (SubscriptionManager.nextCorrelationId this)
                     {| SubscriptionManager.security := security;
                        SubscriptionManager.fields := fields;
                        SubscriptionManager.options := default [] options |})
                  (SubscriptionManager.nextCorrelationId this) _
                  (NumMap_get_set_eq _ _ _)) as Hlen.
    rewrite (NumMap_set_fresh _ _ _ Hfresh) in Hlen at 2.
    rewrite length_app in Hlen. simpl in Hlen. lia.
  - unfold SubscriptionManager.getCorrelationBySecurity. rewrite Hgone.
    reflexivity.
  - unfold SubscriptionManager.removeSubscription. rewrite Hgone. reflexivity.
Qed.

Lemma resubscribed_security_leaves_a_stale_subscription_witness :
  let this :=
    SubscriptionManager.run
      [SubscriptionManager.Add "IBM US Equity" ["LAST_PRICE"] None;
       SubscriptionManager.Add "AAPL US Equity" ["LAST_PRICE"; "BID"] None]
      SubscriptionManager.new in
  let again :=
    (SubscriptionManager.addSubscription this "AAPL US Equity" ["ASK"] None).1 in
  let removed := SubscriptionManager.removeSubscription again "AAPL US Equity" in
  removed.2 = true
  /\ SubscriptionManager.getSecurityByCorrelation removed.1 1
     = Some "AAPL US Equity"
  /\ SubscriptionManager.size removed.1 = SubscriptionManager.size this
  /\ SubscriptionManager.getCorrelationBySecurity removed.1 "AAPL US Equity"
     = None
  /\ SubscriptionManager.removeSubscription removed.1 "AAPL US Equity"
     = (removed.1, false).
Proof.
  apply (resubscribed_security_leaves_a_stale_subscription
           [SubscriptionManager.Add "IBM US Equity" ["LAST_PRICE"] None;
            SubscriptionManager.Add "AAPL US Equity" ["LAST_PRICE"; "BID"] None]
           "AAPL US Equity" ["ASK"] None 1).
  reflexivity.
Defined.

(** X21.  In every state a subscription manager reaches from its constructor
    by adding, removing and clearing, the requests it builds for the session
    carry pairwise distinct correlation ids, all of them below the next id to
    be given out; and an id that a security resolves to resolves back to
    that security. *)
Theorem subscription_requests_have_distinct_correlation_ids :
  forall (ops : list SubscriptionManager.op),
    let this := SubscriptionManager.run ops SubscriptionManager.new in
    let requests := SubscriptionManager.buildBloombergSubscriptions this in
    NoDup (map SubscriptionManager.correlation requests)
    /\ Forall (fun request =>
                 0 <= SubscriptionManager.correlation request
                   < SubscriptionManager.nextCorrelationId this) requests
    /\ map SubscriptionManager.req_security requests
       = map SubscriptionManager.security
             (SubscriptionManager.getAllSubscriptions this)
    /\ (forall security correlationId,
           SubscriptionManager.getCorrelationBySecurity this security
           = Some correlationId ->
           SubscriptionManager.getSecurityByCorrelation this correlationId
           = Some security).
Proof.
  intros ops this requests.
  pose proof (run_consistent ops _ new_consistent) as Hc. fold this in Hc.
  destruct Hc as (_ & Hbound & Hids & _ & Hlookup).
  subst requests. unfold SubscriptionManager.buildBloombergSubscriptions,
    SubscriptionManager.getAllSubscriptions.
  split; [| split; [| split]].
  - rewrite List.map_map. simpl. exact Hids.
  - apply List.Forall_map. simpl. exact Hbound.
  - rewrite List.map_map. simpl. clear Hbound Hids Hlookup.
    induction (SubscriptionManager.subscriptions this) as [| entry l IH];
      [reflexivity |].
    simpl. f_equal. exact IH.
  - intros security correlationId.
    unfold SubscriptionManager.getCorrelationBySecurity.
    destruct (Map_get _ security) as [id |] eqn:Hget; [| discriminate].
    destruct (id =? 0); [discriminate |]. intros [= <-].
    apply Hlookup, Hget.
Qed.

(** ** Reconnection *)

Lemma backoff_from (base : Z) (a n : nat) :
  map (fun i => Z.min (base * 2 ^ Z.of_nat i) 60000) (seq a (S n))
  = Z.min (base * 2 ^ Z.of_nat a) 60000
      :: map (fun i => Z.min (base * 2 ^ Z.of_nat i) 60000) (seq (S a) n).
Proof. reflexivity. Qed.

Lemma polygon_closes (k : nat) :
  forall a : nat,
    (PolygonWebSocketClient.closes k
       {| PolygonWebSocketClient.reconnectAttempts := Z.of_nat a |}).2
    = map (fun i => Z.min (1000 * 2 ^ Z.of_nat i) 60000)
          (seq a (Nat.min k (10 - a))).
Proof.
  induction k as [| k IH]; intros a; [reflexivity |].
  simpl PolygonWebSocketClient.closes.
  unfold PolygonWebSocketClient.scheduleReconnect,
    PolygonWebSocketClient.maxReconnectAttempts,
    PolygonWebSocketClient.reconnectDelay.
  simpl PolygonWebSocketClient.reconnectAttempts.
  destruct (Z.leb_spec 10 (Z.of_nat a)) as [Hmax | Hless].
  - specialize (IH a).
    destruct (PolygonWebSocketClient.closes k _) as [this' delays].
    simpl in *. rewrite IH.
    replace (10 - a)%nat with 0%nat by lia. rewrite !Nat.min_0_r. reflexivity.
  - specialize (IH (S a)).
    replace (Z.of_nat a + 1) with (Z.of_nat (S a)) by lia.
    destruct (PolygonWebSocketClient.closes k _) as [this' delays].
    simpl in IH. simpl fst. simpl snd. simpl option_list.
    replace (Nat.min (S k) (10 - a)) with (S (Nat.min k (10 - S a))) by lia.
    rewrite backoff_from, IH. reflexivity.
Qed.

Lemma binance_closes (config : BinanceWebSocketClient.Config) (k : nat) :
  forall a : nat,
    (BinanceWebSocketClient.closes config k
       {| BinanceWebSocketClient.reconnectAttempts := Z.of_nat a;
          BinanceWebSocketClient.reconnectTimer := false |}).2
    = map (fun i =>
             Z.min (default 0 (BinanceWebSocketClient.reconnectDelay config)
                    * 2 ^ Z.of_nat i) 60000)
          (seq a (Nat.min k
                    (Z.to_nat
                       (default 0
                          (BinanceWebSocketClient.maxReconnectAttempts config))
                     - a))).
Proof.
  induction k as [| k IH]; intros a; [reflexivity |].
  simpl BinanceWebSocketClient.closes.
  unfold BinanceWebSocketClient.scheduleReconnect.
  simpl BinanceWebSocketClient.reconnectAttempts.
  simpl BinanceWebSocketClient.reconnectTimer. cbv iota.
  set (limit := default 0 (BinanceWebSocketClient.maxReconnectAttempts config))
    in *.
  destruct (Z.leb_spec limit (Z.of_nat a)) as [Hmax | Hless].
  - specialize (IH a).
    destruct (BinanceWebSocketClient.closes config k _) as [this' delays].
    simpl in *. rewrite IH.
    replace (Z.to_nat limit - a)%nat with 0%nat by lia.
    rewrite !Nat.min_0_r. reflexivity.
  - specialize (IH (S a)). unfold BinanceWebSocketClient.timerFires.
    simpl BinanceWebSocketClient.reconnectAttempts.
    replace (Z.of_nat a + 1) with (Z.of_nat (S a)) by lia.
    destruct (BinanceWebSocketClient.closes config k _) as [this' delays].
    simpl in IH. simpl fst. simpl snd. simpl option_list.
    replace (Nat.min (S k) (Z.to_nat limit - a))
      with (S (Nat.min k (Z.to_nat limit - S a))) by lia.
    rewrite backoff_from, IH. reflexivity.
Qed.

(** X22.  When the socket of a streaming client closes [k] times in a row
    without a connection being opened in between, the client arms a
    reconnection timer for the first max-attempts closes only (10 by
    default) and none after that; its delays are the base delay (1000 ms for
    Polygon, 5000 ms by default for Binance) doubled at each close and capped
    at 60000 ms.  An ['open'] starts the sequence again from the base delay.
    While a reconnection timer is pending, a further close of the Binance
    client arms no second timer and is not counted. *)
Theorem reconnect_delays_double_up_to_a_minute_then_stop :
  forall (config : BinanceWebSocketClient.Config) (k : nat)
         (polygon : PolygonWebSocketClient.t) (binance : BinanceWebSocketClient.t),
    let config' := BinanceWebSocketClient.newConfig config in
    (PolygonWebSocketClient.closes k PolygonWebSocketClient.new).2
    = backoff 1000 10 k
    /\ (PolygonWebSocketClient.closes k
          (PolygonWebSocketClient.onOpen polygon)).2
       = backoff 1000 10 k
    /\ (BinanceWebSocketClient.closes config' k BinanceWebSocketClient.new).2
       = backoff (default 5000 (BinanceWebSocketClient.reconnectDelay config))
                 (default 10 (BinanceWebSocketClient.maxReconnectAttempts config))
                 k
    /\ BinanceWebSocketClient.scheduleReconnect config'
         {| BinanceWebSocketClient.reconnectAttempts :=
              BinanceWebSocketClient.reconnectAttempts binance;
            BinanceWebSocketClient.reconnectTimer := true |}
       = ({| BinanceWebSocketClient.reconnectAttempts :=
               BinanceWebSocketClient.reconnectAttempts binance;
             BinanceWebSocketClient.reconnectTimer := true |}, None)
    /\ Forall (fun delay => delay <= 60000) (backoff 1000 10 k)
    /\ (length (backoff 1000 10 k) <= 10)%nat.
Proof.
  intros config k polygon binance config'.
  split; [| split; [| split; [| split; [| split]]]].
  - pose proof (polygon_closes k 0) as Hrun. rewrite Nat.sub_0_r in Hrun.
    exact Hrun.
  - pose proof (polygon_closes k 0) as Hrun. rewrite Nat.sub_0_r in Hrun.
    exact Hrun.
  - pose proof (binance_closes config' k 0) as Hrun.
    rewrite Nat.sub_0_r in Hrun. exact Hrun.
  - reflexivity.
  - unfold backoff. apply List.Forall_map, Forall_forall. intros i _. lia.
  - unfold backoff. rewrite length_map, length_seq. lia.
Qed.

(** ** REST backfill *)

Section BackfillRetry.
Context {Body : Type}.
Variable parseInt : string -> option Z.
Variable service : nat -> PolygonRESTBackfill.fetched Body.
Variable responses : nat -> PolygonRESTBackfill.Response Body.
Variable maxRetries : Z.

Local Abbreviation waits :=
  (fun i => [PolygonRESTBackfill.Fetch;
             PolygonRESTBackfill.Sleep
               (PolygonRESTBackfill.rateLimitDelay parseInt (responses i))]).

Lemma retryLoop_rate_limited (k : nat) :
  forall (fuel : nat) (attempt : Z) (calls : nat) (lastError : option string),
    (forall i, (calls <= i < calls + k)%nat ->
               service i = PolygonRESTBackfill.Resolved (responses i)
               /\ PolygonRESTBackfill.bf_status (responses i) = 429) ->
    PolygonRESTBackfill.retryLoop parseInt service maxRetries (k + fuel)
      attempt calls lastError
    = (flat_map waits (seq calls k)
         ++ (PolygonRESTBackfill.retryLoop parseInt service maxRetries fuel
               (attempt + Z.of_nat k) (calls + k) lastError).1,
       (PolygonRESTBackfill.retryLoop parseInt service maxRetries fuel
          (attempt + Z.of_nat k) (calls + k) lastError).2).
Proof.
  induction k as [| k IH]; intros fuel attempt calls lastError Hbusy.
  - simpl. rewrite Z.add_0_r, Nat.add_0_r.
    destruct (PolygonRESTBackfill.retryLoop _ _ _ _ _ _ _); reflexivity.
  - destruct (Hbusy calls) as [Hcall Hstatus]; [lia |].
    change (S k + fuel)%nat with (S (k + fuel)).
    simpl PolygonRESTBackfill.retryLoop. rewrite Hcall, Hstatus. simpl Z.eqb.
    cbv iota.
    rewrite (IH fuel (attempt + 1) (S calls) lastError)
      by (intros i Hi; apply Hbusy; lia).
    replace (attempt + 1 + Z.of_nat k) with (attempt + Z.of_nat (S k)) by lia.
    replace (S calls + k)%nat with (calls + S k)%nat by lia.
    reflexivity.
Qed.

End BackfillRetry.

(** X23.  [fetchWithRetry] of the REST backfill waits, after a response with
    status 429, the seconds its Retry-After header asks for (5000 ms when
    there is no such header) and then fetches again; a rate-limited response
    uses up one of the max-retries attempts.  When a response that is neither
    rate-limited nor failed follows, its body is returned with no further
    wait.  When all max-retries responses are rate-limited, the call waits
    once more after the last of them and then throws an error that reads
    Unknown error during backfill, not one that names the rate limit. *)
Theorem backfill_fetch_waits_as_long_as_retry_after_asks :
  forall (Body : Type) (parseInt : string -> option Z)
         (service : nat -> PolygonRESTBackfill.fetched Body)
         (responses : nat -> PolygonRESTBackfill.Response Body)
         (maxRetries : Z) (k : nat),
    let waits :=
      flat_map (fun i =>
                  [PolygonRESTBackfill.Fetch;
                   PolygonRESTBackfill.Sleep
                     (PolygonRESTBackfill.rateLimitDelay parseInt
                        (responses i))])
               (seq 0 k) in
    (forall i, (i < k)%nat ->
               service i = PolygonRESTBackfill.Resolved (responses i)
               /\ PolygonRESTBackfill.bf_status (responses i) = 429) ->
    (Z.of_nat k = maxRetries ->
     PolygonRESTBackfill.fetchWithRetry parseInt service maxRetries 0
     = (waits, Thrown "Unknown error during backfill"))
    /\ (forall body,
           Z.of_nat k < maxRetries ->
           service k = PolygonRESTBackfill.Resolved (responses k) ->
           PolygonRESTBackfill.bf_status (responses k) <> 429 ->
           PolygonRESTBackfill.bf_ok (responses k) = true ->
           PolygonRESTBackfill.bf_json (responses k) = Returned body ->
           PolygonRESTBackfill.fetchWithRetry parseInt service maxRetries 0
           = (waits ++ [PolygonRESTBackfill.Fetch], Returned body)).
Proof.
  intros Body parseInt service responses maxRetries k waits Hbusy.
  unfold PolygonRESTBackfill.fetchWithRetry. split.
  - intros <-. replace (Z.to_nat (Z.of_nat k)) with (k + 0)%nat by lia.
    rewrite (retryLoop_rate_limited parseInt service responses _ k)
      by (intros i Hi; apply Hbusy; lia).
    simpl. rewrite app_nil_r. reflexivity.
  - intros body Hless Hcall Hstatus Hok Hjson.
    replace (Z.to_nat maxRetries)
      with (k + S (Z.to_nat maxRetries - S k))%nat by lia.
    rewrite (retryLoop_rate_limited parseInt service responses _ k)
      by (intros i Hi; apply Hbusy; lia).
    simpl. rewrite Hcall.
    destruct (Z.eqb_spec (PolygonRESTBackfill.bf_status (responses k)) 429);
      [contradiction |].
    rewrite Hok, Hjson. reflexivity.
Qed.

Lemma backfill_fetch_waits_as_long_as_retry_after_asks_witness :
  PolygonRESTBackfill.fetchWithRetry parseSeconds alwaysBusy 3 0
  = ([PolygonRESTBackfill.Fetch; PolygonRESTBackfill.Sleep (Some 10000);
      PolygonRESTBackfill.Fetch; PolygonRESTBackfill.Sleep (Some 10000);
      PolygonRESTBackfill.Fetch; PolygonRESTBackfill.Sleep (Some 10000)],
     Thrown "Unknown error during backfill")
  /\ PolygonRESTBackfill.fetchWithRetry parseSeconds busyOnce 3 0
     = ([PolygonRESTBackfill.Fetch; PolygonRESTBackfill.Sleep (Some 10000);
         PolygonRESTBackfill.Fetch], Returned 42).
Proof.
  split.
  - apply (backfill_fetch_waits_as_long_as_retry_after_asks Z parseSeconds
             alwaysBusy (fun _ => busy) 3 3); [| reflexivity].
    intros i _. split; reflexivity.
  - apply (backfill_fetch_waits_as_long_as_retry_after_asks Z parseSeconds
             busyOnce
             (fun i => match busyOnce i with
                       | PolygonRESTBackfill.Resolved r => r
                       | PolygonRESTBackfill.Rejected _ => busy
                       end) 3 1);
      [| lia | reflexivity | discriminate | reflexivity | reflexivity].
    intros i Hi. assert (i = 0%nat) as -> by lia. split; reflexivity.
Defined.

Lemma insertByTs_Permutation (tick : NormalizedTick)
    (sorted : list NormalizedTick) :
  Permutation (PolygonRESTBackfill.insertByTs tick sorted) (tick :: sorted).
Proof.
  induction sorted as [| first rest IH]; [reflexivity |]. simpl.
  destruct (ts tick <=? ts first); [reflexivity |].
  rewrite IH. apply perm_swap.
Qed.

Lemma sortByTs_Permutation (ticks : list NormalizedTick) :
  Permutation (PolygonRESTBackfill.sortByTs ticks) ticks.
Proof.
  unfold PolygonRESTBackfill.sortByTs.
  induction ticks as [| tick ticks IH]; [reflexivity |]. simpl.
  rewrite insertByTs_Permutation. constructor. exact IH.
Qed.

Lemma insertByTs_inTimeOrder (tick : NormalizedTick)
    (sorted : list NormalizedTick) :
  inTimeOrder sorted ->
  inTimeOrder (PolygonRESTBackfill.insertByTs tick sorted).
Proof.
  induction sorted as [| first rest IH]; intros Hsorted.
  - simpl. split; [constructor | exact I].
  - simpl. destruct Hsorted as [Hfirst Hrest].
    destruct (Z.leb_spec (ts tick) (ts first)) as [Hle | Hgt].
    + simpl. split; [| split; assumption].
      constructor; [exact Hle |].
      eapply Forall_impl; [exact Hfirst |]. simpl. intros; lia.
    + simpl. split; [| apply IH, Hrest].
      rewrite (insertByTs_Permutation tick rest).
      constructor; [lia | exact Hfirst].
Qed.

Lemma sortByTs_inTimeOrder (ticks : list NormalizedTick) :
  inTimeOrder (PolygonRESTBackfill.sortByTs ticks).
Proof.
  unfold PolygonRESTBackfill.sortByTs.
  induction ticks as [| tick ticks IH]; [exact I |].
  simpl. apply insertByTs_inTimeOrder, IH.
Qed.

Lemma normalizeAll_polygon
    (trades : list PolygonNormalizer.PolygonTradeMessage) :
  forall ticks,
    PolygonRESTBackfill.normalizeAll trades = Returned ticks ->
    Forall (fun tick => exchange tick = "polygon"
                        /\ Date_valid (ts tick) = true
                        /\ exists trade,
                             trade ∈ trades
                             /\ PolygonNormalizer.normalize trade
                                = Returned (Some tick)) ticks
    /\ (length ticks <= length trades)%nat.
Proof.
  induction trades as [| trade trades IH]; intros ticks.
  - intros [= <-]. split; [constructor | reflexivity].
  - simpl.
    destruct (PolygonNormalizer.normalize trade) as [tick |] eqn:Hone;
      [| discriminate].
    destruct (PolygonRESTBackfill.normalizeAll trades) as [rest |];
      [| discriminate].
    intros [= <-]. destruct (IH rest eq_refl) as [Hall Hlen]. split.
    + apply Forall_app. split.
      * destruct tick as [tick |]; [| constructor].
        apply Forall_singleton. split; [| split].
        -- revert Hone. unfold PolygonNormalizer.normalize.
           repeat (match goal with
                   | |- context [if ?c then _ else _] => destruct c
                   | |- context [match ?c with _ => _ end] => destruct c
                   end; try discriminate).
           intros [= <-]. reflexivity.
        -- revert Hone. unfold PolygonNormalizer.normalize, toISOString_of_ms.
           destruct (negb _); [discriminate |].
           destruct (PolygonNormalizer.pm_p trade); [| discriminate].
           destruct (_ || _); [discriminate |].
           destruct (Date_valid _) eqn:Hvalid; [| discriminate].
           intros [= <-]. exact Hvalid.
        -- exists trade. split; [apply list_elem_of_here | exact Hone].
      * eapply Forall_impl; [exact Hall |].
        intros t (He & Hv & trade' & Hin & Hn). split; [exact He |].
        split; [exact Hv |]. exists trade'.
        split; [apply list_elem_of_further, Hin | exact Hn].
    + rewrite length_app. destruct tick; simpl; lia.
Qed.

(** X24.  [backfillTrades] with a range whose ends are dates never rejects:
    when fetching the trades or normalizing one of them throws it returns no
    tick at all.  The ticks it returns are in time order, whatever the order
    of the trades fetched; each is the normalization of one of the trades
    fetched, tagged polygon, with an instant that is a date; and no trade
    gives more than one tick. *)
Theorem backfillTrades_returns_ticks_in_time_order :
  forall (fromTimestamp toTimestamp : Z)
         (fetched : outcome (list PolygonNormalizer.PolygonTradeMessage)),
    Date_valid fromTimestamp = true ->
    Date_valid toTimestamp = true ->
    exists ticks,
      PolygonRESTBackfill.backfillTrades fromTimestamp toTimestamp fetched
      = Returned ticks
      /\ inTimeOrder ticks
      /\ (forall e, fetched = Thrown e -> ticks = [])
      /\ (forall trades,
             fetched = Returned trades ->
             (length ticks <= length trades)%nat
             /\ Forall (fun tick =>
                          exchange tick = "polygon"
                          /\ Date_valid (ts tick) = true
                          /\ exists trade,
                               trade ∈ trades
                               /\ PolygonNormalizer.normalize trade
                                  = Returned (Some tick)) ticks
             /\ (forall normalized,
                    PolygonRESTBackfill.normalizeAll trades
                    = Returned normalized ->
                    Permutation ticks normalized)
             /\ (forall e,
                    PolygonRESTBackfill.normalizeAll trades = Thrown e ->
                    ticks = [])).
Proof.
  intros fromTimestamp toTimestamp fetched Hfrom Hto.
  unfold PolygonRESTBackfill.backfillTrades, toISOString_of_ms.
  rewrite Hfrom, Hto.
  destruct fetched as [trades | e].
  - destruct (PolygonRESTBackfill.normalizeAll trades) as [normalized | e]
      eqn:Hall.
    + exists (PolygonRESTBackfill.sortByTs normalized).
      split; [reflexivity |]. split; [apply sortByTs_inTimeOrder |].
      split; [discriminate |]. intros trades' [= <-].
      destruct (normalizeAll_polygon trades normalized Hall) as [Hticks Hlen].
      pose proof (sortByTs_Permutation normalized) as Hperm.
      split; [rewrite Hperm; exact Hlen |].
      split; [rewrite Hperm; exact Hticks |].
      split; [| intros e; rewrite Hall; discriminate].
      intros normalized'. rewrite Hall. intros [= <-]. exact Hperm.
    + exists []. split; [reflexivity |]. split; [exact I |].
      split; [reflexivity |]. intros trades' [= <-].
      split; [simpl; lia |]. split; [constructor |].
      split; [| reflexivity]. rewrite Hall. discriminate.
  - exists []. split; [reflexivity |]. split; [exact I |].
    split; [reflexivity |]. discriminate.
Qed.

Lemma backfillTrades_returns_ticks_in_time_order_witness :
  exists ticks,
    PolygonRESTBackfill.backfillTrades 1735725600000 1735725700000
      (Returned backfilled)
    = Returned ticks
    /\ inTimeOrder ticks
    /\ (forall e, Returned backfilled = Thrown e -> ticks = [])
    /\ (forall trades,
           Returned backfilled = Returned trades ->
           (length ticks <= length trades)%nat
           /\ Forall (fun tick =>
                        exchange tick = "polygon"
                        /\ Date_valid (ts tick) = true
                        /\ exists trade,
                             trade ∈ trades
                             /\ PolygonNormalizer.normalize trade
                                = Returned (Some tick)) ticks
           /\ (forall normalized,
                  PolygonRESTBackfill.normalizeAll trades = Returned normalized ->
                  Permutation ticks normalized)
           /\ (forall e,
                  PolygonRESTBackfill.normalizeAll trades = Thrown e ->
                  ticks = [])).
Proof.
  apply (backfillTrades_returns_ticks_in_time_order 1735725600000 1735725700000
           (Returned backfilled)); reflexivity.
Defined.

Lemma fetchTradesLoop_returns
    (page : nat -> Z -> outcome (option (list PolygonRESTBackfill.Result)))
    (symbol : string) (toTimestamp : Z) :
  (forall n current first rest sip,
      page n current = Returned (Some (first :: rest)) ->
      PolygonRESTBackfill.sip_timestamp (List.last rest first) = Some sip ->
      current <= sip) ->
  forall (fuel n : nat) (current : Z)
         (allTrades : list PolygonNormalizer.PolygonTradeMessage),
    toTimestamp - current <= Z.of_nat fuel ->
    Forall (fun trade => PolygonNormalizer.pm_ev trade = "T"
                         /\ PolygonNormalizer.pm_sym trade = symbol) allTrades ->
    exists out,
      PolygonRESTBackfill.fetchTradesLoop page symbol toTimestamp fuel n
        current allTrades = Some out
      /\ (forall trades,
             out = Returned trades ->
             Forall (fun trade => PolygonNormalizer.pm_ev trade = "T"
                                  /\ PolygonNormalizer.pm_sym trade = symbol)
                    trades).
Proof.
  intros Hserver.
  assert (Hmapped : forall results,
             Forall (fun trade => PolygonNormalizer.pm_ev trade = "T"
                                  /\ PolygonNormalizer.pm_sym trade = symbol)
                    (map (PolygonRESTBackfill.toTrade symbol) results)).
  { intros results. apply List.Forall_map, Forall_forall.
    intros r _. split; reflexivity. }
  induction fuel as [| fuel IH]; intros n current allTrades Hfuel Hall.
  - simpl. destruct (Z.ltb_spec current toTimestamp) as [Hlt | _]; [lia |].
    eexists. split; [reflexivity |]. intros trades [= <-]. exact Hall.
  - simpl. destruct (Z.ltb_spec current toTimestamp) as [Hlt | _];
      [| eexists; split; [reflexivity |]; intros trades [= <-]; exact Hall].
    destruct (page n current) as [[[| first rest] |] | e] eqn:Hpage;
      try (eexists; split; [reflexivity |]; intros trades [= <-]; exact Hall);
      try (eexists; split; [reflexivity |]; discriminate).
    assert (Hall' :
              Forall (fun trade => PolygonNormalizer.pm_ev trade = "T"
                                   /\ PolygonNormalizer.pm_sym trade = symbol)
                     (allTrades
                      ++ map (PolygonRESTBackfill.toTrade symbol)
                             (first :: rest))).
    { apply Forall_app. split; [exact Hall | apply Hmapped]. }
    destruct (_ <? 50000);
      [eexists; split; [reflexivity |]; intros trades [= <-]; exact Hall' |].
    destruct (PolygonRESTBackfill.sip_timestamp (List.last rest first))
      as [sip |] eqn:Hsip;
      [| eexists; split; [reflexivity |]; intros trades [= <-]; exact Hall'].
    pose proof (Hserver n current first rest sip Hpage Hsip) as Hle.
    apply IH; [lia | exact Hall'].
Qed.

Lemma last_replicate {A : Type} (n : nat) (x : A) :
  List.last (replicate n x) x = x.
Proof.
  induction n as [| n IH]; [reflexivity |]. simpl.
  destruct (replicate n x) eqn:Hr; [reflexivity | exact IH].
Qed.

(** X25.  The paging loop of the backfill comes to an end when the service
    honours the lower bound of the request, that is, when the last trade of
    a page carries a [sip_timestamp] that is not before the time asked for
    ([null] counting as 0): it then fetches at most as many full pages as
    there are milliseconds in the range.  Every trade it returns is marked
    as a trade and carries the symbol that was asked for, whatever the
    service sent. *)
Theorem backfill_paging_ends_when_the_service_moves_forward :
  forall (page : nat -> Z -> outcome (option (list PolygonRESTBackfill.Result)))
         (symbol : string) (fromTimestamp toTimestamp : Z),
    (forall n current first rest sip,
        page n current = Returned (Some (first :: rest)) ->
        PolygonRESTBackfill.sip_timestamp (List.last rest first) = Some sip ->
        current <= sip) ->
    exists out,
      PolygonRESTBackfill.fetchTradesInRange page symbol fromTimestamp
        toTimestamp (Z.to_nat (toTimestamp - fromTimestamp)) = Some out
      /\ (forall trades,
             out = Returned trades ->
             Forall (fun trade => PolygonNormalizer.pm_ev trade = "T"
                                  /\ PolygonNormalizer.pm_sym trade = symbol)
                    trades).
Proof.
  intros page symbol fromTimestamp toTimestamp Hserver.
  unfold PolygonRESTBackfill.fetchTradesInRange.
  apply fetchTradesLoop_returns; [exact Hserver | lia | constructor].
Qed.

Lemma backfill_paging_ends_when_the_service_moves_forward_witness :
  PolygonRESTBackfill.fetchTradesInRange fullPage "AAPL" 1735725600000
    1735725600003 0 = None
  /\ exists out,
      PolygonRESTBackfill.fetchTradesInRange fullPage "AAPL" 1735725600000
        1735725600003 (Z.to_nat (1735725600003 - 1735725600000)) = Some out
      /\ (forall trades,
             out = Returned trades ->
             Forall (fun trade => PolygonNormalizer.pm_ev trade = "T"
                                  /\ PolygonNormalizer.pm_sym trade = "AAPL")
                    trades).
Proof.
  split.
  - vm_compute. reflexivity.
  - apply (backfill_paging_ends_when_the_service_moves_forward fullPage
             "AAPL" 1735725600000 1735725600003).
    intros n current first rest sip. unfold fullPage.
    generalize (last_replicate (Z.to_nat 49999) (tradeAt current)).
    generalize (replicate (Z.to_nat 49999) (tradeAt current)).
    intros others Hlast [= <- <-]. rewrite Hlast. simpl. intros [= <-]. lia.
Defined.

(** X26.  The paging loop of the backfill never ends on a service that
    answers with full pages whose last trade carries [null] for
    [sip_timestamp]: the next request is made from time 1, and so is every
    request after it, whatever number of pages the loop is given to run. *)
Theorem backfill_paging_never_ends_on_null_sip_timestamp :
  forall (page : nat -> Z -> outcome (option (list PolygonRESTBackfill.Result)))
         (symbol : string) (fromTimestamp toTimestamp : Z) (fuel : nat),
    (forall n current,
        exists first rest,
          page n current = Returned (Some (first :: rest))
          /\ 50000 <= Z.of_nat (length (first :: rest))
          /\ PolygonRESTBackfill.sip_timestamp (List.last rest first)
             = Some 0) ->
    fromTimestamp < toTimestamp ->
    1 < toTimestamp ->
    PolygonRESTBackfill.fetchTradesInRange page symbol fromTimestamp
      toTimestamp fuel = None.
Proof.
  intros page symbol fromTimestamp toTimestamp fuel Hserver Hfrom Hto.
  unfold PolygonRESTBackfill.fetchTradesInRange.
  generalize (@nil PolygonNormalizer.PolygonTradeMessage) as allTrades.
  generalize 0%nat as n.
  assert (Hcurrent : fromTimestamp < toTimestamp) by exact Hfrom.
  revert Hcurrent. generalize fromTimestamp as current.
  induction fuel as [| fuel IH]; intros current Hcurrent n allTrades;
    destruct (Hserver n current) as (first & rest & Hpage & Hfull & Hsip);
    apply Z.ltb_lt in Hcurrent; apply Z.ltb_ge in Hfull;
    cbn [PolygonRESTBackfill.fetchTradesLoop];
    rewrite Hcurrent, Hpage, Hfull, Hsip; [reflexivity |].
  apply IH. lia.
Qed.

Lemma backfill_paging_never_ends_on_null_sip_timestamp_witness :
  PolygonRESTBackfill.fetchTradesInRange nullSipPage "AAPL" 1735725600000
    1735725700000 1000 = None.
Proof.
  apply (backfill_paging_never_ends_on_null_sip_timestamp nullSipPage "AAPL"
           1735725600000 1735725700000 1000); [| lia | lia].
  intros n current. eexists. eexists. split; [reflexivity |].
  split; [| rewrite last_replicate; reflexivity].
  cbn [length]. rewrite length_replicate. lia.
Defined.
